(** * Prakasa Windows worker: environment checks, command sequences and
      configuration parsing

    A shallow embedding of the decision logic of the C++ sources
    ([system_checker.cpp], [software_installer.cpp], [check_command.cpp],
    [command_parser.cpp]) together with the properties stated about it.

    External commands are calls to a host whose answers are arbitrary; every
    component that runs commands threads the trace of the calls made so far.
    The logging calls ([info_log], [error_log], [LogOperationStart],
    [LogOperationResult]) and the console output do not bear on any result
    and are left out. *)

From Stdlib Require Import String Ascii List ZArith NArith Lia Bool Arith.
From Stdlib Require Import DecimalString.
Import ListNotations.

Local Open Scope string_scope.

(* ================================================================= *)
(** ** Characters: the [<cctype>] classification used by the sources  *)
(* ================================================================= *)

Module CType.

Definition code (c : ascii) : nat := nat_of_ascii c.

Definition TAB : ascii := ascii_of_nat 9.
Definition LF : ascii := ascii_of_nat 10.
Definition CR : ascii := ascii_of_nat 13.
(** Ctrl-Z, the byte 0x1A *)
Definition SUB : ascii := ascii_of_nat 26.
Definition BACKSLASH : ascii := ascii_of_nat 92.
Definition DQUOTE : ascii := ascii_of_nat 34.
Definition SQUOTE : ascii := ascii_of_nat 39.

(** [::isspace] in the "C" locale: space, \t, \n, \v, \f, \r. *)
Definition isspace (c : ascii) : bool :=
  (code c =? 32)%nat || ((9 <=? code c)%nat && (code c <=? 13)%nat).

(** [::isdigit]: '0'..'9'. *)
Definition isdigit (c : ascii) : bool :=
  (48 <=? code c)%nat && (code c <=? 57)%nat.

Definition islower (c : ascii) : bool :=
  (97 <=? code c)%nat && (code c <=? 122)%nat.

Definition isupper (c : ascii) : bool :=
  (65 <=? code c)%nat && (code c <=? 90)%nat.

(** [::toupper] in the "C" locale: 'a'..'z' are shifted, the rest is kept. *)
Definition toupper (c : ascii) : ascii :=
  if islower c then ascii_of_nat (code c - 32) else c.

Definition tolower (c : ascii) : ascii :=
  if isupper c then ascii_of_nat (code c + 32) else c.

End CType.

(* ================================================================= *)
(** ** [std::string] operations                                       *)
(* ================================================================= *)

Module StdString.

(** [npos] is modelled by [None]. *)

Fixpoint take (n : nat) (s : string) : string :=
  match n, s with
  | O, _ => ""
  | S _, "" => ""
  | S n', String c s' => String c (take n' s')
  end.

Fixpoint drop (n : nat) (s : string) : string :=
  match n, s with
  | O, _ => s
  | S _, "" => ""
  | S n', String _ s' => drop n' s'
  end.

(** [s.find(c)] *)
Fixpoint find_char (c : ascii) (s : string) : option nat :=
  match s with
  | "" => None
  | String a s' =>
      if Ascii.eqb a c then Some O
      else option_map S (find_char c s')
  end.

(** [sub] occurs at the start of [s] *)
Fixpoint starts_with (sub s : string) : bool :=
  match sub, s with
  | "", _ => true
  | String _ _, "" => false
  | String a sub', String b s' => Ascii.eqb a b && starts_with sub' s'
  end.

(** [s.find(sub) != npos] *)
Fixpoint contains (sub s : string) : bool :=
  if starts_with sub s then true
  else match s with
       | "" => false
       | String _ s' => contains sub s'
       end.

(** membership in the character set handed to [find_first_not_of] *)
Fixpoint mem_char (c : ascii) (chars : string) : bool :=
  match chars with
  | "" => false
  | String a chars' => Ascii.eqb a c || mem_char c chars'
  end.

(** [s.find_first_not_of(chars)] *)
Fixpoint find_first_not_of (chars s : string) : option nat :=
  match s with
  | "" => None
  | String c s' =>
      if mem_char c chars then option_map S (find_first_not_of chars s')
      else Some O
  end.

(** [s.find_last_not_of(chars)] *)
Fixpoint find_last_not_of (chars s : string) : option nat :=
  match s with
  | "" => None
  | String c s' =>
      match find_last_not_of chars s' with
      | Some i => Some (S i)
      | None => if mem_char c chars then None else Some O
      end
  end.

(** [s.erase(0, count)]: [count = npos] removes everything. *)
Definition erase_front (count : option nat) (s : string) : string :=
  match count with
  | None => ""
  | Some n => drop n s
  end.

(** [pos + 1] on [size_t]: [npos + 1] wraps around to [0]. *)
Definition succ_npos (pos : option nat) : nat :=
  match pos with
  | None => O
  | Some n => S n
  end.

(** [s.erase(pos)]: removes from [pos] to the end ([pos <= size] at
    every use in the sources). *)
Definition erase_from (pos : nat) (s : string) : string := take pos s.

(** [std::remove_if(..., pred)] followed by [erase]. *)
Fixpoint remove_if (pred : ascii -> bool) (s : string) : string :=
  match s with
  | "" => ""
  | String c s' =>
      if pred c then remove_if pred s' else String c (remove_if pred s')
  end.

(** [std::transform(s.begin(), s.end(), s.begin(), f)] *)
Fixpoint transform (f : ascii -> ascii) (s : string) : string :=
  match s with
  | "" => ""
  | String c s' => String (f c) (transform f s')
  end.

Definition empty (s : string) : bool :=
  match s with
  | "" => true
  | _ => false
  end.

Definition first_char (s : string) : option ascii :=
  match s with
  | "" => None
  | String c _ => Some c
  end.

Fixpoint last_char (s : string) : option ascii :=
  match s with
  | "" => None
  | String c "" => Some c
  | String _ s' => last_char s'
  end.

End StdString.

(* ================================================================= *)
(** ** [ConfigManager]: key/value lines of the configuration file     *)
(* ================================================================= *)

Module ConfigManager.
Import CType StdString.

(** The [switch (next)] of [ParseKeyValue]. *)
Definition unescape_char (next : ascii) : ascii :=
  if Ascii.eqb next "n" then LF
  else if Ascii.eqb next "r" then CR
  else if Ascii.eqb next "t" then TAB
  else if Ascii.eqb next BACKSLASH then BACKSLASH
  else if Ascii.eqb next DQUOTE then DQUOTE
  else if Ascii.eqb next SQUOTE then SQUOTE
  else if Ascii.eqb next "=" then "="%char
  else next.

(** The [while (i < value.length())] loop of [ParseKeyValue]: a backslash
    that is not the last character consumes two characters. *)
Fixpoint unescape (value : string) : string :=
  match value with
  | "" => ""
  | String c rest =>
      match rest with
      | String next rest' =>
          if Ascii.eqb c BACKSLASH
          then String (unescape_char next) (unescape rest')
          else String c (unescape rest)
      | "" => String c ""
      end
  end.

(** [erase(0, find_first_not_of(" \t"))] then
    [erase(find_last_not_of(" \t") + 1)]. *)
Definition blanks : string := String " " (String TAB "").

Definition trim (s : string) : string :=
  let s1 := erase_front (find_first_not_of blanks s) s in
  erase_from (succ_npos (find_last_not_of blanks s1)) s1.

(** [ParseKeyValue(line, key, value)]: [None] is the [false] return, the
    pair is the two output parameters on [true]. *)
Definition ParseKeyValue (line : string) : option (string * string) :=
  match find_char "=" line with
  | None => None
  | Some pos =>
      let key := take pos line in
      let value := drop (pos + 1) line in
      let key := trim key in
      let value := trim value in
      Some (key, unescape value)
  end.

(** The [switch (c)] of [EscapeValue]. *)
Definition escape_char (c : ascii) : string :=
  if Ascii.eqb c LF then String BACKSLASH "n"
  else if Ascii.eqb c CR then String BACKSLASH "r"
  else if Ascii.eqb c TAB then String BACKSLASH "t"
  else if Ascii.eqb c BACKSLASH then String BACKSLASH (String BACKSLASH "")
  else if Ascii.eqb c DQUOTE then String BACKSLASH (String DQUOTE "")
  else if Ascii.eqb c SQUOTE then String BACKSLASH (String SQUOTE "")
  else if Ascii.eqb c "=" then String BACKSLASH "="
  else String c "".

Fixpoint EscapeValue (value : string) : string :=
  match value with
  | "" => ""
  | String c value' => escape_char c ++ EscapeValue value'
  end.

(** A string has no leading and no trailing space or tab. *)
Definition is_blank (c : ascii) : bool := mem_char c blanks.

Definition no_outer_blanks (s : string) : bool :=
  match first_char s, last_char s with
  | Some a, Some b => negb (is_blank a) && negb (is_blank b)
  | _, _ => true
  end.

End ConfigManager.

(* ================================================================= *)
(** ** Exceptions and [std::stoi]                                     *)
(* ================================================================= *)

Module Cpp.
Import CType StdString.

Inductive exception : Type :=
| invalid_argument
| out_of_range.

(** The outcome of a call that may leave by an exception. *)
Inductive outcome (A : Type) : Type :=
| Returns (a : A)
| Throws (e : exception).
Arguments Returns {A} a.
Arguments Throws {A} e.

Definition bind {A B} (m : outcome A) (f : A -> outcome B) : outcome B :=
  match m with
  | Returns a => f a
  | Throws e => Throws e
  end.

Definition INT_MAX : Z := 2147483647.
Definition INT_MIN : Z := -2147483648.

Fixpoint skip_while (p : ascii -> bool) (s : string) : string :=
  match s with
  | "" => ""
  | String c s' => if p c then skip_while p s' else s
  end.

Fixpoint take_while (p : ascii -> bool) (s : string) : string :=
  match s with
  | "" => ""
  | String c s' => if p c then String c (take_while p s') else ""
  end.

Definition digit_value (c : ascii) : Z := Z.of_nat (code c) - 48.

(** value of a run of decimal digits, most significant first *)
Fixpoint digits_value (acc : Z) (s : string) : Z :=
  match s with
  | "" => acc
  | String c s' => digits_value (10 * acc + digit_value c) s'
  end.

(** [std::stoi(s)] (base 10): leading white space is skipped, an optional
    sign is read, then the longest run of digits; what follows is ignored.
    No digit: [std::invalid_argument]; a value that does not fit [int]:
    [std::out_of_range]. *)
Definition stoi (s : string) : outcome Z :=
  let s1 := skip_while isspace s in
  let '(negative, s2) :=
    match s1 with
    | String c rest =>
        if Ascii.eqb c "-" then (true, rest)
        else if Ascii.eqb c "+" then (false, rest)
        else (false, s1)
    | "" => (false, s1)
    end in
  let digits := take_while isdigit s2 in
  if empty digits then Throws invalid_argument
  else
    let magnitude := digits_value 0 digits in
    let v := if negative then (- magnitude)%Z else magnitude in
    if ((INT_MIN <=? v) && (v <=? INT_MAX))%Z then Returns v
    else Throws out_of_range.

End Cpp.

(* ================================================================= *)
(** ** The fragment of [std::regex] (ECMAScript) used by the sources  *)
(* ================================================================= *)

Module Regex.
Import CType StdString.

(** Greedy, backtracking matching with numbered capture groups.  A
    quantifier is applied to a character class only, which is all the
    pattern of the GPU checker needs. *)
Inductive regex : Type :=
| Eps
| Lit (c : ascii)                                   (* a literal character *)
| Rep (cls : ascii -> bool) (lo : nat) (hi : option nat) (* cls{lo,hi} *)
| Seq (r1 r2 : regex)
| Alt (r1 r2 : regex)                               (* r1|r2 *)
| Opt (r : regex)                                   (* (?:r)? *)
| Group (i : nat) (r : regex).                      (* (r), group i *)

(** Sub-matches, most recent first. *)
Definition captures : Type := list (nat * string).

Fixpoint group (i : nat) (m : captures) : option string :=
  match m with
  | [] => None
  | (j, s) :: m' => if (i =? j)%nat then Some s else group i m'
  end.

(** [match[i].str()]: the empty string when group [i] did not take part. *)
Definition str (i : nat) (m : captures) : string :=
  match group i m with
  | Some s => s
  | None => ""
  end.

(** [regex_constants::icase]: characters are compared after [tolower]. *)
Definition eq_icase (a b : ascii) : bool :=
  Ascii.eqb (tolower a) (tolower b).

Definition may_take (hi : option nat) : bool :=
  match hi with
  | Some O => false
  | _ => true
  end.

Definition dec (hi : option nat) : option nat := option_map Nat.pred hi.

Section Matcher.
Context {A : Type}.

(** [cls{lo,hi}], greedy: take one more character when possible, and
    only when the continuation fails on that, stop here.  The continuation
    gets the characters taken and the rest of the input. *)
Fixpoint rep (cls : ascii -> bool) (lo : nat) (hi : option nat)
    (s : string) (k : string -> string -> option A) : option A :=
  let more :=
    match s with
    | String c s' =>
        if cls c && may_take hi
        then rep cls (Nat.pred lo) (dec hi) s'
               (fun taken rest => k (String c taken) rest)
        else None
    | "" => None
    end in
  match more with
  | Some a => Some a
  | None => if (lo =? 0)%nat then k "" s else None
  end.

(** [rmatch r s m k]: match [r] at the start of [s] with the captures
    [m] so far, and hand the text matched, the rest of the input and the
    captures to [k]; alternatives are tried in priority order until [k]
    succeeds. *)
Fixpoint rmatch (r : regex) (s : string) (m : captures)
    (k : string -> string -> captures -> option A) : option A :=
  match r with
  | Eps => k "" s m
  | Lit c =>
      match s with
      | String a s' => if eq_icase a c then k (String a "") s' m else None
      | "" => None
      end
  | Rep cls lo hi => rep cls lo hi s (fun taken rest => k taken rest m)
  | Seq r1 r2 =>
      rmatch r1 s m
        (fun t1 s1 m1 =>
           rmatch r2 s1 m1 (fun t2 s2 m2 => k (t1 ++ t2) s2 m2))
  | Alt r1 r2 =>
      match rmatch r1 s m k with
      | Some a => Some a
      | None => rmatch r2 s m k
      end
  | Opt r1 =>
      match rmatch r1 s m k with
      | Some a => Some a
      | None => k "" s m
      end
  | Group i r1 =>
      rmatch r1 s m (fun t s' m' => k t s' ((i, t) :: m'))
  end.
End Matcher.

(** [std::regex_search]: the first position at which the pattern
    matches. *)
Fixpoint regex_search (r : regex) (s : string) : option captures :=
  match rmatch r s [] (fun _ _ m => Some m) with
  | Some m => Some m
  | None =>
      match s with
      | "" => None
      | String _ s' => regex_search r s'
      end
  end.

Fixpoint lit (s : string) : regex :=
  match s with
  | "" => Eps
  | String c s' => Seq (Lit c) (lit s')
  end.

Definition star (cls : ascii -> bool) : regex := Rep cls 0 None.
Definition plus (cls : ascii -> bool) : regex := Rep cls 1 None.

End Regex.

(* ================================================================= *)
(** ** Component results                                              *)
(* ================================================================= *)

Module Environment.
Import CType StdString Cpp Regex.

Inductive EnvironmentComponent : Type :=
| kOSVersion
| kNvidiaGPU
| kNvidiaDriver
| kBIOSVirtualization
| kPipUpgrade
| kParallaxProject.

Inductive InstallationStatus : Type :=
| kSuccess
| kSkipped
| kFailed
| kWarning
| kInProgress.

Record ComponentResult : Type := mkComponentResult {
  component : EnvironmentComponent;
  status : InstallationStatus;
  message : string;
  failure_code : Z
}.

Record EnvironmentResult : Type := mkEnvironmentResult {
  component_results : list ComponentResult;
  reboot_required : bool;
  overall_message : string
}.

Definition status_eqb (a b : InstallationStatus) : bool :=
  match a, b with
  | kSuccess, kSuccess | kSkipped, kSkipped | kFailed, kFailed
  | kWarning, kWarning | kInProgress, kInProgress => true
  | _, _ => false
  end.

(** Modelled from the spec: the result constructors of
    [BaseEnvironmentComponent] (their header, [environment_installer.h],
    is not among the sources).  Each builds the result of the component
    at hand with the status of its name; the failure code is meaningful
    for [kFailed] only and is left at [0] otherwise. *)
Definition CreateSuccessResult (c : EnvironmentComponent) (msg : string)
  : ComponentResult := mkComponentResult c kSuccess msg 0.

Definition CreateSkippedResult (c : EnvironmentComponent) (msg : string)
  : ComponentResult := mkComponentResult c kSkipped msg 0.

Definition CreateWarningResult (c : EnvironmentComponent) (msg : string)
  : ComponentResult := mkComponentResult c kWarning msg 0.

Definition CreateFailureResult (c : EnvironmentComponent) (msg : string)
    (code : Z) : ComponentResult := mkComponentResult c kFailed msg code.

(** [%lu] of [sprintf_s] *)
Definition lu (n : N) : string :=
  DecimalString.NilZero.string_of_uint (N.to_uint n).

End Environment.

(* ================================================================= *)
(** ** [OSVersionChecker]                                             *)
(* ================================================================= *)

Module OSVersionChecker.
Import Environment.

(** The fields of [RTL_OSVERSIONINFOW] that [Check] reads (all [ULONG]). *)
Record RTL_OSVERSIONINFOW : Type := mkOSVersionInfo {
  dwMajorVersion : N;
  dwMinorVersion : N;
  dwBuildNumber : N
}.

(** The [is_supported] flag computed by [Check].  The branch for builds
    18362..19040 carries the comment "only supports x64 architecture;
    simplified handling here, assuming x64 system": no architecture is
    read. *)
Definition is_supported (osvi : RTL_OSVERSIONINFOW) : bool :=
  if (11 <=? dwMajorVersion osvi)%N then true
  else if (dwMajorVersion osvi =? 10)%N then
    if (19041 <=? dwBuildNumber osvi)%N then true
    else if (18362 <=? dwBuildNumber osvi)%N then true
    else false
  else false.

Definition version_info (osvi : RTL_OSVERSIONINFOW) : string :=
  if (11 <=? dwMajorVersion osvi)%N then
    "Windows " ++ lu (dwMajorVersion osvi) ++ "." ++ lu (dwMinorVersion osvi)
      ++ "." ++ lu (dwBuildNumber osvi) ++ " (supported)"
  else if (dwMajorVersion osvi =? 10)%N then
    "Windows 10." ++ lu (dwMinorVersion osvi) ++ "."
      ++ lu (dwBuildNumber osvi) ++ " ("
      ++ (if is_supported osvi then "supported" else "unsupported") ++ ")"
  else
    "Windows " ++ lu (dwMajorVersion osvi) ++ "." ++ lu (dwMinorVersion osvi)
      ++ "." ++ lu (dwBuildNumber osvi)
      ++ " (unsupported - requires Windows 10 build 18362+ or Windows 11)".

(** [Check]: [status] is the [NTSTATUS] of [RtlGetVersion], [osvi] what it
    filled in. *)
Definition Check (status : Z) (osvi : RTL_OSVERSIONINFOW) : ComponentResult :=
  if negb (status =? 0)%Z then
    CreateFailureResult kOSVersion "Failed to get OS version" 10
  else if is_supported osvi
       then CreateSuccessResult kOSVersion (version_info osvi)
       else CreateFailureResult kOSVersion (version_info osvi) 10.

End OSVersionChecker.

(* ================================================================= *)
(** ** [NvidiaGPUChecker]                                             *)
(* ================================================================= *)

Module NvidiaGPUChecker.
Import CType StdString Cpp Regex Environment.

Definition high_end_cards : list string :=
  ["TESLA"; "QUADRO RTX"; "RTX A"; "A100"; "H100";
   "A40"; "A30"; "A10"; "V100"; "P100"].

(** [RTX\s*(\d+)(\d{2,3})(?:\s*(TI|SUPER))?] with [icase] *)
Definition rtx_pattern : regex :=
  Seq (lit "RTX")
 (Seq (star isspace)
 (Seq (Group 1 (plus isdigit))
 (Seq (Group 2 (Rep isdigit 2 (Some 3)))
      (Opt (Seq (star isspace)
                (Group 3 (Alt (lit "TI") (lit "SUPER")))))))).

(** The decisions taken on a parsed name; [None] is the path on which no
    [return] is reached inside the RTX block. *)
Definition rtx_policy (series model : Z) (suffix : string) : option bool :=
  if (50 <=? series)%Z then Some true
  else if (series =? 40)%Z then
    if (60 <=? model)%Z then Some true else Some false
  else if (series =? 30)%Z then
    if (60 <? model)%Z then Some true
    else if (model =? 60)%Z then
      if contains "TI" suffix then Some true else Some false
    else Some false
  else if (series <=? 20)%Z then Some false
  else None.

(** Block 2 of the function: the [if] on "GEFORCE"/"RTX" with the search
    and the two [std::stoi]. *)
Definition rtx_block (gpu_upper : string) : outcome (option bool) :=
  if contains "GEFORCE" gpu_upper || contains "RTX" gpu_upper then
    match regex_search rtx_pattern gpu_upper with
    | Some m =>
        bind (stoi (str 1 m)) (fun series =>
        bind (stoi (str 2 m)) (fun model =>
        let suffix := str 3 m in
        Returns (rtx_policy series model suffix)))
    | None => Returns None
    end
  else Returns None.

Definition IsGPUMeetsMinimumRequirement (gpu_name : string) : outcome bool :=
  let gpu_upper := transform toupper gpu_name in
  if existsb (fun card => contains card gpu_upper) high_end_cards
  then Returns true
  else
    bind (rtx_block gpu_upper) (fun decided =>
    match decided with
    | Some b => Returns b
    | None =>
        if contains "GTX" gpu_upper then Returns false
        else Returns false
    end).

(** [parallax::utils::GPUInfo] as [Check] reads it *)
Record GPUInfo : Type := mkGPUInfo {
  is_nvidia : bool;
  name : string;
  is_blackwell_series : bool
}.

(** [Check]: [gpu_info] is what [GetNvidiaGPUInfo()] returned. *)
Definition Check (gpu_info : GPUInfo) : outcome ComponentResult :=
  if negb (is_nvidia gpu_info) then
    Returns (CreateFailureResult kNvidiaGPU "No NVIDIA GPU detected" 7)
  else
    bind (IsGPUMeetsMinimumRequirement (name gpu_info)) (fun meets =>
    if negb meets then
      Returns (CreateFailureResult kNvidiaGPU
                 ("GPU below minimum requirement: " ++ name gpu_info) 8)
    else
      let result_message :=
        "Compatible NVIDIA GPU detected: " ++ name gpu_info in
      let result_message :=
        if is_blackwell_series gpu_info
        then result_message
               ++ " (Blackwell series - will use blackwell image)"
        else result_message ++ " (will use hopper image)" in
      Returns (CreateSuccessResult kNvidiaGPU result_message)).

End NvidiaGPUChecker.

(* ================================================================= *)
(** ** [NvidiaDriverChecker]                                          *)
(* ================================================================= *)

Module NvidiaDriverChecker.
Import CType StdString Environment.

(** [parallax::utils::CUDAInfo] as [Check] reads it *)
Record CUDAInfo : Type := mkCUDAInfo {
  version : string;
  is_valid_version : bool
}.

(** What the host answers to the queries of [Check]: the exit code and
    standard output of [nvidia-smi], the result of [GetCUDAInfo()], whether
    the registry key opens and, if so, whether its [Version] value can be
    read. *)
Record DriverProbe : Type := mkDriverProbe {
  smi_exit_code : Z;
  smi_stdout : string;
  cuda_info : CUDAInfo;
  reg_key_opens : bool;
  reg_version : option string
}.

Definition Check (host : DriverProbe) : ComponentResult :=
  let driver_version := remove_if isspace (smi_stdout host) in
  if (smi_exit_code host =? 0)%Z && negb (empty (smi_stdout host))
     && negb (empty driver_version)
  then
    let result_message :=
      "NVIDIA driver: " ++ driver_version ++ ", CUDA toolkit: "
        ++ version (cuda_info host) in
    let result_message :=
      if negb (is_valid_version (cuda_info host))
         && negb (String.eqb (version (cuda_info host)) "Not detected")
      then result_message
             ++ " (WARNING: CUDA version should be 12.8.x or 12.9.x)"
      else result_message in
    CreateSuccessResult kNvidiaDriver result_message
  else
    match (if reg_key_opens host then reg_version host else None) with
    | Some version_buffer =>
        CreateSuccessResult kNvidiaDriver
          ("NVIDIA driver installed (registry version: "
             ++ version_buffer ++ ")")
    | None =>
        CreateFailureResult kNvidiaDriver
          "NVIDIA driver not found. Please install NVIDIA graphics driver first."
          20
    end.

End NvidiaDriverChecker.

(* ================================================================= *)
(** ** External commands                                              *)
(* ================================================================= *)

Module Host.

(** The calls a component makes to the outside. *)
Inductive Call : Type :=
| PowerShell (command : string)            (* executor_->ExecutePowerShell *)
| WSL (command : string) (timeout : Z)     (* executor_->ExecuteWSL *)
| WSLRealtime (wsl_command : string)       (* WSLProcess::Execute *)
| ExecCommandEx (command : string) (timeout : Z).  (* utils::ExecCommandEx *)

(** The calls made so far, oldest first. *)
Definition Trace : Type := list Call.

(** A host answers a call with an exit code and the text it printed; the
    answer may depend on every call made before. *)
Definition Responder : Type := Trace -> Call -> Z * string.

(** Computations that make calls: the trace is threaded through. *)
Definition M (A : Type) : Type := Trace -> A * Trace.

Definition ret {A} (a : A) : M A := fun t => (a, t).

Definition bind {A B} (m : M A) (f : A -> M B) : M B :=
  fun t => let '(a, t') := m t in f a t'.

Definition call (host : Responder) (c : Call) : M (Z * string) :=
  fun t => (host t c, (t ++ [c])%list).

Definition result {A} (r : A * Trace) : A := fst r.
Definition trace {A} (r : A * Trace) : Trace := snd r.

Definition command_text (c : Call) : string :=
  match c with
  | PowerShell command => command
  | WSL command _ => command
  | WSLRealtime wsl_command => wsl_command
  | ExecCommandEx command _ => command
  end.

(** A host that answers by the text of the command alone: the listed
    commands get the listed answer, every other command fails with exit
    code 1 and no output. *)
Fixpoint scripted (answers : list (string * (Z * string))) : Responder :=
  fun t c =>
    match answers with
    | [] => (1%Z, "")
    | (command, answer) :: rest =>
        if String.eqb command (command_text c) then answer
        else scripted rest t c
    end.

End Host.

Declare Scope host_scope.
Delimit Scope host_scope with host.
Notation "x <- m ;; k" := (Host.bind m (fun x => k))
  (at level 61, m at next level, right associativity) : host_scope.
Notation "' p <- m ;; k" := (Host.bind m (fun p => k))
  (at level 61, p pattern, m at next level, right associativity) : host_scope.

(* ================================================================= *)
(** ** [BIOSVirtualizationChecker]                                    *)
(* ================================================================= *)

Module BIOSVirtualizationChecker.
Import StdString Environment Host.
Local Open Scope host_scope.

Definition not_enabled_message : string :=
  "BIOS virtualization is not enabled. Please restart your computer and enable virtualization in BIOS settings.".

Definition unverified_message : string :=
  "BIOS virtualization status check completed (unable to verify definitively)".

Section WithHost.
Variable host : Responder.

Definition ExecutePowerShell (command : string) : M (Z * string) :=
  call host (PowerShell command).

(** The backup method of [Check], from [wsl --status] on. *)
Definition backup_method : M ComponentResult :=
  '(wsl_status_code, wsl_status_output) <- ExecutePowerShell "wsl --status" ;;
  if (wsl_status_code =? 0)%Z then
    if contains "ensure virtualization is enabled in the BIOS"
         wsl_status_output
       || contains "WSL2 is not supported with your current machine configuration"
            wsl_status_output
       || contains "virtualization is not enabled" wsl_status_output
    then ret (CreateFailureResult kBIOSVirtualization not_enabled_message 20)
    else ret (CreateSuccessResult kBIOSVirtualization
                "BIOS virtualization is enabled")
  else
    ret (CreateSuccessResult kBIOSVirtualization unverified_message).

Definition Check : M ComponentResult :=
  '(systeminfo_code, systeminfo_output) <- ExecutePowerShell "systeminfo" ;;
  if (systeminfo_code =? 0)%Z then
    if contains "Virtualization Enabled In Firmware: Yes" systeminfo_output
    then ret (CreateSuccessResult kBIOSVirtualization
                "BIOS virtualization is enabled")
    else if contains "Virtualization Enabled In Firmware: No"
              systeminfo_output
    then ret (CreateFailureResult kBIOSVirtualization not_enabled_message 20)
    else backup_method
  else backup_method.
End WithHost.

(** What each query establishes about the virtualization state, if
    anything: [Some true] enabled, [Some false] not enabled, [None] no
    determination. *)
Definition systeminfo_determination (answer : Z * string) : option bool :=
  let '(code, output) := answer in
  if (code =? 0)%Z then
    if contains "Virtualization Enabled In Firmware: Yes" output
    then Some true
    else if contains "Virtualization Enabled In Firmware: No" output
    then Some false
    else None
  else None.

Definition wsl_status_determination (answer : Z * string) : option bool :=
  let '(code, output) := answer in
  if (code =? 0)%Z then
    Some (negb (contains "ensure virtualization is enabled in the BIOS" output
                || contains "WSL2 is not supported with your current machine configuration" output
                || contains "virtualization is not enabled" output))
  else None.

End BIOSVirtualizationChecker.

(* ================================================================= *)
(** ** [PipUpgradeManager] and [ParallaxProjectInstaller]             *)
(* ================================================================= *)

Module SoftwareInstaller.
Import CType StdString Cpp Environment Host.
Local Open Scope host_scope.

(** [ExecutionContext] as the two components read it *)
Record ExecutionContext : Type := mkExecutionContext {
  GetProxyUrl : string;
  GetUbuntuVersion : string
}.

(** A step of a command sequence:
    (step name, command, timeout seconds, use real-time output). *)
Definition Step : Type := (string * string * Z * bool)%type.

Definition step_name (s : Step) : string := let '(n, _, _, _) := s in n.
Definition step_cmd (s : Step) : string := let '(_, c, _, _) := s in c.

Section WithHost.
Variable host : Responder.
Variable context_ : ExecutionContext.
(** The default timeout of [ExecuteWSL], [BuildWSLCommand] and the
    configured repository URL are declared outside the sources. *)
Variable default_timeout : Z.
Variable BuildWSLCommand : string -> string -> string.
Variable repo_url : string.

Definition ExecuteWSL (command : string) (timeout : Z) : M (Z * string) :=
  call host (WSL command timeout).

Definition WSLProcess_Execute (wsl_cmd : string) : M Z :=
  r <- call host (WSLRealtime wsl_cmd) ;; ret (fst r).

Definition proxy_url : string := GetProxyUrl context_.

(* ------------------------- PipUpgradeManager ------------------- *)

Definition pip_version_cmd : string := "pip --version".

Definition IsPipUpToDate : M bool :=
  '(pip_code, pip_output) <- ExecuteWSL pip_version_cmd default_timeout ;;
  ret ((pip_code =? 0)%Z && negb (empty pip_output)).

Definition Pip_Check : M ComponentResult :=
  pip_available <- IsPipUpToDate ;;
  ret (if pip_available
       then CreateSkippedResult kPipUpgrade "pip is available"
       else CreateFailureResult kPipUpgrade "pip is not installed" 24).

Definition install_pip_cmd : string :=
  if empty proxy_url then "apt-get install -y python3-pip"
  else "apt-get -o Acquire::http::proxy=" ++ String DQUOTE proxy_url
         ++ String DQUOTE " -o Acquire::https::proxy="
         ++ String DQUOTE proxy_url
         ++ String DQUOTE " install -y python3-pip".

Definition upgrade_cmd : string :=
  if negb (empty proxy_url)
  then "pip install --proxy " ++ proxy_url
         ++ " --upgrade pip --break-system-packages --ignore-installed"
  else "pip install --upgrade pip --break-system-packages --ignore-installed".

(** The tail of [Install], from "Upgrade pip" on. *)
Definition Pip_upgrade : M ComponentResult :=
  '(upgrade_code, upgrade_output) <- ExecuteWSL upgrade_cmd 300 ;;
  ret (if negb (upgrade_code =? 0)%Z
       then CreateFailureResult kPipUpgrade
              ("Failed to upgrade pip: " ++ upgrade_output) 24
       else CreateSuccessResult kPipUpgrade
              "pip installed and upgraded successfully").

Definition Pip_Install : M ComponentResult :=
  up_to_date <- IsPipUpToDate ;;
  if negb up_to_date then
    '(install_code, install_output) <- ExecuteWSL install_pip_cmd 300 ;;
    if negb (install_code =? 0)%Z then
      ret (CreateFailureResult kPipUpgrade
             ("Failed to install python3-pip: " ++ install_output) 24)
    else Pip_upgrade
  else Pip_upgrade.

(* ---------------------- ParallaxProjectInstaller --------------- *)

Definition installed_probe_cmd : string :=
  "cd ~/parallax && [ -d ./venv ] && source ./venv/bin/activate && pip list | grep parallax".

Definition IsParallaxProjectInstalled : M bool :=
  '(check_code, check_output) <-
     ExecuteWSL installed_probe_cmd default_timeout ;;
  ret ((check_code =? 0)%Z && negb (empty check_output)).

Definition rev_parse_cmd : string :=
  "cd ~/parallax && git rev-parse --is-inside-work-tree 2>/dev/null".

Definition fetch_cmd : string :=
  if negb (empty proxy_url)
  then "cd ~/prakasa && ALL_PROXY=" ++ proxy_url ++ " git fetch origin"
  else "cd ~/prakasa && git fetch origin".

Definition rev_list_cmd : string :=
  "cd ~/prakasa && git rev-list HEAD...origin/main --count 2>/dev/null".

(** The [try] block on the output of [git rev-list --count]; both
    exceptions of [std::stoi] are caught and give [false]. *)
Definition update_count_positive (diff_output : string) : bool :=
  let trimmed_output := remove_if isspace diff_output in
  if negb (empty trimmed_output) then
    match stoi trimmed_output with
    | Returns update_count => (0 <? update_count)%Z
    | Throws _ => false
    end
  else false.

Definition HasParallaxProjectGitUpdates : M bool :=
  '(check_git_code, _) <- ExecuteWSL rev_parse_cmd 30 ;;
  if negb (check_git_code =? 0)%Z then ret false
  else
    '(fetch_code, _) <- ExecuteWSL fetch_cmd 60 ;;
    if negb (fetch_code =? 0)%Z then ret false
    else
      '(diff_code, diff_output) <- ExecuteWSL rev_list_cmd 30 ;;
      if (diff_code =? 0)%Z && negb (empty diff_output)
      then ret (update_count_positive diff_output)
      else ret false.

Definition up_to_date_message : string :=
  "Parallax project is already installed and up to date".


(** The external call by which the runner executes a step. *)
Definition call_of_step (s : Step) : Call :=
  let '(_, cmd, timeout, use_realtime) := s in
  if use_realtime
  then WSLRealtime (BuildWSLCommand (GetUbuntuVersion context_) cmd)
  else WSL cmd timeout.

Definition run_step (s : Step) : M Z :=
  let '(_, cmd, timeout, use_realtime) := s in
  if use_realtime then
    let wsl_cmd := BuildWSLCommand (GetUbuntuVersion context_) cmd in
    WSLProcess_Execute wsl_cmd
  else
    '(exit_code, _) <- ExecuteWSL cmd timeout ;;
    ret exit_code.

Fixpoint ExecuteCommandSequence (commands : list Step)
    (operation_name : string) : M ComponentResult :=
  match commands with
  | [] =>
      ret (CreateSuccessResult kParallaxProject
             "Command sequence completed successfully")
  | s :: rest =>
      cmd_exit_code <- run_step s ;;
      if negb (cmd_exit_code =? 0)%Z then
        let error_msg :=
          "Failed at step '" ++ step_name s ++ "': " ++ step_cmd s in
        ret (CreateFailureResult kParallaxProject error_msg 25)
      else ExecuteCommandSequence rest operation_name
  end.

Definition pull_cmd : string :=
  if negb (empty proxy_url)
  then "cd ~/prakasa && ALL_PROXY=" ++ proxy_url ++ " git pull"
  else "cd ~/prakasa && git pull".

Definition clone_cmd : string :=
  "cd ~ && "
    ++ (if negb (empty proxy_url)
        then "ALL_PROXY=" ++ proxy_url ++ " " else "")
    ++ "git clone " ++ repo_url.

Definition install_venv_cmd : string :=
  if negb (empty proxy_url)
  then "apt -o Acquire::http::proxy=" ++ String DQUOTE proxy_url
         ++ String DQUOTE " -o Acquire::https::proxy="
         ++ String DQUOTE proxy_url
         ++ String DQUOTE " update && apt-get -o Acquire::http::proxy="
         ++ String DQUOTE proxy_url
         ++ String DQUOTE " -o Acquire::https::proxy="
         ++ String DQUOTE proxy_url
         ++ String DQUOTE " install -y python3-venv"
  else "apt update && apt-get install -y python3-venv".

Definition install_base_cmd : string :=
  if negb (empty proxy_url)
  then "cd ~/prakasa && ([ -d ./venv ] || python3 -m venv ./venv) && source ./venv/bin/activate && HTTP_PROXY="
         ++ String DQUOTE proxy_url ++ String DQUOTE " HTTPS_PROXY="
         ++ String DQUOTE proxy_url
         ++ String DQUOTE " pip install -e '.[gpu]'"
  else "cd ~/prakasa && ([ -d ./venv ] || python3 -m venv ./venv) && source ./venv/bin/activate && pip install -e '.[gpu]'".

Definition add_cuda_env_cmd : string :=
  "grep -q '/usr/local/cuda-12.8/bin' ~/.bashrc || echo 'export PATH=/usr/local/cuda-12.8/bin:$PATH' >> ~/.bashrc".

(** The first steps of a fresh installation: what to do with the
    directory, decided by two probes. *)
Definition fresh_source_steps : M (list Step) :=
  '(check_dir_code, check_dir_output) <-
     ExecuteWSL "ls -la ~/parallax/.git 2>/dev/null || echo 'not found'" 30 ;;
  if (check_dir_code =? 0)%Z && negb (contains "not found" check_dir_output)
  then
    '(check_git_code, check_git_output) <-
       ExecuteWSL
         "cd ~/parallax && git branch 2>/dev/null || echo 'not git'" 30 ;;
    if (check_git_code =? 0)%Z
       && negb (contains "not git" check_git_output)
    then ret [("update_parallax", pull_cmd, 300%Z, false)]
    else ret [("remove_old_prakasa", "rm -rf ~/prakasa", 60%Z, false);
              ("clone_prakasa", clone_cmd, 600%Z, false)]
  else ret [("clone_prakasa", clone_cmd, 600%Z, false)].

(** The part of [Install] after the decision that work is needed. *)
Definition Project_do_install (is_installed : bool) : M ComponentResult :=
  let is_update_mode := is_installed in
  commands <-
    (if is_update_mode
     then ret [("update_parallax", pull_cmd, 300%Z, false)]
     else fresh_source_steps) ;;
  let commands :=
    if negb is_update_mode
    then (commands ++ [("install_python3_venv", install_venv_cmd, 300%Z, false)])%list
    else commands in
  let commands :=
    (commands ++ [("install_prakasa_base", install_base_cmd, 1800%Z, true)])%list in
  let commands :=
    if negb is_update_mode
    then (commands ++ [("add_cuda_env", add_cuda_env_cmd, 30%Z, false)])%list
    else commands in
  cmd_result <-
    ExecuteCommandSequence commands "Prakasa project installation" ;;
  if negb (status_eqb (status cmd_result) kSuccess) then ret cmd_result
  else
    verified <- IsParallaxProjectInstalled ;;
    ret (if verified
         then (if is_update_mode
               then CreateSuccessResult kParallaxProject
                      "Prakasa project updated successfully"
               else CreateSuccessResult kParallaxProject
                      "Prakasa project installed successfully")
         else CreateFailureResult kParallaxProject
                (if is_update_mode
                 then "Parallax project update completed but verification failed"
                 else "Parallax project installation completed but verification failed")
                25).

Definition Project_Install : M ComponentResult :=
  is_installed <- IsParallaxProjectInstalled ;;
  if is_installed then
    has_updates <- HasParallaxProjectGitUpdates ;;
    if negb has_updates then
      ret (CreateSkippedResult kParallaxProject up_to_date_message)
    else Project_do_install is_installed
  else Project_do_install is_installed.

End WithHost.

End SoftwareInstaller.

(* ================================================================= *)
(** ** [CheckCommand]: the verdict of a check run                     *)
(* ================================================================= *)

Module CheckCommand.
Import Environment.

(** The loop over [result.component_results]: it stops at the first
    failed result.  Returns [(has_failures, has_warnings)]. *)
Fixpoint scan_results (results : list ComponentResult) (has_warnings : bool)
  : bool * bool :=
  match results with
  | [] => (false, has_warnings)
  | comp_result :: rest =>
      match status comp_result with
      | kFailed => (true, has_warnings)
      | kWarning => scan_results rest true
      | _ => scan_results rest has_warnings
      end
  end.

(** Exit codes returned by [CheckAllComponents]. *)
Definition EXIT_SUCCESS : Z := 0.
Definition EXIT_FAILED : Z := 1.
Definition EXIT_REBOOT : Z := 2.
Definition EXIT_WARNING : Z := 3.

(** [CheckAllComponents], from the result of
    [installer.CheckEnvironment] on. *)
Definition CheckAllComponents (result : EnvironmentResult) : Z :=
  let '(has_failures, has_warnings) :=
    scan_results (component_results result) false in
  if reboot_required result then EXIT_REBOOT
  else if has_failures then EXIT_FAILED
  else if has_warnings then EXIT_WARNING
  else EXIT_SUCCESS.

End CheckCommand.

(* ================================================================= *)
(** ** Notions used in the statements                                 *)
(* ================================================================= *)

Module Notions.
Import CType StdString Cpp Regex Environment Host.

(** The output names one of the failure phrases by which [wsl --status]
    reports that virtualization is not enabled. *)
Definition names_failure_phrase (output : string) : bool :=
  contains "ensure virtualization is enabled in the BIOS" output
  || contains "WSL2 is not supported with your current machine configuration"
       output
  || contains "virtualization is not enabled" output.

(** Some result of the list has the status [st]. *)
Definition has_status (st : InstallationStatus)
    (results : list ComponentResult) : bool :=
  existsb (fun r => status_eqb (status r) st) results.

Definition all_success (results : list ComponentResult) : Prop :=
  Forall (fun r => status r = kSuccess) results.

Section OSVersion.
Import OSVersionChecker.

(** The support policy; [x64] says whether the system is a 64-bit one. *)
Definition supported_policy (x64 : bool) (osvi : RTL_OSVERSIONINFOW) : Prop :=
  (11 <= dwMajorVersion osvi)%N
  \/ (dwMajorVersion osvi = 10 /\ 19041 <= dwBuildNumber osvi)%N
  \/ (dwMajorVersion osvi = 10%N
      /\ (18362 <= dwBuildNumber osvi < 19041)%N /\ x64 = true).

(** Below Windows 10 build 18362. *)
Definition below_floor (osvi : RTL_OSVERSIONINFOW) : Prop :=
  (dwMajorVersion osvi < 10)%N
  \/ (dwMajorVersion osvi = 10 /\ dwBuildNumber osvi < 18362)%N.

End OSVersion.

Section Driver.
Import NvidiaDriverChecker.

(** The [nvidia-smi] query succeeded and printed a version. *)
Definition driver_query_succeeds (host : DriverProbe) : Prop :=
  smi_exit_code host = 0%Z /\ remove_if isspace (smi_stdout host) <> "".

(** A toolkit version was detected and is not an accepted one. *)
Definition toolkit_outside_accepted (host : DriverProbe) : Prop :=
  is_valid_version (cuda_info host) = false
  /\ version (cuda_info host) <> "Not detected".

End Driver.

Section GPU.
Import NvidiaGPUChecker.

Definition upper (gpu_name : string) : string := transform toupper gpu_name.

(** The name contains one of the professional and data-centre markers. *)
Definition on_allowlist (gpu_name : string) : bool :=
  existsb (fun card => contains card (upper gpu_name)) high_end_cards.

(** The name gets to the GeForce/RTX block of the classification. *)
Definition reaches_rtx_step (gpu_name : string) : bool :=
  negb (on_allowlist gpu_name)
  && (contains "GEFORCE" (upper gpu_name) || contains "RTX" (upper gpu_name)).

(** Series, model and suffix as the function parses them: the sub-matches
    of the first match of the pattern, the first two converted by
    [std::stoi]. *)
Definition parsed_rtx (gpu_name : string) : option (Z * Z * string) :=
  match regex_search rtx_pattern (upper gpu_name) with
  | Some m =>
      match stoi (str 1 m), stoi (str 2 m) with
      | Returns series, Returns model => Some (series, model, str 3 m)
      | _, _ => None
      end
  | None => None
  end.

(** The acceptance policy on a parsed name. *)
Definition meets_policy (series model : Z) (suffix : string) : Prop :=
  (50 <= series)%Z
  \/ (series = 40 /\ 60 <= model)%Z
  \/ (series = 30%Z
      /\ ((60 < model)%Z \/ (model = 60%Z /\ contains "TI" suffix = true))).

(** No character of the string is a lower-case letter. *)
Fixpoint no_lower (s : string) : bool :=
  match s with
  | "" => true
  | String c s' => negb (islower c) && no_lower s'
  end.

(** The spellings of "RTX 3060 Ti", with and without the spaces, after
    upper-casing. *)
Definition rtx_3060_ti_spellings : list string :=
  ["RTX 3060 TI"; "RTX 3060TI"; "RTX3060 TI"; "RTX3060TI"].

End GPU.

Section Commands.
Import SoftwareInstaller.

Variable host : Responder.
Variable context_ : ExecutionContext.
Variable default_timeout : Z.
Variable BuildWSLCommand : string -> string -> string.

(** The exit code of a step when it is run after the calls [t]. *)
Definition step_exit_code (t : Trace) (s : Step) : Z :=
  fst (host t (call_of_step context_ BuildWSLCommand s)).

(** Every step of [steps] exits with zero when the steps are run one
    after the other, starting after the calls [t]. *)
Fixpoint all_exit_zero (t : Trace) (steps : list Step) : Prop :=
  match steps with
  | [] => True
  | s :: rest =>
      step_exit_code t s = 0%Z
      /\ all_exit_zero
           (t ++ [call_of_step context_ BuildWSLCommand s])%list rest
  end.

(** The answer to a probe is positive: exit code zero and some output. *)
Definition importable (answer : Z * string) : bool :=
  (fst answer =? 0)%Z && negb (empty (snd answer)).



(** The calls by which the project-deployment component looks for work:
    the import probe and the three git commands of the update detection.
    [git fetch origin] among them brings the remote-tracking refs of the
    checkout up to date; none of them is an installation step. *)
Definition project_queries : list Call :=
  [WSL installed_probe_cmd default_timeout;
   WSL rev_parse_cmd 30;
   WSL (fetch_cmd context_) 60;
   WSL rev_list_cmd 30].

End Commands.

End Notions.
Import Notions.

(* ================================================================= *)
(** ** [std::map<std::string, std::string>]                           *)
(* ================================================================= *)

Module StdMap.

(** The bindings in ascending key order, as the iteration of the map
    yields them. *)
Definition t : Type := list (string * string).

(** [m.find(k)] *)
Fixpoint find (k : string) (m : t) : option string :=
  match m with
  | [] => None
  | (k', v) :: rest => if String.eqb k k' then Some v else find k rest
  end.

(** [m[k] = v] *)
Fixpoint assign (k v : string) (m : t) : t :=
  match m with
  | [] => [(k, v)]
  | (k', v') :: rest =>
      match String.compare k k' with
      | Eq => (k, v) :: rest
      | Lt => (k, v) :: m
      | Gt => (k', v') :: assign k v rest
      end
  end.

(** [m[k]] read as a value: a missing key is entered with the empty
    string.  [touch] is the map afterwards, [at_] the value read. *)
Definition touch (k : string) (m : t) : t :=
  match find k m with
  | Some _ => m
  | None => assign k "" m
  end.

Definition at_ (k : string) (m : t) : string :=
  match find k m with
  | Some v => v
  | None => ""
  end.

End StdMap.

(* ================================================================= *)
(** ** [ConfigManager]: the configuration store and its file          *)
(* ================================================================= *)

Module ConfigStore.
Import CType StdString ConfigManager.

Definition KEY_PROXY_URL : string := "proxy_url".
Definition KEY_WSL_LINUX_DISTRO : string := "wsl_linux_distro".
Definition KEY_WSL_INSTALLER_URL : string := "wsl_installer_url".
Definition KEY_WSL_KERNEL_URL : string := "wsl_kernel_url".
Definition KEY_PRAKASA_GIT_REPO_URL : string := "prakasa_git_repo_url".

(** The members of the manager: [config_values_] and [config_path_]. *)
Record State : Type := mkState {
  config_values_ : StdMap.t;
  config_path_ : string
}.

(** The files that can be opened for reading, with their text.  Both
    streams of the manager are opened in text mode, so that on the Windows
    runtimes the program is built for a line end is written and read as
    CR LF: the text of a file is taken with its line ends as single line
    feeds, as the program writes them and gets them back. *)
Definition Files : Type := string -> option string.

Definition write_file (path content : string) (files : Files) : Files :=
  fun p => if String.eqb p path then Some content else files p.

Definition InitDefaultConfig (m : StdMap.t) : StdMap.t :=
  let m := StdMap.assign KEY_WSL_LINUX_DISTRO "Ubuntu-24.04" m in
  let m := StdMap.assign KEY_WSL_INSTALLER_URL
    "https://github.com/microsoft/WSL/releases/download/2.4.13/wsl.2.4.13.0.x64.msi"
    m in
  let m := StdMap.assign KEY_WSL_KERNEL_URL
    "https://wslstorestorage.blob.core.windows.net/wslblob/wsl_update_x64.msi"
    m in
  StdMap.assign KEY_PRAKASA_GIT_REPO_URL
    "https://github.com/hetu-project/prakasa.git" m.

(** The lines that successive [std::getline] calls read from the text of
    a file.  The stream is a text-mode one: on the Windows runtimes the input
    ends before the first byte 0x1A (Ctrl-Z), whatever follows it in the
    file. *)
Fixpoint getlines (text : string) : list string :=
  match text with
  | "" => []
  | String c text' =>
      if Ascii.eqb c SUB then []
      else if Ascii.eqb c LF then "" :: getlines text'
      else match getlines text' with
           | [] => [String c ""]
           | line :: lines => String c line :: lines
           end
  end.

(** The body of the [while (std::getline(file, line))] loop. *)
Definition load_line (m : StdMap.t) (line : string) : StdMap.t :=
  match line with
  | "" => m
  | String c _ =>
      if Ascii.eqb c "#" then m
      else match ParseKeyValue line with
           | Some (key, value) => StdMap.assign key value m
           | None => m
           end
  end.

(** The keys of [builtin_defaults], in the order of that map. *)
Definition builtin_keys : list string :=
  [KEY_PRAKASA_GIT_REPO_URL; KEY_WSL_INSTALLER_URL; KEY_WSL_KERNEL_URL;
   KEY_WSL_LINUX_DISTRO].

(** The loop that restores a built-in item whose value is empty. *)
Definition protect_builtin (m : StdMap.t) (builtin : string * string)
  : StdMap.t :=
  let '(key, default_value) := builtin in
  if empty (StdMap.at_ key m)
  then StdMap.assign key default_value (StdMap.touch key m)
  else StdMap.touch key m.

(** [LoadConfigInternal] on a file that opens, from its text on. *)
Definition load_text (text : string) (m : StdMap.t) : StdMap.t :=
  let m0 := fold_left (fun m key => StdMap.touch key m)
              [KEY_WSL_LINUX_DISTRO; KEY_WSL_INSTALLER_URL;
               KEY_WSL_KERNEL_URL; KEY_PRAKASA_GIT_REPO_URL] m in
  let builtin_defaults := map (fun key => (key, StdMap.at_ key m0))
                            builtin_keys in
  let m1 := fold_left load_line (getlines text) m0 in
  fold_left protect_builtin builtin_defaults m1.

(** The text that [SaveConfig] writes. *)
Definition save_text (m : StdMap.t) : string :=
  "# Parallax Configuration File" ++ String LF ""
  ++ "# Generated automatically, do not edit manually" ++ String LF ""
  ++ String LF ""
  ++ String.concat ""
       (map (fun kv => fst kv ++ "=" ++ EscapeValue (snd kv) ++ String LF "")
          m).

Section WithFiles.
(** The paths that can be opened for writing. *)
Variable can_write : string -> bool.

Definition SaveConfig (config_path : string) (st : State) (files : Files)
  : bool * State * Files :=
  let path_to_save :=
    if empty config_path then config_path_ st else config_path in
  if negb (can_write path_to_save) then (false, st, files)
  else
    let files' := write_file path_to_save (save_text (config_values_ st))
                    files in
    let st' := if negb (empty config_path)
               then mkState (config_values_ st) config_path
               else st in
    (true, st', files').

Definition LoadConfigInternal (config_path : string) (st : State)
    (files : Files) : bool * State * Files :=
  match files config_path with
  | None => SaveConfig config_path st files
  | Some text =>
      (true, mkState (load_text text (config_values_ st)) (config_path_ st),
       files)
  end.

Definition LoadConfig (config_path : string) (st : State) (files : Files)
  : bool * State * Files :=
  let path_to_load :=
    if empty config_path then config_path_ st else config_path in
  let st1 := mkState (InitDefaultConfig []) (config_path_ st) in
  let '(result, st2, files') := LoadConfigInternal path_to_load st1 files in
  let st3 := if negb (empty config_path)
             then mkState (config_values_ st2) config_path
             else st2 in
  (result, st3, files').

End WithFiles.

Definition GetConfigValue (st : State) (key default_value : string) : string :=
  match StdMap.find key (config_values_ st) with
  | Some v => v
  | None => default_value
  end.

Definition SetConfigValue (key value : string) (st : State) : State :=
  mkState (StdMap.assign key value (config_values_ st)) (config_path_ st).

Definition HasConfigValue (st : State) (key : string) : bool :=
  match StdMap.find key (config_values_ st) with
  | Some _ => true
  | None => false
  end.

Definition valid_keys : list string :=
  [KEY_PROXY_URL; KEY_WSL_LINUX_DISTRO; KEY_WSL_INSTALLER_URL;
   KEY_WSL_KERNEL_URL; KEY_PRAKASA_GIT_REPO_URL].

Definition IsValidConfigKey (key : string) : bool :=
  existsb (String.eqb key) valid_keys.

Definition ResetToDefaults (st : State) : State :=
  mkState (InitDefaultConfig []) (config_path_ st).

End ConfigStore.

(* ================================================================= *)
(** ** [CommandParser]                                                *)
(* ================================================================= *)

Module CommandParser.
Import CType StdString Cpp.

(** A handler returns an exit code or leaves by a [std::exception]. *)
Definition CommandHandler : Type := list string -> outcome Z.

Record Command : Type := mkCommand {
  name : string;
  description : string;
  handler : CommandHandler
}.

(** [commands_.push_back(...)] *)
Definition RegisterCommand (name description : string)
    (handler : CommandHandler) (commands_ : list Command) : list Command :=
  (commands_ ++ [mkCommand name description handler])%list.

(** [std::find_if] over [commands_] *)
Fixpoint FindCommand (name_ : string) (commands_ : list Command)
  : option Command :=
  match commands_ with
  | [] => None
  | cmd :: rest =>
      if String.eqb (name cmd) name_ then Some cmd
      else FindCommand name_ rest
  end.

(** [Parse(argc, argv)] with [argc] the length of [argv]; the exit code. *)
Definition Parse (commands_ : list Command) (argv : list string) : Z :=
  match argv with
  | [] => 1
  | [_] => 0
  | _ :: command_name :: args =>
      if String.eqb command_name "--help" || String.eqb command_name "-h"
      then 0
      else if String.eqb command_name "--version"
              || String.eqb command_name "-v"
      then 0
      else match FindCommand command_name commands_ with
           | None => 1
           | Some command =>
               match handler command args with
               | Returns code => code
               | Throws _ => 1
               end
           end
  end%Z.

Fixpoint spaces (n : nat) : string :=
  match n with
  | O => ""
  | S n' => String " " (spaces n')
  end.

(** The line that [ShowHelp] prints for a command. *)
Definition help_entry (command : Command) : string :=
  let padding := (15 - Z.of_nat (String.length (name command)))%Z in
  let padding := if (padding <? 1)%Z then 1%Z else padding in
  "  " ++ name command ++ spaces (Z.to_nat padding) ++ description command
    ++ String LF "".

End CommandParser.

(* ================================================================= *)
(** ** [BaseCommand]: the template of a command                       *)
(* ================================================================= *)

Module BaseCommand.
Import CType StdString Cpp.

Inductive CommandResult : Type :=
| Success
| InvalidArgs
| EnvironmentError
| ExecutionError.

(** [static_cast<int>(result)] *)
Definition to_int (r : CommandResult) : Z :=
  match r with
  | Success => 0
  | InvalidArgs => 1
  | EnvironmentError => 2
  | ExecutionError => 3
  end.

Definition is_success (r : CommandResult) : bool :=
  match r with
  | Success => true
  | _ => false
  end.

Record CommandContext : Type := mkCommandContext {
  args : list string;
  ubuntu_version : string;
  proxy_url : string;
  is_admin : bool;
  wsl_available : bool
}.

Record EnvironmentRequirements : Type := mkRequirements {
  need_wsl : bool;
  need_admin : bool;
  sync_proxy : bool
}.

(** What the machine answers to the questions of [PrepareEnvironment]:
    the configured distribution, [utils::GetProxyUrl()], [utils::IsAdmin()]
    and the exit code and output of [wsl --list --quiet]. *)
Record Machine : Type := mkMachine {
  configured_distro : string;
  system_proxy_url : string;
  running_as_admin : bool;
  wsl_list : Z * string
}.

(** Where [Execute] ends: with a result, or in [ExecuteImpl] on a
    context. *)
Inductive Flow : Type :=
| Done (r : CommandResult)
| Run (context : CommandContext).

Definition is_help (arg : string) : bool :=
  String.eqb arg "--help" || String.eqb arg "-h".

(** The default [ShouldShowHelp]. *)
Definition ShouldShowHelp (args : list string) : bool := existsb is_help args.

Section Template.
(** [utils::ConvertPowerShellOutputToUtf8], outside the sources. *)
Variable ConvertPowerShellOutputToUtf8 : string -> string.
(** The members of the derived class. *)
Variable ValidateArgsImpl : CommandContext -> CommandResult * CommandContext.
Variable requirements : EnvironmentRequirements.
Variable machine : Machine.

Definition CheckWSLEnvironment (context : CommandContext) : bool :=
  let '(exit_code, stdout_output) := wsl_list machine in
  if negb (exit_code =? 0)%Z then false
  else contains (ubuntu_version context)
         (ConvertPowerShellOutputToUtf8 stdout_output).

Definition PrepareEnvironment (context : CommandContext)
  : CommandResult * CommandContext :=
  let context :=
    mkCommandContext (args context) (configured_distro machine)
      (system_proxy_url machine) (running_as_admin machine)
      (wsl_available context) in
  if need_admin requirements && negb (is_admin context)
  then (EnvironmentError, context)
  else if need_wsl requirements then
    let context :=
      mkCommandContext (args context) (ubuntu_version context)
        (proxy_url context) (is_admin context)
        (CheckWSLEnvironment context) in
    if negb (wsl_available context) then (EnvironmentError, context)
    else (Success, context)
  else (Success, context).

Definition Execute (args : list string) : Flow :=
  let context := mkCommandContext args "" "" false false in
  if ShouldShowHelp (BaseCommand.args context) then Done Success
  else
    let '(result, context) := ValidateArgsImpl context in
    if negb (is_success result) then Done result
    else
      let '(result, context) := PrepareEnvironment context in
      if negb (is_success result) then Done result
      else Run context.
End Template.

(** [AdminCommand] and [WSLCommand] *)
Definition AdminCommand_requirements : EnvironmentRequirements :=
  mkRequirements false true false.

Definition WSLCommand_requirements : EnvironmentRequirements :=
  mkRequirements true false false.

End BaseCommand.

(* ================================================================= *)
(** ** [CheckCommand] and [InstallCommand]                            *)
(* ================================================================= *)

Module EnvironmentCommands.
Import StdString Environment BaseCommand.

(** [ValidateArgsImpl] of both commands: the first argument that is not a
    help flag is rejected. *)
Fixpoint ValidateArgsImpl_loop (args : list string) : CommandResult :=
  match args with
  | [] => Success
  | arg :: rest =>
      if negb (String.eqb arg "--help") && negb (String.eqb arg "-h")
      then InvalidArgs
      else ValidateArgsImpl_loop rest
  end.

Definition ValidateArgsImpl (context : CommandContext)
  : CommandResult * CommandContext :=
  (ValidateArgsImpl_loop (args context), context).

(** [CheckCommand::ExecuteImpl], from the exit code of
    [CheckAllComponents] on. *)
Definition Check_result_of (result : Z) : CommandResult :=
  if (result =? 0)%Z then Success
  else if (result =? 2)%Z then EnvironmentError
  else if (result =? 3)%Z then Success
  else EnvironmentError.

Definition Check_ExecuteImpl (result : EnvironmentResult) : CommandResult :=
  Check_result_of (CheckCommand.CheckAllComponents result).

(** The loop of [InstallAllComponents]: it stops at the first failed
    result. *)
Fixpoint all_success_loop (results : list ComponentResult) : bool :=
  match results with
  | [] => true
  | comp_result :: rest =>
      match status comp_result with
      | kFailed => false
      | _ => all_success_loop rest
      end
  end.

(** [InstallAllComponents], from the result of
    [installer.InstallEnvironment] on. *)
Definition InstallAllComponents (result : EnvironmentResult) : Z :=
  let all_success := all_success_loop (component_results result) in
  if reboot_required result then 2%Z
  else if all_success then 0%Z
  else 1%Z.

Definition Install_result_of (result : Z) : CommandResult :=
  if (result =? 0)%Z then Success
  else if (result =? 2)%Z then Success
  else ExecutionError.

Definition Install_ExecuteImpl (result : EnvironmentResult) : CommandResult :=
  Install_result_of (InstallAllComponents result).

End EnvironmentCommands.

(* ================================================================= *)
(** ** [WSLCommand] and the run, join and chat commands               *)
(* ================================================================= *)

Module WSLCommand.
Import CType StdString Cpp Host BaseCommand.
Local Open Scope host_scope.

Definition BuildVenvActivationCommand : string :=
  "cd ~/prakasa && export PATH=/usr/local/cuda-12.8/bin:$(echo '$PATH' | tr ':' '\n' | grep -v '/mnt/c' | paste -sd ':' -) && source ./venv/bin/activate".

(** The characters that make [EscapeForShell] quote an argument. *)
Definition special_chars : list ascii :=
  [" "%char; TAB; LF; DQUOTE; SQUOTE; "&"%char; "|"%char; ";"%char;
   "<"%char; ">"%char; "("%char; ")"%char; "$"%char; "`"%char; "*"%char;
   "?"%char; "["%char; "]"%char; "{"%char; "}"%char].

Definition needs_quoting (arg : string) : bool :=
  existsb (fun c => match find_char c arg with
                    | Some _ => true
                    | None => false
                    end) special_chars.

(** The replacement of a single quote: the quote is closed, a quoted
    single quote is added, and the quote is opened again. *)
Definition quoted_quote : string :=
  String SQUOTE (String DQUOTE (String SQUOTE (String DQUOTE
    (String SQUOTE "")))).

Fixpoint escape_body (arg : string) : string :=
  match arg with
  | "" => String SQUOTE ""
  | String c arg' =>
      (if Ascii.eqb c SQUOTE then quoted_quote else String c "")
      ++ escape_body arg'
  end.

Definition EscapeForShell (arg : string) : string :=
  if needs_quoting arg then String SQUOTE (escape_body arg) else arg.

(** The loop that appends the user's arguments to a command. *)
Fixpoint append_args (command : string) (args : list string) : string :=
  match args with
  | [] => command
  | arg :: rest => append_args (command ++ " " ++ EscapeForShell arg) rest
  end.

Definition BuildRunCommand (context : CommandContext) : string :=
  append_args "prakasa run" (args context).

Definition BuildJoinCommand (context : CommandContext) : string :=
  append_args "prakasa join" (args context).

Definition BuildChatCommand (context : CommandContext) : string :=
  append_args "prakasa chat" (args context).

(** [ValidateArgsImpl] of the three commands: always [Success]. *)
Definition ValidateArgsImpl (context : CommandContext)
  : CommandResult * CommandContext := (Success, context).

Section WithHost.
Variable host : Responder.
(** [utils::BuildWSLCommand], outside the sources. *)
Variable BuildWSLCommand : string -> string -> string.

(** The command line that the three commands relay. *)
Definition full_command (context : CommandContext) (command : string)
  : string :=
  if negb (empty (proxy_url context))
  then BuildVenvActivationCommand ++ " && HTTP_PROXY='" ++ proxy_url context
         ++ "' HTTPS_PROXY='" ++ proxy_url context ++ "' " ++ command
  else BuildVenvActivationCommand ++ " && " ++ command.

Definition relay (context : CommandContext) (command : string)
  : M CommandResult :=
  let wsl_command :=
    BuildWSLCommand (ubuntu_version context) (full_command context command) in
  r <- call host (WSLRealtime wsl_command) ;;
  ret (if (fst r =? 0)%Z then Success else ExecutionError).

Definition Run_ExecuteImpl (context : CommandContext) : M CommandResult :=
  relay context (BuildRunCommand context).

Definition Join_ExecuteImpl (context : CommandContext) : M CommandResult :=
  relay context (BuildJoinCommand context).

Definition Chat_ExecuteImpl (context : CommandContext) : M CommandResult :=
  relay context (BuildChatCommand context).

(** The process that [CheckWSLEnvironment] starts:
    [ExecCommandEx] on [powershell.exe] with [wsl --list --quiet], with a
    timeout of 30 seconds. *)
Definition wsl_list_call : Call :=
  ExecCommandEx
    ("powershell.exe -Command " ++ String DQUOTE "wsl --list --quiet"
       ++ String DQUOTE "") 30.

(** [BaseCommand::CheckWSLEnvironment], with the process it starts. *)
Definition CheckWSLEnvironment
    (ConvertPowerShellOutputToUtf8 : string -> string)
    (context : CommandContext) : M bool :=
  '(exit_code, stdout_output) <- call host wsl_list_call ;;
  if negb (exit_code =? 0)%Z then ret false
  else ret (contains (ubuntu_version context)
              (ConvertPowerShellOutputToUtf8 stdout_output)).

(** [BaseCommand::PrepareEnvironment], with the process it starts;
    [configured_distro], [system_proxy_url] and [running_as_admin] are what
    the configuration manager, [utils::GetProxyUrl()] and [utils::IsAdmin()]
    answer. *)
Definition PrepareEnvironment
    (ConvertPowerShellOutputToUtf8 : string -> string)
    (requirements : EnvironmentRequirements)
    (configured_distro system_proxy_url : string) (running_as_admin : bool)
    (context : CommandContext) : M (CommandResult * CommandContext) :=
  let context :=
    mkCommandContext (args context) configured_distro system_proxy_url
      running_as_admin (wsl_available context) in
  if need_admin requirements && negb (is_admin context)
  then ret (EnvironmentError, context)
  else if need_wsl requirements then
    available <- CheckWSLEnvironment ConvertPowerShellOutputToUtf8 context ;;
    let context :=
      mkCommandContext (args context) (ubuntu_version context)
        (proxy_url context) (is_admin context) available in
    if negb (wsl_available context) then ret (EnvironmentError, context)
    else ret (Success, context)
  else ret (Success, context).

(** [BaseCommand::Execute] of a command of this family, with the processes
    that the template and [ExecuteImpl] start. *)
Definition Execute_with (ConvertPowerShellOutputToUtf8 : string -> string)
    (requirements : EnvironmentRequirements)
    (configured_distro system_proxy_url : string) (running_as_admin : bool)
    (ExecuteImpl : CommandContext -> M CommandResult)
    (args : list string) : M CommandResult :=
  let context := mkCommandContext args "" "" false false in
  if ShouldShowHelp (BaseCommand.args context) then ret Success
  else
    let '(result, context) := ValidateArgsImpl context in
    if negb (is_success result) then ret result
    else
      prepared <-
        PrepareEnvironment ConvertPowerShellOutputToUtf8 requirements
          configured_distro system_proxy_url running_as_admin context ;;
      let '(result, context) := prepared in
      if negb (is_success result) then ret result
      else ExecuteImpl context.
End WithHost.

(** [GetEnvironmentRequirements] of the run command, and of the join and
    chat commands. *)
Definition Run_requirements : EnvironmentRequirements :=
  mkRequirements true false false.

Definition Join_requirements : EnvironmentRequirements :=
  mkRequirements true false true.

End WSLCommand.

(* ================================================================= *)
(** ** Further notions used in the statements                         *)
(* ================================================================= *)

Module MoreNotions.
Import CType StdString Cpp Environment Host.

(** [s] without its trailing characters that satisfy [p]. *)
Fixpoint rstrip (p : ascii -> bool) (s : string) : string :=
  match s with
  | "" => ""
  | String c s' =>
      match rstrip p s' with
      | "" => if p c then "" else String c ""
      | r => String c r
      end
  end.

(** [s] without its leading and trailing characters that satisfy [p]. *)
Definition strip (p : ascii -> bool) (s : string) : string :=
  rstrip p (skip_while p s).

Definition is_space (c : ascii) : bool := Ascii.eqb c " ".

(** [s] without its leading and trailing spaces. *)
Definition strip_spaces (s : string) : string := strip is_space s.

(** The line that [SaveConfig] writes for a binding, without its line
    feed. *)
Definition saved_line (kv : string * string) : string :=
  fst kv ++ "=" ++ ConfigManager.EscapeValue (snd kv).

(** A string without the byte 0x1A, at which the reading of a file ends. *)
Definition reads_through (s : string) : bool :=
  match find_char SUB s with
  | None => true
  | Some _ => false
  end.

(** A key that a configuration file can carry: no '=', no line feed, no
    blank at either end, no '#' in front, and no byte 0x1A. *)
Definition storable_key (k : string) : bool :=
  match find_char "=" k, find_char LF k with
  | None, None =>
      ConfigManager.no_outer_blanks k
      && match k with
         | String c _ => negb (Ascii.eqb c "#")
         | "" => true
         end
      && reads_through k
  | _, _ => false
  end.

(** A value that a configuration file carries unchanged: no space at
    either end, and no byte 0x1A. *)
Definition storable_value (v : string) : bool :=
  String.eqb (strip_spaces v) v && reads_through v.

(** The keys of the map are distinct, and its keys and values are ones that
    a configuration file can carry. *)
Definition storable (m : StdMap.t) : Prop :=
  NoDup (map fst m)
  /\ Forall (fun kv => storable_key (fst kv) = true
                       /\ storable_value (snd kv) = true) m.

(** *** Words of a shell command line

    The quoting rules of the POSIX shell, for command lines made of words
    only: blanks separate words, single quotes keep everything up to the
    next single quote, double quotes keep everything up to the next double
    quote as long as no backslash, dollar or backquote occurs in them.  A
    line for which the shell would do more than remove quotes (operators,
    expansions, patterns, backslashes outside quotes, a comment or a tilde
    at the start of a word) has no reading here: [None]. *)

Inductive sh_class : Type :=
| ShBlank | ShSingle | ShDouble | ShBackslash | ShActive | ShLeading
| ShPlain.

Definition sh_classify (c : ascii) : sh_class :=
  if Ascii.eqb c " " || Ascii.eqb c TAB || Ascii.eqb c LF then ShBlank
  else if Ascii.eqb c SQUOTE then ShSingle
  else if Ascii.eqb c DQUOTE then ShDouble
  else if Ascii.eqb c BACKSLASH then ShBackslash
  else if existsb (Ascii.eqb c)
            ["&"%char; "|"%char; ";"%char; "<"%char; ">"%char; "("%char;
             ")"%char; "$"%char; "`"%char; "*"%char; "?"%char; "["%char;
             "]"%char; "{"%char; "}"%char]
  then ShActive
  else if Ascii.eqb c "#" || Ascii.eqb c "~" then ShLeading
  else ShPlain.

Inductive sh_state : Type := Unquoted | SingleQuoted | DoubleQuoted.

(** One more character for the word that is being read. *)
Definition sh_push (c : ascii) (r : option (list string))
  : option (list string) :=
  match r with
  | Some (w :: ws) => Some (String c w :: ws)
  | _ => None
  end.

(** The words of [s]; with [in_word] set, the first word of the result is
    the rest of the word that is being read. *)
Fixpoint sh_scan (st : sh_state) (in_word : bool) (s : string)
  : option (list string) :=
  match s with
  | "" =>
      match st with
      | Unquoted => Some (if in_word then [""] else [])
      | _ => None
      end
  | String c s' =>
      match st with
      | Unquoted =>
          match sh_classify c with
          | ShBlank =>
              option_map (fun ws => if in_word then "" :: ws else ws)
                (sh_scan Unquoted false s')
          | ShSingle => sh_scan SingleQuoted true s'
          | ShDouble => sh_scan DoubleQuoted true s'
          | ShBackslash | ShActive => None
          | ShLeading =>
              if in_word then sh_push c (sh_scan Unquoted true s') else None
          | ShPlain => sh_push c (sh_scan Unquoted true s')
          end
      | SingleQuoted =>
          match sh_classify c with
          | ShSingle => sh_scan Unquoted true s'
          | _ => sh_push c (sh_scan SingleQuoted true s')
          end
      | DoubleQuoted =>
          match sh_classify c with
          | ShDouble => sh_scan Unquoted true s'
          | ShBackslash => None
          | _ =>
              if Ascii.eqb c "$" || Ascii.eqb c "`" then None
              else sh_push c (sh_scan DoubleQuoted true s')
          end
      end
  end.

Definition sh_words (line : string) : option (list string) :=
  sh_scan Unquoted false line.

(** An argument that the shell reads as itself without quotes: it is not
    empty, holds no backslash and does not start with '#' or '~'. *)
Definition plain_word (arg : string) : bool :=
  match arg with
  | "" => false
  | String c _ =>
      negb (Ascii.eqb c "#") && negb (Ascii.eqb c "~")
      && match find_char BACKSLASH arg with
         | Some _ => false
         | None => true
         end
  end.

(** An argument that [EscapeForShell] hands over intact: one that it
    quotes, or one that needs no quotes. *)
Definition passable (arg : string) : bool :=
  WSLCommand.needs_quoting arg || plain_word arg.



(** One of the characters that make [EscapeForShell] quote. *)
Definition is_special (c : ascii) : bool :=
  existsb (Ascii.eqb c) WSLCommand.special_chars.


(** The answer to [wsl --list --quiet] is a success and its output, once
    converted, lists the configured distribution. *)
Definition distro_listed (ConvertPowerShellOutputToUtf8 : string -> string)
    (configured_distro : string) (answer : Z * string) : bool :=
  (fst answer =? 0)%Z
  && StdString.contains configured_distro
       (ConvertPowerShellOutputToUtf8 (snd answer)).

(** The three commands that relay to prakasa inside WSL, each with the
    builder of its command line. *)
Definition model_commands (host : Host.Responder)
    (BuildWSLCommand : string -> string -> string)
  : list ((BaseCommand.CommandContext -> Host.M BaseCommand.CommandResult)
          * (BaseCommand.CommandContext -> string)) :=
  [(WSLCommand.Run_ExecuteImpl host BuildWSLCommand,
    WSLCommand.BuildRunCommand);
   (WSLCommand.Join_ExecuteImpl host BuildWSLCommand,
    WSLCommand.BuildJoinCommand);
   (WSLCommand.Chat_ExecuteImpl host BuildWSLCommand,
    WSLCommand.BuildChatCommand)].

(** The calls by which a fresh installation looks at the directory and
    removes it, and what the answers to the two probes say. *)
Definition dir_probe : Host.Call :=
  Host.WSL "ls -la ~/parallax/.git 2>/dev/null || echo 'not found'" 30.

Definition git_probe : Host.Call :=
  Host.WSL "cd ~/parallax && git branch 2>/dev/null || echo 'not git'" 30.

Definition removal : Host.Call := Host.WSL "rm -rf ~/prakasa" 60.

Definition lists_directory (answer : Z * string) : bool :=
  (fst answer =? 0)%Z && negb (StdString.contains "not found" (snd answer)).

Definition is_repository (answer : Z * string) : bool :=
  (fst answer =? 0)%Z && negb (StdString.contains "not git" (snd answer)).

(** The options that [Parse] answers itself. *)
Definition builtin_options : list string :=
  ["--help"; "-h"; "--version"; "-v"].

End MoreNotions.
Import MoreNotions.

(* ================================================================= *)
(** ** Properties of the configuration line parser                    *)
(* ================================================================= *)

Section StringFacts.
Import CType StdString.

Lemma take_app_length (a b : string) : take (String.length a) (a ++ b) = a.
Proof.
  induction a as [|c a IH]; simpl.
  - reflexivity.
  - now rewrite IH.
Qed.

Lemma drop_app_length (a b : string) : drop (String.length a) (a ++ b) = b.
Proof.
  induction a as [|c a IH]; simpl; auto.
Qed.

Lemma take_length (s : string) : take (String.length s) s = s.
Proof.
  induction s as [|c s IH]; simpl; congruence.
Qed.

Lemma find_char_app_fresh (c : ascii) (a b : string) :
  find_char c a = None ->
  find_char c (a ++ String c b) = Some (String.length a).
Proof.
  induction a as [|x a IH]; simpl; intros H.
  - now rewrite Ascii.eqb_refl.
  - destruct (Ascii.eqb x c); [discriminate|].
    destruct (find_char c a); [discriminate|].
    now rewrite IH.
Qed.

Lemma find_last_not_of_last (chars s : string) (c : ascii) :
  last_char s = Some c -> mem_char c chars = false ->
  find_last_not_of chars s = Some (String.length s - 1).
Proof.
  induction s as [|x s IH]; simpl; [discriminate|].
  destruct s as [|y s'].
  - intros [= ->] Hc. simpl. now rewrite Hc.
  - intros Hl Hc. rewrite (IH Hl Hc). simpl. now rewrite Nat.sub_0_r.
Qed.

End StringFacts.

Section ConfigRoundTrip.
Import CType StdString ConfigManager.

Lemma escape_char_cases (c : ascii) :
  (exists x, escape_char c = String BACKSLASH (String x "")
             /\ unescape_char x = c /\ is_blank x = false)
  \/ (escape_char c = String c "" /\ c <> BACKSLASH /\ c <> TAB).
Proof.
  unfold escape_char.
  destruct (Ascii.eqb_spec c LF) as [->|H1];
    [left; exists "n"%char; now vm_compute|].
  destruct (Ascii.eqb_spec c CR) as [->|H2];
    [left; exists "r"%char; now vm_compute|].
  destruct (Ascii.eqb_spec c TAB) as [->|H3];
    [left; exists "t"%char; now vm_compute|].
  destruct (Ascii.eqb_spec c BACKSLASH) as [->|H4];
    [left; exists BACKSLASH; now vm_compute|].
  destruct (Ascii.eqb_spec c DQUOTE) as [->|H5];
    [left; exists DQUOTE; now vm_compute|].
  destruct (Ascii.eqb_spec c SQUOTE) as [->|H6];
    [left; exists SQUOTE; now vm_compute|].
  destruct (Ascii.eqb_spec c "="%char) as [->|H7];
    [left; exists "="%char; now vm_compute|].
  right; auto.
Qed.

Lemma unescape_plain (c : ascii) (rest : string) :
  c <> BACKSLASH -> unescape (String c rest) = String c (unescape rest).
Proof.
  intros Hc. destruct rest as [|n r]; [reflexivity|].
  cbn [unescape]. destruct (Ascii.eqb_spec c BACKSLASH); [contradiction|].
  reflexivity.
Qed.

(** Unescaping undoes escaping. *)
Lemma unescape_EscapeValue (v : string) : unescape (EscapeValue v) = v.
Proof.
  induction v as [|c v IH]; [reflexivity|].
  cbn [EscapeValue].
  destruct (escape_char_cases c) as [(x & -> & Hx & _)|(-> & Hc & _)].
  - cbn [append unescape]. rewrite Ascii.eqb_refl. now rewrite Hx, IH.
  - cbn [append]. rewrite (unescape_plain _ _ Hc). now rewrite IH.
Qed.

Lemma first_char_EscapeValue (v : string) (a : ascii) :
  first_char v = Some a -> is_blank a = false ->
  exists b, first_char (EscapeValue v) = Some b /\ is_blank b = false.
Proof.
  destruct v as [|c v]; [discriminate|]. intros [= ->] Ha.
  cbn [EscapeValue].
  destruct (escape_char_cases a) as [(x & -> & _ & _)|(-> & _ & _)].
  - exists BACKSLASH. split; reflexivity.
  - exists a. split; [reflexivity|assumption].
Qed.

Lemma append_empty_r (s : string) : s ++ "" = s.
Proof.
  induction s as [|c s IH]; simpl; congruence.
Qed.

Lemma last_char_app (a b : string) :
  b <> "" -> last_char (a ++ b) = last_char b.
Proof.
  intros Hb. induction a as [|c a IH]; [reflexivity|].
  cbn [append last_char]. rewrite IH.
  destruct (a ++ b) eqn:E; [|reflexivity].
  destruct a; [simpl in E; contradiction|discriminate].
Qed.

Lemma last_char_EscapeValue (v : string) (a : ascii) :
  last_char v = Some a -> is_blank a = false ->
  exists b, last_char (EscapeValue v) = Some b /\ is_blank b = false.
Proof.
  induction v as [|c v IH]; [discriminate|].
  destruct v as [|d v'].
  - intros [= ->] Ha. cbn [EscapeValue]. rewrite append_empty_r.
    destruct (escape_char_cases a) as [(x & -> & _ & Hx)|(-> & _ & _)].
    + exists x. split; [reflexivity|assumption].
    + exists a. split; [reflexivity|assumption].
  - intros Hl Ha. change (last_char (String d v') = Some a) in Hl.
    destruct (IH Hl Ha) as (b & Hb & Hbb).
    exists b. split; [|assumption].
    change (EscapeValue (String c (String d v')))
      with (escape_char c ++ EscapeValue (String d v')).
    rewrite last_char_app; [assumption|].
    intros E. rewrite E in Hb. discriminate.
Qed.

Lemma EscapeValue_empty (v : string) : EscapeValue v = "" -> v = "".
Proof.
  destruct v as [|c v]; [reflexivity|]. cbn [EscapeValue].
  destruct (escape_char_cases c) as [(x & -> & _)|(-> & _)]; discriminate.
Qed.

(** Trimming keeps a string whose first and last characters are not
    blanks. *)
Lemma trim_fixed (s : string) (a b : ascii) :
  first_char s = Some a -> is_blank a = false ->
  last_char s = Some b -> is_blank b = false ->
  trim s = s.
Proof.
  intros Hf Ha Hl Hb. unfold trim.
  destruct s as [|c s]; [discriminate|].
  injection Hf as ->. cbn [find_first_not_of].
  unfold is_blank in Ha. rewrite Ha. cbn [erase_front drop].
  rewrite (find_last_not_of_last _ _ _ Hl Hb).
  cbn [succ_npos erase_from].
  replace (S (String.length (String a s) - 1))
    with (String.length (String a s)) by (simpl; lia).
  apply take_length.
Qed.

Lemma trim_no_outer_blanks (s : string) :
  no_outer_blanks s = true -> trim s = s.
Proof.
  unfold no_outer_blanks. intros H.
  destruct s as [|c s]; [reflexivity|].
  destruct (first_char (String c s)) as [a|] eqn:Hf; [|discriminate].
  destruct (last_char (String c s)) as [b|] eqn:Hl.
  - apply andb_true_iff in H as [Ha Hb].
    apply negb_true_iff in Ha, Hb. eapply trim_fixed; eauto.
  - exfalso. clear -Hl. revert c Hl.
    induction s as [|d s IH]; intros c Hl; [discriminate|].
    apply (IH d). exact Hl.
Qed.

Lemma no_outer_blanks_EscapeValue (v : string) :
  no_outer_blanks v = true -> no_outer_blanks (EscapeValue v) = true.
Proof.
  unfold no_outer_blanks. intros H.
  destruct (first_char v) as [a|] eqn:Hf.
  - destruct (last_char v) as [b|] eqn:Hl.
    + apply andb_true_iff in H as [Ha Hb].
      apply negb_true_iff in Ha, Hb.
      destruct (first_char_EscapeValue _ _ Hf Ha) as (a' & -> & Ha').
      destruct (last_char_EscapeValue _ _ Hl Hb) as (b' & -> & Hb').
      now rewrite Ha', Hb'.
    + destruct v; [discriminate|].
      exfalso. clear -Hl. revert a0 Hl.
      induction v as [|d v IH]; intros c Hl; [discriminate|].
      apply (IH d). exact Hl.
  - destruct v; [reflexivity|discriminate].
Qed.

End ConfigRoundTrip.

(** C10: a key without '=' and without outer blanks, and a value without
    outer blanks, are recovered exactly by [ParseKeyValue] from the line
    [key=EscapeValue(value)] that [SaveConfig] writes. *)
Theorem ParseKeyValue_EscapeValue_roundtrip (key value : string) :
  StdString.find_char "=" key = None ->
  ConfigManager.no_outer_blanks key = true ->
  ConfigManager.no_outer_blanks value = true ->
  ConfigManager.ParseKeyValue (key ++ "=" ++ ConfigManager.EscapeValue value)
  = Some (key, value).
Proof.
  intros Hk Hkb Hvb. unfold ConfigManager.ParseKeyValue.
  change ("=" ++ ConfigManager.EscapeValue value)
    with (String "=" (ConfigManager.EscapeValue value)).
  rewrite (find_char_app_fresh _ _ _ Hk).
  rewrite take_app_length.
  replace (String.length key + 1) with (S (String.length key)) by lia.
  assert (Hd : StdString.drop (S (String.length key))
                 (key ++ String "=" (ConfigManager.EscapeValue value))
               = ConfigManager.EscapeValue value).
  { clear. induction key as [|c k IH]; simpl; auto. }
  rewrite Hd.
  rewrite (trim_no_outer_blanks _ Hkb).
  rewrite (trim_no_outer_blanks _ (no_outer_blanks_EscapeValue _ Hvb)).
  now rewrite unescape_EscapeValue.
Qed.

Lemma ParseKeyValue_EscapeValue_roundtrip_witness :
  ConfigManager.ParseKeyValue
    ("proxy_url" ++ "=" ++ ConfigManager.EscapeValue "http://h:1/?a=b c")
  = Some ("proxy_url", "http://h:1/?a=b c").
Proof.
  apply (ParseKeyValue_EscapeValue_roundtrip "proxy_url" "http://h:1/?a=b c");
    reflexivity.
Defined.

(* ================================================================= *)
(** ** The verdict of a check run                                     *)
(* ================================================================= *)

Section Verdict.
Import Environment CheckCommand.

Lemma scan_results_failures (results : list ComponentResult) (w : bool) :
  fst (scan_results results w) = has_status kFailed results.
Proof.
  revert w. induction results as [|r rest IH]; intros w; [reflexivity|].
  cbn [scan_results has_status existsb].
  destruct (status r); cbn [status_eqb orb fst]; auto; apply IH.
Qed.

Lemma scan_results_warnings (results : list ComponentResult) (w : bool) :
  has_status kFailed results = false ->
  snd (scan_results results w) = w || has_status kWarning results.
Proof.
  revert w. induction results as [|r rest IH]; intros w.
  - intros _. cbn. now rewrite orb_false_r.
  - cbn [scan_results has_status existsb].
    destruct (status r); cbn [status_eqb orb]; intros H;
      try discriminate; rewrite (IH _ H); cbn [orb]; auto.
    now rewrite orb_true_r.
Qed.

End Verdict.

Lemma has_status_true (st : Environment.InstallationStatus)
    (results : list Environment.ComponentResult) :
  has_status st results = true <->
  exists r, In r results /\ Environment.status r = st.
Proof.
  unfold has_status. rewrite existsb_exists. split.
  - intros (r & Hin & Hs). exists r. split; [exact Hin|].
    now destruct (Environment.status r), st.
  - intros (r & Hin & <-). exists r. split; [exact Hin|].
    now destruct (Environment.status r).
Qed.

Lemma has_status_false (st : Environment.InstallationStatus)
    (results : list Environment.ComponentResult) :
  (forall r, In r results -> Environment.status r <> st) ->
  has_status st results = false.
Proof.
  intros H. destruct (has_status st results) eqn:E; [|reflexivity].
  apply has_status_true in E as (r & Hin & Hs). now elim (H r Hin).
Qed.

Lemma CheckAllComponents_by_status (result : Environment.EnvironmentResult) :
  CheckCommand.CheckAllComponents result =
    if Environment.reboot_required result then CheckCommand.EXIT_REBOOT
    else if has_status Environment.kFailed
              (Environment.component_results result)
         then CheckCommand.EXIT_FAILED
    else if has_status Environment.kWarning
              (Environment.component_results result)
         then CheckCommand.EXIT_WARNING
    else CheckCommand.EXIT_SUCCESS.
Proof.
  unfold CheckCommand.CheckAllComponents.
  pose proof (scan_results_failures (Environment.component_results result)
                false) as Hf.
  pose proof (scan_results_warnings (Environment.component_results result)
                false) as Hw.
  destruct (CheckCommand.scan_results _ false) as [f w].
  cbn [fst snd] in Hf, Hw. subst f.
  destruct (Environment.reboot_required result); [reflexivity|].
  destruct (has_status Environment.kFailed _); [reflexivity|].
  rewrite (Hw eq_refl). reflexivity.
Qed.

(** C2: the verdict of [CheckAllComponents] is Reboot (2) as soon as the
    reboot flag of the run is set, whatever the statuses; otherwise Failed (1)
    if some result failed; otherwise Warning (3) if some result is a warning;
    otherwise Success (0). *)
Theorem CheckAllComponents_verdict (result : Environment.EnvironmentResult) :
  let results := Environment.component_results result in
  let some_result st :=
    exists r, In r results /\ Environment.status r = st in
  (Environment.reboot_required result = true ->
     CheckCommand.CheckAllComponents result = CheckCommand.EXIT_REBOOT)
  /\ (Environment.reboot_required result = false ->
      some_result Environment.kFailed ->
      CheckCommand.CheckAllComponents result = CheckCommand.EXIT_FAILED)
  /\ (Environment.reboot_required result = false ->
      ~ some_result Environment.kFailed ->
      some_result Environment.kWarning ->
      CheckCommand.CheckAllComponents result = CheckCommand.EXIT_WARNING)
  /\ (Environment.reboot_required result = false ->
      ~ some_result Environment.kFailed ->
      ~ some_result Environment.kWarning ->
      CheckCommand.CheckAllComponents result = CheckCommand.EXIT_SUCCESS).
Proof.
  intros results some_result. rewrite CheckAllComponents_by_status.
  fold results.
  assert (Hno : forall st, ~ some_result st -> has_status st results = false).
  { intros st H. apply has_status_false. intros r Hin Hs. apply H.
    now exists r. }
  split; [intros ->; reflexivity|].
  split; [intros -> H; apply has_status_true in H; now rewrite H|].
  split.
  - intros -> Hf Hw. rewrite (Hno _ Hf).
    apply has_status_true in Hw. now rewrite Hw.
  - intros -> Hf Hw. now rewrite (Hno _ Hf), (Hno _ Hw).
Qed.

Lemma CheckAllComponents_verdict_witness :
  let ok := Environment.CreateSuccessResult Environment.kOSVersion "ok" in
  let warn :=
    Environment.CreateWarningResult Environment.kParallaxProject "updates" in
  let bad :=
    Environment.CreateFailureResult Environment.kNvidiaDriver "missing" 20 in
  CheckCommand.CheckAllComponents
    (Environment.mkEnvironmentResult [ok; bad; warn] true "") = 2%Z
  /\ CheckCommand.CheckAllComponents
       (Environment.mkEnvironmentResult [ok; bad; warn] false "") = 1%Z
  /\ CheckCommand.CheckAllComponents
       (Environment.mkEnvironmentResult [ok; warn] false "") = 3%Z
  /\ CheckCommand.CheckAllComponents
       (Environment.mkEnvironmentResult [ok; ok] false "") = 0%Z.
Proof.
  intros ok warn bad.
  assert (D : forall (rs : list Environment.ComponentResult) st,
             has_status st rs = false ->
             ~ (exists r, In r rs /\ Environment.status r = st)).
  { intros rs st H C. apply has_status_true in C. congruence. }
  split; [|split; [|split]].
  - apply (CheckAllComponents_verdict
             (Environment.mkEnvironmentResult [ok; bad; warn] true "")).
    reflexivity.
  - apply (CheckAllComponents_verdict
             (Environment.mkEnvironmentResult [ok; bad; warn] false "")).
    + reflexivity.
    + exists bad. split; [right; now left|reflexivity].
  - apply (CheckAllComponents_verdict
             (Environment.mkEnvironmentResult [ok; warn] false "")).
    + reflexivity.
    + apply D. reflexivity.
    + exists warn. split; [right; now left|reflexivity].
  - apply (CheckAllComponents_verdict
             (Environment.mkEnvironmentResult [ok; ok] false "")).
    + reflexivity.
    + apply D. reflexivity.
    + apply D. reflexivity.
Defined.

(* ================================================================= *)
(** ** The operating system version                                   *)
(* ================================================================= *)

Section OSVersion.
Import Environment OSVersionChecker.

Lemma is_supported_iff (osvi : RTL_OSVERSIONINFOW) :
  is_supported osvi = true <-> supported_policy true osvi.
Proof.
  unfold is_supported, supported_policy.
  destruct (N.leb_spec 11 (dwMajorVersion osvi)) as [H11|H11].
  { split; auto. }
  destruct (N.eqb_spec (dwMajorVersion osvi) 10) as [H10|H10].
  - destruct (N.leb_spec 19041 (dwBuildNumber osvi)) as [Hb|Hb].
    { split; auto. }
    destruct (N.leb_spec 18362 (dwBuildNumber osvi)) as [Hc|Hc].
    + split; auto. intros _. right. right. repeat split; auto.
    + split; [discriminate|]. intros [H|[[_ H]|[_ [[H _] _]]]]; lia.
  - split; [discriminate|]. intros [H|[[H _]|[H _]]]; lia.
Qed.

Lemma below_floor_unsupported (osvi : RTL_OSVERSIONINFOW) :
  below_floor osvi -> is_supported osvi = false.
Proof.
  intros H. destruct (is_supported osvi) eqn:E; [|reflexivity].
  apply is_supported_iff in E. unfold supported_policy, below_floor in *.
  lia.
Qed.

End OSVersion.

(** C5: for every version reported by [RtlGetVersion] (status 0), the
    version is classified as supported exactly when major>=11, or major=10
    with build>=19041, or major=10 with build in [18362,19041) (on the
    64-bit systems the program assumes and is built for); a supported version
    gives Success, and a version below Windows 10 build 18362 gives Failed
    with failure code 10. *)
Theorem OSVersionChecker_Check_policy
    (osvi : OSVersionChecker.RTL_OSVERSIONINFOW) :
  (OSVersionChecker.is_supported osvi = true <-> supported_policy true osvi)
  /\ (supported_policy true osvi ->
      Environment.status (OSVersionChecker.Check 0 osvi) = Environment.kSuccess)
  /\ (below_floor osvi ->
      Environment.status (OSVersionChecker.Check 0 osvi) = Environment.kFailed
      /\ Environment.failure_code (OSVersionChecker.Check 0 osvi) = 10%Z).
Proof.
  split; [apply is_supported_iff|]. split.
  - intros H. apply is_supported_iff in H.
    unfold OSVersionChecker.Check. cbn. now rewrite H.
  - intros H. apply below_floor_unsupported in H.
    unfold OSVersionChecker.Check. cbn. now rewrite H.
Qed.

Lemma OSVersionChecker_Check_policy_witness :
  Environment.status
    (OSVersionChecker.Check 0 (OSVersionChecker.mkOSVersionInfo 10 0 22631))
  = Environment.kSuccess
  /\ Environment.failure_code
       (OSVersionChecker.Check 0 (OSVersionChecker.mkOSVersionInfo 10 0 17763))
     = 10%Z.
Proof.
  pose proof (OSVersionChecker_Check_policy
                (OSVersionChecker.mkOSVersionInfo 10 0 22631)) as [_ [H _]].
  pose proof (OSVersionChecker_Check_policy
                (OSVersionChecker.mkOSVersionInfo 10 0 17763)) as [_ [_ G]].
  split.
  - apply H. right. left. cbn. split; [reflexivity|]. discriminate.
  - apply G. right. cbn. split; reflexivity.
Defined.

(* ================================================================= *)
(** ** BIOS virtualization                                            *)
(* ================================================================= *)

Lemma bind_call {A} (host : Host.Responder) (c : Host.Call)
    (k : Z * string -> Host.M A) (t : Host.Trace) :
  Host.bind (Host.call host c) k t = k (host t c) (t ++ [c])%list.
Proof. reflexivity. Qed.

Lemma bind_ret {A B} (a : A) (k : A -> Host.M B) (t : Host.Trace) :
  Host.bind (Host.ret a) k t = k a t.
Proof. reflexivity. Qed.

(** C7 (as amended): when the answer to [systeminfo] settles nothing (it
    fails, or carries neither the line "Virtualization Enabled In Firmware:
    Yes" nor the line with "No") and the output of [wsl --status] names none
    of the failure phrases, [Check] returns Success, never Failed.  The
    message says that the state could not be verified only when
    [wsl --status] exits with a non-zero code; when it exits with zero the
    message is "BIOS virtualization is enabled". *)
Theorem BIOSVirtualization_Check_undetermined
    (host : Host.Responder) (t : Host.Trace) :
  let systeminfo := Host.PowerShell "systeminfo" in
  let wsl_status := Host.PowerShell "wsl --status" in
  let answer := host (t ++ [systeminfo])%list wsl_status in
  BIOSVirtualizationChecker.systeminfo_determination (host t systeminfo)
    = None ->
  names_failure_phrase (snd answer) = false ->
  Host.result (BIOSVirtualizationChecker.Check host t)
    = Environment.CreateSuccessResult Environment.kBIOSVirtualization
        (if (fst answer =? 0)%Z
         then "BIOS virtualization is enabled"
         else BIOSVirtualizationChecker.unverified_message)
  /\ Environment.status
       (Host.result (BIOSVirtualizationChecker.Check host t))
     <> Environment.kFailed.
Proof.
  intros systeminfo wsl_status answer H1 H2.
  assert (E : Host.result (BIOSVirtualizationChecker.Check host t)
    = Environment.CreateSuccessResult Environment.kBIOSVirtualization
        (if (fst answer =? 0)%Z
         then "BIOS virtualization is enabled"
         else BIOSVirtualizationChecker.unverified_message)).
  { subst answer systeminfo wsl_status.
    unfold BIOSVirtualizationChecker.systeminfo_determination in H1.
    unfold names_failure_phrase in H2.
    unfold BIOSVirtualizationChecker.Check,
      BIOSVirtualizationChecker.ExecutePowerShell.
    rewrite bind_call.
    destruct (host t (Host.PowerShell "systeminfo")) as [c1 o1].
    assert (B : Host.result
                  (BIOSVirtualizationChecker.backup_method host
                     (t ++ [Host.PowerShell "systeminfo"])%list)
                = Environment.CreateSuccessResult
                    Environment.kBIOSVirtualization
                    (if (fst (host (t ++ [Host.PowerShell "systeminfo"])%list
                                (Host.PowerShell "wsl --status")) =? 0)%Z
                     then "BIOS virtualization is enabled"
                     else BIOSVirtualizationChecker.unverified_message)).
    { unfold BIOSVirtualizationChecker.backup_method,
        BIOSVirtualizationChecker.ExecutePowerShell.
      rewrite bind_call.
      destruct (host (t ++ [Host.PowerShell "systeminfo"])%list
                  (Host.PowerShell "wsl --status")) as [c2 o2].
      cbn [fst snd] in *. rewrite H2.
      destruct (c2 =? 0)%Z; reflexivity. }
    destruct (c1 =? 0)%Z; [|exact B].
    destruct (StdString.contains "Virtualization Enabled In Firmware: Yes" o1);
      [discriminate|].
    destruct (StdString.contains "Virtualization Enabled In Firmware: No" o1);
      [discriminate|].
    exact B. }
  split; [exact E|]. rewrite E. discriminate.
Qed.

Lemma BIOSVirtualization_Check_undetermined_witness :
  Host.result (BIOSVirtualizationChecker.Check (fun _ _ => (1%Z, "")) [])
  = Environment.CreateSuccessResult Environment.kBIOSVirtualization
      BIOSVirtualizationChecker.unverified_message.
Proof.
  apply (BIOSVirtualization_Check_undetermined (fun _ _ => (1%Z, "")) []);
    reflexivity.
Defined.

(** C7, as it is stated, fails: when [systeminfo] fails and [wsl --status]
    exits with zero and prints "Default Version: 2", neither answer says
    anything about virtualization, yet the message of [Check] is "BIOS
    virtualization is enabled", not the message that the state could not be
    verified. *)
Lemma BIOSVirtualization_Check_enabled_unverified :
  let host := Host.scripted [("wsl --status", (0%Z, "Default Version: 2"))] in
  let systeminfo := Host.PowerShell "systeminfo" in
  let wsl_status := Host.PowerShell "wsl --status" in
  BIOSVirtualizationChecker.systeminfo_determination (host [] systeminfo)
    = None
  /\ names_failure_phrase (snd (host [systeminfo] wsl_status)) = false
  /\ Host.result (BIOSVirtualizationChecker.Check host [])
     = Environment.CreateSuccessResult Environment.kBIOSVirtualization
         "BIOS virtualization is enabled"
  /\ Host.result (BIOSVirtualizationChecker.Check host [])
     <> Environment.CreateSuccessResult Environment.kBIOSVirtualization
          BIOSVirtualizationChecker.unverified_message.
Proof.
  cbv zeta. split; [reflexivity|]. split; [reflexivity|].
  split; [reflexivity|]. vm_compute. discriminate.
Qed.

(** [Check] fails only when one of the two queries reports that
    virtualization is not enabled. *)
Lemma BIOSVirtualization_Check_failed_only_on_negative
    (host : Host.Responder) (t : Host.Trace) :
  let systeminfo := Host.PowerShell "systeminfo" in
  let wsl_status := Host.PowerShell "wsl --status" in
  Environment.status (Host.result (BIOSVirtualizationChecker.Check host t))
    = Environment.kFailed ->
  BIOSVirtualizationChecker.systeminfo_determination (host t systeminfo)
    = Some false
  \/ (BIOSVirtualizationChecker.systeminfo_determination (host t systeminfo)
        = None
      /\ BIOSVirtualizationChecker.wsl_status_determination
           (host (t ++ [systeminfo])%list wsl_status) = Some false).
Proof.
  intros systeminfo wsl_status. subst systeminfo wsl_status.
  unfold BIOSVirtualizationChecker.systeminfo_determination,
    BIOSVirtualizationChecker.wsl_status_determination,
    BIOSVirtualizationChecker.Check,
    BIOSVirtualizationChecker.ExecutePowerShell.
  rewrite bind_call.
  destruct (host t (Host.PowerShell "systeminfo")) as [c1 o1].
  assert (B : Environment.status
                (Host.result
                   (BIOSVirtualizationChecker.backup_method host
                      (t ++ [Host.PowerShell "systeminfo"])%list))
              = Environment.kFailed ->
              (let '(code, output) :=
                 host (t ++ [Host.PowerShell "systeminfo"])%list
                   (Host.PowerShell "wsl --status") in
               if (code =? 0)%Z
               then Some (negb
                 (StdString.contains
                    "ensure virtualization is enabled in the BIOS" output
                  || StdString.contains
                       "WSL2 is not supported with your current machine configuration"
                       output
                  || StdString.contains "virtualization is not enabled"
                       output))
               else None) = Some false).
  { unfold BIOSVirtualizationChecker.backup_method,
      BIOSVirtualizationChecker.ExecutePowerShell.
    rewrite bind_call.
    destruct (host (t ++ [Host.PowerShell "systeminfo"])%list
                (Host.PowerShell "wsl --status")) as [c2 o2].
    destruct (c2 =? 0)%Z; [|discriminate].
    match goal with
    | |- context [if ?b then _ else _] => destruct b
    end; [reflexivity|discriminate]. }
  destruct (c1 =? 0)%Z; [|intros H; right; split; [reflexivity|exact (B H)]].
  destruct (StdString.contains "Virtualization Enabled In Firmware: Yes" o1);
    [discriminate|].
  destruct (StdString.contains "Virtualization Enabled In Firmware: No" o1);
    [intros _; now left|].
  intros H; right; split; [reflexivity|exact (B H)].
Qed.

(* ================================================================= *)
(** ** The command-sequence runner                                    *)
(* ================================================================= *)

Section CommandSequence.
Import Environment Host SoftwareInstaller.

Variable host : Responder.
Variable context_ : ExecutionContext.
Variable BuildWSLCommand : string -> string -> string.

Local Abbreviation call_of := (call_of_step context_ BuildWSLCommand).

Lemma run_step_spec (s : Step) (t : Trace) :
  run_step host context_ BuildWSLCommand s t
  = (step_exit_code host context_ BuildWSLCommand t s, (t ++ [call_of s])%list).
Proof.
  unfold run_step, step_exit_code, call_of_step.
  destruct s as [[[n c] tm] [|]];
    unfold WSLProcess_Execute, ExecuteWSL, bind, call, ret; cbn.
  - reflexivity.
  - now destruct (host t (WSL c tm)).
Qed.

Lemma ExecuteCommandSequence_all_zero (commands : list Step)
    (op : string) (t : Trace) :
  all_exit_zero host context_ BuildWSLCommand t commands ->
  ExecuteCommandSequence host context_ BuildWSLCommand commands op t
  = (CreateSuccessResult kParallaxProject
       "Command sequence completed successfully",
     (t ++ map call_of commands)%list).
Proof.
  revert t. induction commands as [|s rest IH]; intros t H.
  - cbn. now rewrite app_nil_r.
  - destruct H as [H0 Hrest].
    cbn [ExecuteCommandSequence]. unfold bind at 1.
    rewrite run_step_spec, H0. cbn [Z.eqb negb].
    rewrite (IH _ Hrest). cbn [map]. now rewrite <- app_assoc.
Qed.

Lemma ExecuteCommandSequence_stops (pre post : list Step) (sk : Step)
    (op : string) (t : Trace) :
  all_exit_zero host context_ BuildWSLCommand t pre ->
  step_exit_code host context_ BuildWSLCommand
      (t ++ map call_of pre)%list sk <> 0%Z ->
  ExecuteCommandSequence host context_ BuildWSLCommand
    (pre ++ sk :: post) op t
  = (CreateFailureResult kParallaxProject
       ("Failed at step '" ++ step_name sk ++ "': " ++ step_cmd sk) 25,
     (t ++ map call_of (pre ++ [sk]))%list).
Proof.
  revert t. induction pre as [|s rest IH]; intros t Hpre Hk.
  - cbn [app map] in *. rewrite app_nil_r in Hk.
    cbn [ExecuteCommandSequence]. unfold bind at 1.
    rewrite run_step_spec.
    destruct (Z.eqb_spec
                  (step_exit_code host context_ BuildWSLCommand t sk) 0); [contradiction|].
    reflexivity.
  - destruct Hpre as [H0 Hrest].
    cbn [app ExecuteCommandSequence]. unfold bind at 1.
    rewrite run_step_spec, H0. cbn [Z.eqb negb].
    rewrite (IH (t ++ [call_of s])%list Hrest).
    + cbn [map app]. now rewrite <- app_assoc.
    + cbn [map] in Hk. now rewrite <- app_assoc.
Qed.

End CommandSequence.

(** C3: when [sk] is the first step that exits non-zero, the runner makes
    the calls of [S1..Sk] and no other, and returns Failed with the
    message "Failed at step '<name>': <command>" of [sk]; when every step
    exits zero it makes the calls of all steps and returns Success. *)
Theorem ExecuteCommandSequence_first_failure
    (host : Host.Responder) (context_ : SoftwareInstaller.ExecutionContext)
    (BuildWSLCommand : string -> string -> string)
    (op : string) (t : Host.Trace) :
  let run := SoftwareInstaller.ExecuteCommandSequence
               host context_ BuildWSLCommand in
  let calls := map (SoftwareInstaller.call_of_step context_ BuildWSLCommand) in
  (forall (pre post : list SoftwareInstaller.Step)
          (sk : SoftwareInstaller.Step),
      all_exit_zero host context_ BuildWSLCommand t pre ->
      step_exit_code host context_ BuildWSLCommand (t ++ calls pre)%list sk
        <> 0%Z ->
      Host.trace (run (pre ++ sk :: post)%list op t)
        = (t ++ calls (pre ++ [sk]))%list
      /\ Host.result (run (pre ++ sk :: post)%list op t)
         = Environment.CreateFailureResult Environment.kParallaxProject
             ("Failed at step '" ++ SoftwareInstaller.step_name sk ++ "': "
                ++ SoftwareInstaller.step_cmd sk) 25)
  /\ (forall commands : list SoftwareInstaller.Step,
      all_exit_zero host context_ BuildWSLCommand t commands ->
      Host.trace (run commands op t) = (t ++ calls commands)%list
      /\ Environment.status (Host.result (run commands op t))
         = Environment.kSuccess).
Proof.
  intros run calls. split.
  - intros pre post sk Hpre Hk. unfold run.
    rewrite (ExecuteCommandSequence_stops host context_ BuildWSLCommand
               pre post sk op t Hpre Hk).
    split; reflexivity.
  - intros commands H. unfold run.
    rewrite (ExecuteCommandSequence_all_zero host context_ BuildWSLCommand
               commands op t H).
    split; reflexivity.
Qed.

Lemma ExecuteCommandSequence_first_failure_witness :
  let ctx := SoftwareInstaller.mkExecutionContext "" "Ubuntu-24.04" in
  let build distro cmd := "wsl -d " ++ distro ++ " -- " ++ cmd in
  let host := Host.scripted [("git pull", (0%Z, "Already up to date."))] in
  let s1 := ("update", "git pull", 300%Z, false) in
  let s2 := ("install", "pip install -e .", 1800%Z, true) in
  let s3 := ("profile", "echo done", 30%Z, false) in
  let run := SoftwareInstaller.ExecuteCommandSequence host ctx build in
  (Host.trace (run [s1; s2; s3] "installation" [])
   = [Host.WSL "git pull" 300;
      Host.WSLRealtime "wsl -d Ubuntu-24.04 -- pip install -e ."]
   /\ Host.result (run [s1; s2; s3] "installation" [])
      = Environment.CreateFailureResult Environment.kParallaxProject
          "Failed at step 'install': pip install -e ." 25)
  /\ (Host.trace (run [s1] "installation" []) = [Host.WSL "git pull" 300]
      /\ Environment.status (Host.result (run [s1] "installation" []))
         = Environment.kSuccess).
Proof.
  intros ctx build host s1 s2 s3 run.
  pose proof (ExecuteCommandSequence_first_failure host ctx build
                "installation" []) as [Hfail Hok].
  split.
  - apply (Hfail [s1] [s3] s2).
    + split; [reflexivity|exact I].
    + vm_compute. discriminate.
  - apply (Hok [s1]). split; [reflexivity|exact I].
Defined.

(* ================================================================= *)
(** ** Project deployment: [Check]                                    *)
(* ================================================================= *)

Section ProjectCheck.
Import CType StdString Cpp Environment Host SoftwareInstaller.

Variable host : Responder.
Variable context_ : ExecutionContext.
Variable default_timeout : Z.

Lemma IsParallaxProjectInstalled_spec (t : Trace) :
  IsParallaxProjectInstalled host default_timeout t
  = (importable (host t (WSL installed_probe_cmd default_timeout)),
     (t ++ [WSL installed_probe_cmd default_timeout])%list).
Proof.
  unfold IsParallaxProjectInstalled, ExecuteWSL, importable.
  rewrite bind_call.
  now destruct (host t (WSL installed_probe_cmd default_timeout)).
Qed.




End ProjectCheck.



(* ================================================================= *)
(** ** [Install] on a component that is already satisfied             *)
(* ================================================================= *)

Section InstallWhenSatisfied.
Import CType StdString Cpp Environment Host SoftwareInstaller.

Variable host : Responder.
Variable context_ : ExecutionContext.
Variable default_timeout : Z.
Variable BuildWSLCommand : string -> string -> string.
Variable repo_url : string.

Lemma HasParallaxProjectGitUpdates_trace (t : Trace) :
  exists calls,
    trace (HasParallaxProjectGitUpdates host context_ t) = (t ++ calls)%list
    /\ incl calls
         [WSL rev_parse_cmd 30; WSL (fetch_cmd context_) 60;
          WSL rev_list_cmd 30].
Proof.
  unfold HasParallaxProjectGitUpdates, ExecuteWSL.
  rewrite bind_call.
  destruct (host t (WSL rev_parse_cmd 30)) as [c1 o1].
  destruct (negb (c1 =? 0)%Z).
  { exists [WSL rev_parse_cmd 30]. split; [reflexivity|].
    intros x [<-|[]]. now left. }
  rewrite bind_call.
  destruct (host (t ++ [WSL rev_parse_cmd 30])%list
              (WSL (fetch_cmd context_) 60)) as [c2 o2].
  destruct (negb (c2 =? 0)%Z).
  { exists [WSL rev_parse_cmd 30; WSL (fetch_cmd context_) 60].
    split; [cbn; now rewrite <- app_assoc|].
    intros x [<-|[<-|[]]]; cbn; auto. }
  rewrite bind_call.
  destruct (host ((t ++ [WSL rev_parse_cmd 30]) ++
                    [WSL (fetch_cmd context_) 60])%list
              (WSL rev_list_cmd 30)) as [c3 o3].
  exists [WSL rev_parse_cmd 30; WSL (fetch_cmd context_) 60;
          WSL rev_list_cmd 30].
  split; [|apply incl_refl].
  destruct ((c3 =? 0)%Z && negb (empty o3)); cbn;
    now rewrite <- !app_assoc.
Qed.

Lemma Project_Install_satisfied (t : Trace) :
  let probe := WSL installed_probe_cmd default_timeout in
  importable (host t probe) = true ->
  result (HasParallaxProjectGitUpdates host context_ (t ++ [probe])%list)
    = false ->
  result (Project_Install host context_ default_timeout BuildWSLCommand
            repo_url t)
    = CreateSkippedResult kParallaxProject up_to_date_message
  /\ exists calls,
       trace (Project_Install host context_ default_timeout BuildWSLCommand
                repo_url t) = (t ++ calls)%list
       /\ incl calls (project_queries context_ default_timeout).
Proof.
  intros probe Hi Hu.
  destruct (HasParallaxProjectGitUpdates_trace (t ++ [probe])%list)
    as (calls & Ht & Hincl).
  assert (E : Project_Install host context_ default_timeout BuildWSLCommand
                repo_url t
              = (CreateSkippedResult kParallaxProject up_to_date_message,
                 (t ++ probe :: calls)%list)).
  { unfold Project_Install, bind at 1.
    rewrite IsParallaxProjectInstalled_spec. fold probe. rewrite Hi.
    unfold bind, result, trace in *.
    destruct (HasParallaxProjectGitUpdates host context_ (t ++ [probe])%list)
      as [b t']. cbn [fst snd] in *. subst b t'.
    cbn [negb ret]. now rewrite <- app_assoc. }
  rewrite E. split; [reflexivity|].
  exists (probe :: calls). split; [reflexivity|].
  intros x [<-|Hx]; [now left|]. right. now apply Hincl.
Qed.

Lemma IsPipUpToDate_spec (t : Trace) :
  IsPipUpToDate host default_timeout t
  = (importable (host t (WSL pip_version_cmd default_timeout)),
     (t ++ [WSL pip_version_cmd default_timeout])%list).
Proof.
  unfold IsPipUpToDate, ExecuteWSL, importable. rewrite bind_call.
  now destruct (host t (WSL pip_version_cmd default_timeout)).
Qed.

Lemma Pip_Install_available_result (t : Trace) :
  let version_query := WSL pip_version_cmd default_timeout in
  let upgrade := WSL (upgrade_cmd context_) 300 in
  let answer := host (t ++ [version_query])%list upgrade in
  result (IsPipUpToDate host default_timeout t) = true ->
  Pip_Install host context_ default_timeout t
  = (if (fst answer =? 0)%Z
     then CreateSuccessResult kPipUpgrade
            "pip installed and upgraded successfully"
     else CreateFailureResult kPipUpgrade
            ("Failed to upgrade pip: " ++ snd answer) 24,
     (t ++ [version_query; upgrade])%list).
Proof.
  intros version_query upgrade answer. rewrite IsPipUpToDate_spec.
  unfold result at 1. cbn [fst]. intros Hp.
  assert (E : Pip_Install host context_ default_timeout t
              = Pip_upgrade host context_ (t ++ [version_query])%list).
  { unfold Pip_Install, bind at 1. rewrite IsPipUpToDate_spec, Hp.
    reflexivity. }
  rewrite E. unfold Pip_upgrade, ExecuteWSL. rewrite bind_call.
  fold upgrade. subst answer.
  destruct (host (t ++ [version_query])%list upgrade) as [c o].
  cbn [fst snd]. unfold ret. rewrite <- app_assoc. cbn [app].
  now destruct (c =? 0)%Z.
Qed.

End InstallWhenSatisfied.

(** C4 (as amended): [Install] of the project-deployment component, called
    when the project is importable and no git update is detected, returns
    Skipped and makes only calls that [Check] makes too (the import probe,
    [git rev-parse], [git fetch origin] and [git rev-list]), none of the
    installation steps.  [Install] of the pip-upgrade component, called
    when pip is already available, does not install python3-pip but still
    runs the pip upgrade command, and nothing else.  When that command exits
    with zero the result is Success with the message "pip installed and
    upgraded successfully"; otherwise it is Failed with failure code 24 and
    the message "Failed to upgrade pip: " followed by the output of the
    command.  It is never Skipped. *)
Theorem Install_when_satisfied
    (host : Host.Responder) (context_ : SoftwareInstaller.ExecutionContext)
    (default_timeout : Z) (BuildWSLCommand : string -> string -> string)
    (repo_url : string) (t : Host.Trace) :
  let probe :=
    Host.WSL SoftwareInstaller.installed_probe_cmd default_timeout in
  let version_query :=
    Host.WSL SoftwareInstaller.pip_version_cmd default_timeout in
  let upgrade := Host.WSL (SoftwareInstaller.upgrade_cmd context_) 300 in
  let project_install :=
    SoftwareInstaller.Project_Install host context_ default_timeout
      BuildWSLCommand repo_url t in
  let pip_install :=
    SoftwareInstaller.Pip_Install host context_ default_timeout t in
  (importable (host t probe) = true ->
   Host.result
     (SoftwareInstaller.HasParallaxProjectGitUpdates host context_
        (t ++ [probe])%list) = false ->
   Host.result project_install
     = Environment.CreateSkippedResult Environment.kParallaxProject
         "Parallax project is already installed and up to date"
   /\ exists calls,
        Host.trace project_install = (t ++ calls)%list
        /\ incl calls (project_queries context_ default_timeout))
  /\ (Host.result (SoftwareInstaller.IsPipUpToDate host default_timeout t)
        = true ->
      Host.trace pip_install = (t ++ [version_query; upgrade])%list
      /\ Host.result pip_install
         = (if (fst (host (t ++ [version_query])%list upgrade) =? 0)%Z
            then Environment.CreateSuccessResult Environment.kPipUpgrade
                   "pip installed and upgraded successfully"
            else Environment.CreateFailureResult Environment.kPipUpgrade
                   ("Failed to upgrade pip: "
                      ++ snd (host (t ++ [version_query])%list upgrade))
                   24)
      /\ Environment.status (Host.result pip_install)
         <> Environment.kSkipped).
Proof.
  intros probe version_query upgrade project_install pip_install. split.
  - intros Hi Hu.
    apply (Project_Install_satisfied host context_ default_timeout
             BuildWSLCommand repo_url t Hi Hu).
  - intros Hp. subst pip_install.
    rewrite (Pip_Install_available_result host context_ default_timeout t Hp).
    unfold Host.trace, Host.result. cbn [fst snd].
    split; [reflexivity|]. split; [reflexivity|].
    match goal with
    | |- context [if ?b then _ else _] => destruct b
    end; cbn; discriminate.
Qed.

Lemma Install_when_satisfied_witness :
  let ctx := SoftwareInstaller.mkExecutionContext "" "Ubuntu-24.04" in
  let host :=
    Host.scripted
      [(SoftwareInstaller.installed_probe_cmd, (0%Z, "parallax 0.1"));
       (SoftwareInstaller.rev_parse_cmd, (0%Z, "true"));
       (SoftwareInstaller.fetch_cmd ctx, (0%Z, ""));
       (SoftwareInstaller.rev_list_cmd, (0%Z, "0"));
       (SoftwareInstaller.pip_version_cmd, (0%Z, "pip 24.0"));
       (SoftwareInstaller.upgrade_cmd ctx, (0%Z, "done"))] in
  Host.result
    (SoftwareInstaller.Project_Install host ctx 30 (fun _ c => c)
       "https://example.org/prakasa.git" [])
  = Environment.CreateSkippedResult Environment.kParallaxProject
      "Parallax project is already installed and up to date"
  /\ Environment.status
       (Host.result (SoftwareInstaller.Pip_Install host ctx 30 []))
     = Environment.kSuccess.
Proof.
  intros ctx host.
  pose proof (Install_when_satisfied host ctx 30 (fun _ c => c)
                "https://example.org/prakasa.git" []) as [Hproject Hpip].
  split.
  - apply Hproject; reflexivity.
  - destruct (Hpip eq_refl) as (_ & Hr & _). rewrite Hr. reflexivity.
Defined.

(** C4, as it is stated, fails for the pip-upgrade component: with pip
    available, [Install] runs the upgrade command and returns Success, not
    Skipped. *)
Lemma Pip_Install_not_skipped :
  let ctx := SoftwareInstaller.mkExecutionContext "" "Ubuntu-24.04" in
  let host :=
    Host.scripted
      [(SoftwareInstaller.pip_version_cmd, (0%Z, "pip 24.0"));
       (SoftwareInstaller.upgrade_cmd ctx, (0%Z, "done"))] in
  Host.result (SoftwareInstaller.IsPipUpToDate host 30 []) = true
  /\ Environment.status
       (Host.result (SoftwareInstaller.Pip_Check host 30 []))
     = Environment.kSkipped
  /\ Environment.status
       (Host.result (SoftwareInstaller.Pip_Install host ctx 30 []))
     = Environment.kSuccess
  /\ Environment.status
       (Host.result (SoftwareInstaller.Pip_Install host ctx 30 []))
     <> Environment.kSkipped
  /\ Host.trace (SoftwareInstaller.Pip_Install host ctx 30 [])
     = [Host.WSL "pip --version" 30;
        Host.WSL
          "pip install --upgrade pip --break-system-packages --ignore-installed"
          300].
Proof.
  cbv zeta. split; [reflexivity|]. split; [reflexivity|].
  split; [reflexivity|]. split; [|reflexivity].
  vm_compute. discriminate.
Qed.

(* ================================================================= *)
(** ** The driver check and the toolkit version                       *)
(* ================================================================= *)

Section DriverCheck.
Import CType StdString Environment NvidiaDriverChecker CheckCommand.

Lemma all_success_no_status (st : InstallationStatus)
    (results : list ComponentResult) :
  st <> kSuccess -> all_success results -> has_status st results = false.
Proof.
  intros Hst H. induction H as [|r rest Hr _ IH]; [reflexivity|].
  cbn [has_status existsb]. rewrite Hr. fold (has_status st rest).
  rewrite IH. destruct st; try reflexivity. contradiction.
Qed.

Lemma Driver_Check_outside_accepted (host : DriverProbe) :
  driver_query_succeeds host -> toolkit_outside_accepted host ->
  Check host
  = CreateSuccessResult kNvidiaDriver
      (("NVIDIA driver: " ++ remove_if isspace (smi_stdout host)
          ++ ", CUDA toolkit: " ++ version (cuda_info host))
         ++ " (WARNING: CUDA version should be 12.8.x or 12.9.x)").
Proof.
  intros [Hc Hv] [Hi Hn]. unfold Check. rewrite Hc, Hi.
  destruct (smi_stdout host) as [|a o] eqn:Eo; [now elim Hv|].
  destruct (remove_if isspace (String a o)) as [|b d] eqn:Ed;
    [now elim Hv|].
  cbn [Z.eqb empty negb andb].
  destruct (String.eqb_spec (version (cuda_info host)) "Not detected");
    [contradiction|].
  reflexivity.
Qed.

End DriverCheck.

(** C6 (as amended): when the driver query succeeds and a toolkit version
    is detected that is not an accepted one, the driver [Check] returns
    Success, with a message that ends in the warning that the version should
    be 12.8.x or 12.9.x; with every other component at Success and no reboot
    required, the overall verdict is Success (exit code 0). *)
Theorem Driver_Check_toolkit_warning
    (host : NvidiaDriverChecker.DriverProbe)
    (before after : list Environment.ComponentResult) (overall : string) :
  driver_query_succeeds host ->
  toolkit_outside_accepted host ->
  all_success before -> all_success after ->
  NvidiaDriverChecker.Check host
  = Environment.CreateSuccessResult Environment.kNvidiaDriver
      (("NVIDIA driver: "
          ++ StdString.remove_if CType.isspace
               (NvidiaDriverChecker.smi_stdout host)
          ++ ", CUDA toolkit: "
          ++ NvidiaDriverChecker.version (NvidiaDriverChecker.cuda_info host))
         ++ " (WARNING: CUDA version should be 12.8.x or 12.9.x)")
  /\ CheckCommand.CheckAllComponents
       (Environment.mkEnvironmentResult
          (before ++ NvidiaDriverChecker.Check host :: after) false overall)
     = CheckCommand.EXIT_SUCCESS.
Proof.
  intros Hq Ht Hb Ha.
  pose proof (Driver_Check_outside_accepted host Hq Ht) as E.
  split; [exact E|].
  rewrite CheckAllComponents_by_status. cbn [Environment.reboot_required
    Environment.component_results].
  assert (Hall : all_success
                   (before ++ NvidiaDriverChecker.Check host :: after)).
  { apply Forall_app. split; [exact Hb|]. constructor; [|exact Ha].
    now rewrite E. }
  rewrite (all_success_no_status Environment.kFailed _ ltac:(discriminate) Hall).
  rewrite (all_success_no_status Environment.kWarning _ ltac:(discriminate) Hall).
  reflexivity.
Qed.

Lemma Driver_Check_toolkit_warning_witness :
  let host :=
    NvidiaDriverChecker.mkDriverProbe 0 ("566.03" ++ String CType.LF "")
      (NvidiaDriverChecker.mkCUDAInfo "12.7" false) false None in
  let os :=
    OSVersionChecker.Check 0 (OSVersionChecker.mkOSVersionInfo 10 0 22631) in
  Environment.message (NvidiaDriverChecker.Check host)
  = "NVIDIA driver: 566.03, CUDA toolkit: 12.7 (WARNING: CUDA version should be 12.8.x or 12.9.x)"
  /\ CheckCommand.CheckAllComponents
       (Environment.mkEnvironmentResult
          ([os] ++ NvidiaDriverChecker.Check host :: []) false "")
     = 0%Z.
Proof.
  intros host os.
  assert (Hq : driver_query_succeeds host)
    by (split; [reflexivity|discriminate]).
  assert (Ht : toolkit_outside_accepted host)
    by (split; [reflexivity|discriminate]).
  assert (Hos : all_success [os]) by (repeat constructor).
  assert (Hnil : all_success []) by constructor.
  destruct (Driver_Check_toolkit_warning host [os] [] "" Hq Ht Hos Hnil)
    as [E V].
  split; [rewrite E; reflexivity|exact V].
Defined.

(** C6, as it is stated, fails: in the scenario of an accepted operating
    system (build 22631), an accepted GPU ("NVIDIA GeForce RTX 4070") and a
    detected toolkit version "12.7", the driver result has status Success,
    not Warning, and the overall verdict is Success (0), not Warning (3). *)
Lemma Driver_Check_status_not_warning :
  let host :=
    NvidiaDriverChecker.mkDriverProbe 0 ("566.03" ++ String CType.LF "")
      (NvidiaDriverChecker.mkCUDAInfo "12.7" false) false None in
  let os :=
    OSVersionChecker.Check 0 (OSVersionChecker.mkOSVersionInfo 10 0 22631) in
  let driver := NvidiaDriverChecker.Check host in
  exists gpu,
    NvidiaGPUChecker.Check
      (NvidiaGPUChecker.mkGPUInfo true "NVIDIA GeForce RTX 4070" false)
    = Cpp.Returns gpu
    /\ Environment.status os = Environment.kSuccess
    /\ Environment.status gpu = Environment.kSuccess
    /\ Environment.status driver = Environment.kSuccess
    /\ Environment.status driver <> Environment.kWarning
    /\ CheckCommand.CheckAllComponents
         (Environment.mkEnvironmentResult [os; gpu; driver] false "")
       = CheckCommand.EXIT_SUCCESS
    /\ CheckCommand.CheckAllComponents
         (Environment.mkEnvironmentResult [os; gpu; driver] false "")
       <> CheckCommand.EXIT_WARNING.
Proof.
  cbv zeta. eexists. split; [vm_compute; reflexivity|].
  repeat (split; [vm_compute; try reflexivity; discriminate|]).
  vm_compute. discriminate.
Qed.

(* ================================================================= *)
(** ** GPU classification                                             *)
(* ================================================================= *)

Section GPUClassification.
Import CType StdString Cpp Regex Environment NvidiaGPUChecker.

Lemma rtx_policy_accepts (series model : Z) (suffix : string) :
  rtx_policy series model suffix = Some true
  <-> meets_policy series model suffix.
Proof.
  unfold rtx_policy, meets_policy.
  destruct (Z.leb_spec 50 series); [tauto|].
  destruct (Z.eqb_spec series 40).
  { destruct (Z.leb_spec 60 model);
      intuition (try discriminate; try lia). }
  destruct (Z.eqb_spec series 30).
  { destruct (Z.ltb_spec 60 model); [tauto|].
    destruct (Z.eqb_spec model 60).
    - destruct (contains "TI" suffix);
        intuition (try discriminate; try lia).
    - intuition (try discriminate; try lia). }
  destruct (Z.leb_spec series 20);
    intuition (try discriminate; try lia).
Qed.

Lemma rtx_policy_rejects (series model : Z) (suffix : string) :
  (series <= 20)%Z \/ (series = 40 /\ model < 60)%Z ->
  rtx_policy series model suffix = Some false.
Proof.
  unfold rtx_policy. intros [H|[-> H]].
  - destruct (Z.leb_spec 50 series); [lia|].
    destruct (Z.eqb_spec series 40); [lia|].
    destruct (Z.eqb_spec series 30); [lia|].
    destruct (Z.leb_spec series 20); [reflexivity|lia].
  - cbn. destruct (Z.leb_spec 60 model); [lia|reflexivity].
Qed.

(** The function on a name that gets to the RTX block: the verdict of the
    policy when the name parses, rejection when it does not, and the
    exception of [std::stoi] when a number does not fit. *)
Lemma IsGPUMeetsMinimumRequirement_rtx_step (gpu_name : string) :
  reaches_rtx_step gpu_name = true ->
  IsGPUMeetsMinimumRequirement gpu_name
  = match regex_search rtx_pattern (upper gpu_name) with
    | None => Returns false
    | Some m =>
        bind (stoi (str 1 m)) (fun series =>
        bind (stoi (str 2 m)) (fun model =>
        Returns match rtx_policy series model (str 3 m) with
                | Some b => b
                | None => false
                end))
    end.
Proof.
  unfold reaches_rtx_step, on_allowlist, upper. intros H.
  apply andb_true_iff in H as [Ha Hc]. apply negb_true_iff in Ha.
  unfold IsGPUMeetsMinimumRequirement, rtx_block. rewrite Ha, Hc.
  destruct (regex_search rtx_pattern (transform toupper gpu_name)) as [m|].
  - destruct (stoi (str 1 m)) as [series|e]; [|reflexivity].
    destruct (stoi (str 2 m)) as [model|e]; [|reflexivity].
    cbn [bind]. destruct (rtx_policy series model (str 3 m)) as [b|];
      [reflexivity|].
    now destruct (contains "GTX" (transform toupper gpu_name)).
  - cbn [bind].
    now destruct (contains "GTX" (transform toupper gpu_name)).
Qed.

Lemma IsGPUMeetsMinimumRequirement_parsed (gpu_name : string)
    (series model : Z) (suffix : string) :
  reaches_rtx_step gpu_name = true ->
  parsed_rtx gpu_name = Some (series, model, suffix) ->
  IsGPUMeetsMinimumRequirement gpu_name
  = Returns match rtx_policy series model suffix with
            | Some b => b
            | None => false
            end.
Proof.
  intros Hr Hp. rewrite (IsGPUMeetsMinimumRequirement_rtx_step _ Hr).
  unfold parsed_rtx in Hp.
  destruct (regex_search rtx_pattern (upper gpu_name)) as [m|];
    [|discriminate].
  destruct (stoi (str 1 m)) as [s|e]; [|discriminate].
  destruct (stoi (str 2 m)) as [mo|e]; [|discriminate].
  injection Hp as -> -> ->. reflexivity.
Qed.

Lemma IsGPUMeetsMinimumRequirement_accepts_iff (gpu_name : string) :
  reaches_rtx_step gpu_name = true ->
  IsGPUMeetsMinimumRequirement gpu_name = Returns true
  <-> exists series model suffix,
        parsed_rtx gpu_name = Some (series, model, suffix)
        /\ meets_policy series model suffix.
Proof.
  intros Hr. split.
  - rewrite (IsGPUMeetsMinimumRequirement_rtx_step _ Hr). unfold parsed_rtx.
    destruct (regex_search rtx_pattern (upper gpu_name)) as [m|];
      [|discriminate].
    destruct (stoi (str 1 m)) as [s|e]; [|discriminate].
    destruct (stoi (str 2 m)) as [mo|e]; [|discriminate].
    cbn [bind]. intros H. exists s, mo, (str 3 m). split; [reflexivity|].
    apply rtx_policy_accepts.
    destruct (rtx_policy s mo (str 3 m)) as [[|]|]; congruence.
  - intros (s & mo & suf & Hp & Hm).
    rewrite (IsGPUMeetsMinimumRequirement_parsed _ _ _ _ Hr Hp).
    apply rtx_policy_accepts in Hm. now rewrite Hm.
Qed.

End GPUClassification.

(** C1: for every GPU name that gets to the GeForce/RTX step (its upper-case
    form contains "GEFORCE" or "RTX" and no allowlist marker),
    [IsGPUMeetsMinimumRequirement] returns true exactly when the name parses
    to a series, model and suffix with series>=50, or series=40 and
    model>=60, or series=30 and (model>60, or model=60 with a suffix that
    contains "TI"); and it returns false when the parsed series is <=20 or
    the series is 40 with model<60. *)
Theorem IsGPUMeetsMinimumRequirement_rtx_policy (gpu_name : string) :
  reaches_rtx_step gpu_name = true ->
  (NvidiaGPUChecker.IsGPUMeetsMinimumRequirement gpu_name = Cpp.Returns true
   <-> exists series model suffix,
         parsed_rtx gpu_name = Some (series, model, suffix)
         /\ meets_policy series model suffix)
  /\ (forall series model suffix,
        parsed_rtx gpu_name = Some (series, model, suffix) ->
        (series <= 20)%Z \/ (series = 40 /\ model < 60)%Z ->
        NvidiaGPUChecker.IsGPUMeetsMinimumRequirement gpu_name
        = Cpp.Returns false).
Proof.
  intros Hr. split.
  - apply IsGPUMeetsMinimumRequirement_accepts_iff, Hr.
  - intros s mo suf Hp Hcase.
    rewrite (IsGPUMeetsMinimumRequirement_parsed _ _ _ _ Hr Hp).
    now rewrite (rtx_policy_rejects _ _ suf Hcase).
Qed.

Lemma IsGPUMeetsMinimumRequirement_rtx_policy_witness :
  NvidiaGPUChecker.IsGPUMeetsMinimumRequirement "NVIDIA GeForce RTX 3060 Ti"
  = Cpp.Returns true
  /\ NvidiaGPUChecker.IsGPUMeetsMinimumRequirement "NVIDIA GeForce RTX 4050"
     = Cpp.Returns false.
Proof.
  split.
  - apply (IsGPUMeetsMinimumRequirement_rtx_policy
             "NVIDIA GeForce RTX 3060 Ti"); [reflexivity|].
    exists 30%Z, 60%Z, "TI". split; [reflexivity|].
    right. right. split; [reflexivity|]. right. split; reflexivity.
  - apply (IsGPUMeetsMinimumRequirement_rtx_policy
             "NVIDIA GeForce RTX 4050") with (series := 40%Z) (model := 50%Z)
                                             (suffix := "");
      [reflexivity|reflexivity|].
    right. split; [reflexivity|]. reflexivity.
Defined.

Section RegexFacts.
Import CType StdString Cpp Regex Environment NvidiaGPUChecker.

Lemma islower_toupper (c : ascii) : islower (toupper c) = false.
Proof.
  destruct c as [[] [] [] [] [] [] [] []]; vm_compute; reflexivity.
Qed.

Lemma toupper_tolower (c : ascii) :
  islower c = false -> toupper (tolower c) = c.
Proof.
  destruct c as [[] [] [] [] [] [] [] []]; vm_compute; congruence.
Qed.

Lemma eq_icase_no_lower (a b : ascii) :
  islower a = false -> islower b = false -> eq_icase a b = true -> a = b.
Proof.
  intros Ha Hb H. unfold eq_icase in H. apply Ascii.eqb_eq in H.
  rewrite <- (toupper_tolower a Ha), <- (toupper_tolower b Hb).
  now rewrite H.
Qed.

Lemma no_lower_upper (s : string) : no_lower (upper s) = true.
Proof.
  induction s as [|c s IH]; [reflexivity|].
  cbn [upper transform no_lower]. fold (upper s).
  now rewrite islower_toupper, IH.
Qed.

(** A match of a pattern that begins with the literal RTX begins with
    these letters, in either case. *)
Lemma rmatch_RTX_prefix {A} (r : regex) (s : string) (m : captures)
    (k : string -> string -> captures -> option A) (x : A) :
  rmatch (Seq (lit "RTX") r) s m k = Some x ->
  exists a b c rest,
    s = String a (String b (String c rest))
    /\ eq_icase a "R" = true /\ eq_icase b "T" = true
    /\ eq_icase c "X" = true.
Proof.
  cbn [lit rmatch].
  destruct s as [|a [|b [|c rest]]]; try discriminate.
  - destruct (eq_icase a "R"); discriminate.
  - destruct (eq_icase a "R"); [|discriminate].
    destruct (eq_icase b "T"); discriminate.
  - intros H. exists a, b, c, rest.
    destruct (eq_icase a "R"); [|discriminate].
    destruct (eq_icase b "T"); [|discriminate].
    destruct (eq_icase c "X"); [|discriminate].
    auto.
Qed.

Lemma regex_search_RTX_contains (r : regex) (s : string) (m : captures) :
  no_lower s = true ->
  regex_search (Seq (lit "RTX") r) s = Some m ->
  contains "RTX" s = true.
Proof.
  induction s as [|c0 s IH]; intros Hs H.
  - cbn [regex_search] in H.
    destruct (rmatch (Seq (lit "RTX") r) "" [] (fun _ _ m0 => Some m0))
      as [x|] eqn:E; [|discriminate].
    apply rmatch_RTX_prefix in E as (a & b & c & rest & Hs' & _).
    discriminate.
  - cbn [regex_search] in H.
    destruct (rmatch (Seq (lit "RTX") r) (String c0 s) []
                (fun _ _ m0 => Some m0)) as [x|] eqn:E.
    + apply rmatch_RTX_prefix in E as (a & b & c & rest & Hs' & Ha & Hb & Hc).
      rewrite Hs' in Hs |- *. cbn [no_lower] in Hs.
      apply andb_true_iff in Hs as [Hna Hs]. apply negb_true_iff in Hna.
      apply andb_true_iff in Hs as [Hnb Hs]. apply negb_true_iff in Hnb.
      apply andb_true_iff in Hs as [Hnc _]. apply negb_true_iff in Hnc.
      apply (eq_icase_no_lower a "R" Hna eq_refl) in Ha.
      apply (eq_icase_no_lower b "T" Hnb eq_refl) in Hb.
      apply (eq_icase_no_lower c "X" Hnc eq_refl) in Hc.
      subst a b c. reflexivity.
    + cbn [no_lower] in Hs. apply andb_true_iff in Hs as [_ Hs].
      cbn [contains]. destruct (starts_with "RTX" (String c0 s));
        [reflexivity|]. now apply IH.
Qed.

Lemma parsed_rtx_reaches (gpu_name : string) (p : Z * Z * string) :
  on_allowlist gpu_name = false ->
  parsed_rtx gpu_name = Some p ->
  reaches_rtx_step gpu_name = true.
Proof.
  intros Ha Hp. unfold reaches_rtx_step. rewrite Ha. cbn [negb andb].
  unfold parsed_rtx in Hp.
  destruct (regex_search rtx_pattern (upper gpu_name)) as [m|] eqn:E;
    [|discriminate].
  unfold rtx_pattern in E.
  rewrite (regex_search_RTX_contains _ _ _ (no_lower_upper gpu_name) E).
  apply orb_true_r.
Qed.

End RegexFacts.

(* ================================================================= *)
(** ** Names that carry "RTX 3060 Ti"                                 *)
(* ================================================================= *)

Section NameShapes.
Import CType StdString Cpp Regex Environment NvidiaGPUChecker.

Lemma upper_app (a b : string) : upper (a ++ b) = upper a ++ upper b.
Proof.
  induction a as [|c a IH]; [reflexivity|].
  cbn [append upper transform]. fold (upper (a ++ b)) (upper a).
  now rewrite IH.
Qed.

Lemma no_lower_tail (c : ascii) (s : string) :
  no_lower (String c s) = true -> islower c = false /\ no_lower s = true.
Proof.
  cbn [no_lower]. intros H. apply andb_true_iff in H as [H1 H2].
  now apply negb_true_iff in H1.
Qed.

Lemma contains_false_tail (sub : string) (c : ascii) (s : string) :
  contains sub (String c s) = false ->
  starts_with sub (String c s) = false /\ contains sub s = false.
Proof.
  cbn [contains]. destruct (starts_with sub (String c s)); [discriminate|].
  auto.
Qed.

(** The search passes over a stretch of text in which "RTX" does not
    begin. *)
Lemma regex_search_skip (r : regex) (u s : string) :
  no_lower u = true ->
  contains "RTX" (u ++ "RT") = false ->
  regex_search (Seq (lit "RTX") r) (u ++ String "R" (String "T" s))
  = regex_search (Seq (lit "RTX") r) (String "R" (String "T" s)).
Proof.
  induction u as [|c u IH]; intros Hu Hc; [reflexivity|].
  apply no_lower_tail in Hu as [Hlc Hu].
  cbn [append] in Hc. apply contains_false_tail in Hc as [Hs Hc].
  cbn [append regex_search].
  destruct (rmatch (Seq (lit "RTX") r)
              (String c (u ++ String "R" (String "T" s))) []
              (fun _ _ m0 => Some m0)) as [x|] eqn:E; [|now apply IH].
  exfalso.
  apply rmatch_RTX_prefix in E as (a & b & d & rest & Hshape & Ha & Hb & Hd).
  injection Hshape as <- Hrest.
  apply (eq_icase_no_lower c "R" Hlc eq_refl) in Ha. subst c.
  destruct u as [|u1 u].
  - cbn [append] in Hrest. injection Hrest as <- _. discriminate.
  - apply no_lower_tail in Hu as [Hl1 Hu].
    cbn [append] in Hrest. injection Hrest as <- Hrest.
    apply (eq_icase_no_lower u1 "T" Hl1 eq_refl) in Hb. subst u1.
    destruct u as [|u2 u].
    + cbn [append] in Hrest. injection Hrest as <- _. discriminate.
    + apply no_lower_tail in Hu as [Hl2 Hu].
      cbn [append] in Hrest. injection Hrest as <- _.
      apply (eq_icase_no_lower u2 "X" Hl2 eq_refl) in Hd. subst u2.
      discriminate.
Qed.

Lemma regex_search_3060_ti (mid post : string) :
  In mid rtx_3060_ti_spellings ->
  regex_search rtx_pattern (mid ++ post)
  = Some [(3, "TI"); (2, "60"); (1, "30")].
Proof.
  intros [<-|[<-|[<-|[<-|[]]]]]; reflexivity.
Qed.

(** A name that carries "RTX 3060 Ti" in one of its spellings, in any
    letter case, with no "RTX" beginning before it and no allowlist marker,
    is accepted. *)
Lemma IsGPUMeetsMinimumRequirement_3060_ti (pre mid post : string) :
  In (upper mid) rtx_3060_ti_spellings ->
  contains "RTX" (upper pre ++ "RT") = false ->
  on_allowlist (pre ++ mid ++ post) = false ->
  IsGPUMeetsMinimumRequirement (pre ++ mid ++ post) = Returns true.
Proof.
  intros Hmid Hpre Hallow.
  assert (Hp : parsed_rtx (pre ++ mid ++ post) = Some (30%Z, 60%Z, "TI")).
  { unfold parsed_rtx. rewrite !upper_app.
    assert (Hshape : exists tl, upper mid = String "R" (String "T" tl)).
    { destruct Hmid as [<-|[<-|[<-|[<-|[]]]]]; eexists; reflexivity. }
    destruct Hshape as (tl & Htl).
    assert (Hskip : regex_search rtx_pattern
                      (upper pre ++ upper mid ++ upper post)
                    = regex_search rtx_pattern (upper mid ++ upper post)).
    { rewrite Htl. cbn [append]. unfold rtx_pattern.
      apply regex_search_skip; [apply no_lower_upper|exact Hpre]. }
    rewrite Hskip, (regex_search_3060_ti _ _ Hmid). reflexivity. }
  rewrite (IsGPUMeetsMinimumRequirement_parsed _ _ _ _
             (parsed_rtx_reaches _ _ Hallow Hp) Hp).
  reflexivity.
Qed.

End NameShapes.

(** C8 (as amended): the classification depends on the name alone, and for
    every name: a name that contains an allowlist marker is accepted,
    whatever else it contains; a name without allowlist marker whose first
    RTX match parses as series 30, model 60 is accepted when the parsed
    suffix contains "TI" and rejected when it does not; in particular a name
    without allowlist marker that carries "RTX 3060 Ti" (in any letter case,
    with or without the spaces) before which no "RTX" begins is accepted;
    and a name without allowlist marker whose first RTX match parses as
    series 40 with model<60 is rejected. *)
Theorem IsGPUMeetsMinimumRequirement_name_rules (gpu_name : string) :
  (on_allowlist gpu_name = true ->
   NvidiaGPUChecker.IsGPUMeetsMinimumRequirement gpu_name = Cpp.Returns true)
  /\ (on_allowlist gpu_name = false ->
      forall suffix,
      parsed_rtx gpu_name = Some (30%Z, 60%Z, suffix) ->
      NvidiaGPUChecker.IsGPUMeetsMinimumRequirement gpu_name
      = Cpp.Returns (StdString.contains "TI" suffix))
  /\ (on_allowlist gpu_name = false ->
      forall pre mid post,
      gpu_name = pre ++ mid ++ post ->
      In (upper mid) rtx_3060_ti_spellings ->
      StdString.contains "RTX" (upper pre ++ "RT") = false ->
      NvidiaGPUChecker.IsGPUMeetsMinimumRequirement gpu_name
      = Cpp.Returns true)
  /\ (on_allowlist gpu_name = false ->
      forall model suffix,
      parsed_rtx gpu_name = Some (40%Z, model, suffix) ->
      (model < 60)%Z ->
      NvidiaGPUChecker.IsGPUMeetsMinimumRequirement gpu_name
      = Cpp.Returns false).
Proof.
  split; [|split; [|split]].
  - unfold on_allowlist, upper, NvidiaGPUChecker.IsGPUMeetsMinimumRequirement.
    now intros ->.
  - intros Ha suffix Hp.
    rewrite (IsGPUMeetsMinimumRequirement_parsed _ _ _ _
               (parsed_rtx_reaches _ _ Ha Hp) Hp).
    cbn. now destruct (StdString.contains "TI" suffix).
  - intros Ha pre mid post -> Hmid Hpre.
    now apply IsGPUMeetsMinimumRequirement_3060_ti.
  - intros Ha model suffix Hp Hm.
    rewrite (IsGPUMeetsMinimumRequirement_parsed _ _ _ _
               (parsed_rtx_reaches _ _ Ha Hp) Hp).
    rewrite (rtx_policy_rejects 40 model suffix); [reflexivity|].
    right. split; [reflexivity|exact Hm].
Qed.

Lemma IsGPUMeetsMinimumRequirement_name_rules_witness :
  NvidiaGPUChecker.IsGPUMeetsMinimumRequirement "NVIDIA A100-SXM4-80GB"
  = Cpp.Returns true
  /\ NvidiaGPUChecker.IsGPUMeetsMinimumRequirement "NVIDIA GeForce RTX 3060 Ti"
     = Cpp.Returns true
  /\ NvidiaGPUChecker.IsGPUMeetsMinimumRequirement "NVIDIA GeForce RTX 3060"
     = Cpp.Returns false
  /\ NvidiaGPUChecker.IsGPUMeetsMinimumRequirement
       "NVIDIA GeForce RTX 4050 Laptop GPU"
     = Cpp.Returns false.
Proof.
  split; [|split; [|split]].
  - apply (IsGPUMeetsMinimumRequirement_name_rules "NVIDIA A100-SXM4-80GB").
    reflexivity.
  - apply (IsGPUMeetsMinimumRequirement_name_rules
             "NVIDIA GeForce RTX 3060 Ti")
      with (pre := "NVIDIA GeForce ") (mid := "RTX 3060 Ti") (post := "");
      try reflexivity.
    left. reflexivity.
  - apply (IsGPUMeetsMinimumRequirement_name_rules
             "NVIDIA GeForce RTX 3060") with (suffix := ""); reflexivity.
  - apply (IsGPUMeetsMinimumRequirement_name_rules
             "NVIDIA GeForce RTX 4050 Laptop GPU")
      with (model := 50%Z) (suffix := ""); reflexivity.
Defined.

(** C8, as it is stated, fails on three of its four rules: a name with
    "3060 Ti" but without "RTX" is rejected; a name with "3060", without
    "Ti" and with an allowlist marker is accepted; and a name that matches
    the RTX pattern as a 40-series card with model<60 is accepted when it
    carries an allowlist marker. *)
Lemma IsGPUMeetsMinimumRequirement_name_rules_counterexample :
  (StdString.contains "3060 TI" (upper "NVIDIA GeForce 3060 Ti") = true
   /\ NvidiaGPUChecker.IsGPUMeetsMinimumRequirement "NVIDIA GeForce 3060 Ti"
      = Cpp.Returns false)
  /\ (StdString.contains "3060" (upper "Quadro RTX 3060") = true
      /\ StdString.contains "TI" (upper "Quadro RTX 3060") = false
      /\ NvidiaGPUChecker.IsGPUMeetsMinimumRequirement "Quadro RTX 3060"
         = Cpp.Returns true)
  /\ (parsed_rtx "Quadro RTX 4050" = Some (40%Z, 50%Z, "")
      /\ NvidiaGPUChecker.IsGPUMeetsMinimumRequirement "Quadro RTX 4050"
         = Cpp.Returns true).
Proof.
  repeat split.
Qed.

(* ================================================================= *)
(** ** The classification on sample names                             *)
(* ================================================================= *)

(** The pattern gives the series all digits but the last two, and the
    model the last two. *)
Example parsed_rtx_4070 :
  parsed_rtx "NVIDIA GeForce RTX 4070" = Some (40%Z, 70%Z, "").
Proof. reflexivity. Qed.

Example parsed_rtx_3060ti_compact :
  parsed_rtx "rtx3060ti" = Some (30%Z, 60%Z, "TI").
Proof. reflexivity. Qed.

Example parsed_rtx_first_match :
  parsed_rtx "RTX 2080 + RTX 4090" = Some (20%Z, 80%Z, "").
Proof. reflexivity. Qed.

Example parsed_rtx_two_digits :
  parsed_rtx "GeForce RTX 50" = None.
Proof. reflexivity. Qed.

Example IsGPUMeetsMinimumRequirement_3050 :
  NvidiaGPUChecker.Check
    (NvidiaGPUChecker.mkGPUInfo true "NVIDIA GeForce RTX 3050" false)
  = Cpp.Returns
      (Environment.CreateFailureResult Environment.kNvidiaGPU
         "GPU below minimum requirement: NVIDIA GeForce RTX 3050" 8).
Proof. reflexivity. Qed.

Example IsGPUMeetsMinimumRequirement_gtx :
  NvidiaGPUChecker.IsGPUMeetsMinimumRequirement "NVIDIA GeForce GTX 1660 Ti"
  = Cpp.Returns false.
Proof. reflexivity. Qed.

(** A series that does not fit [int] leaves by the exception of
    [std::stoi]: nothing is returned. *)
Example IsGPUMeetsMinimumRequirement_overflow :
  NvidiaGPUChecker.IsGPUMeetsMinimumRequirement "RTX 99999999999960"
  = Cpp.Throws Cpp.out_of_range.
Proof. reflexivity. Qed.

Example IsGPUMeetsMinimumRequirement_3060_ti_laptop :
  NvidiaGPUChecker.IsGPUMeetsMinimumRequirement
    "NVIDIA GeForce rtx 3060 ti Laptop GPU" = Cpp.Returns true.
Proof.
  apply (IsGPUMeetsMinimumRequirement_3060_ti
           "NVIDIA GeForce " "rtx 3060 ti" " Laptop GPU"); [|reflexivity..].
  left. reflexivity.
Qed.

(* ================================================================= *)
(** ** Trimming and configuration lines in general                    *)
(* ================================================================= *)

Section Trimming.
Import CType StdString Cpp ConfigManager.

Lemma erase_front_skip (chars s : string) :
  erase_front (find_first_not_of chars s) s
  = skip_while (fun c => mem_char c chars) s.
Proof.
  induction s as [|c s IH]; [reflexivity|].
  cbn [find_first_not_of skip_while].
  destruct (mem_char c chars); [|reflexivity].
  rewrite <- IH. now destruct (find_first_not_of chars s).
Qed.

Lemma find_last_not_of_none_empty (chars s : string) (i : nat) :
  find_last_not_of chars s = Some i -> s <> "".
Proof. destruct s; [discriminate|discriminate]. Qed.

Lemma erase_from_rstrip (chars s : string) :
  erase_from (succ_npos (find_last_not_of chars s)) s
  = rstrip (fun c => mem_char c chars) s.
Proof.
  unfold erase_from. induction s as [|c s IH]; [reflexivity|].
  cbn [find_last_not_of rstrip].
  destruct (find_last_not_of chars s) as [i|] eqn:E.
  - destruct s as [|d s']; [discriminate|].
    change (succ_npos (Some i)) with (S i) in IH.
    change (take (succ_npos (Some (S i))) (String c (String d s')))
      with (String c (take (S i) (String d s'))).
    rewrite IH.
    destruct (rstrip (fun c0 => mem_char c0 chars) (String d s')) eqn:R;
      [discriminate IH|reflexivity].
  - change (succ_npos None) with 0 in IH.
    assert (R : rstrip (fun c0 => mem_char c0 chars) s = "").
    { rewrite <- IH. now destruct s. }
    rewrite R. now destruct (mem_char c chars).
Qed.

Lemma trim_strip (s : string) : trim s = strip is_blank s.
Proof.
  unfold trim, strip. now rewrite erase_front_skip, erase_from_rstrip.
Qed.

Lemma skip_while_first (p : ascii -> bool) (s : string) (c : ascii) :
  first_char (skip_while p s) = Some c -> p c = false.
Proof.
  induction s as [|a s IH]; [discriminate|].
  cbn [skip_while]. destruct (p a) eqn:E; [exact IH|].
  now intros [= <-].
Qed.

Lemma rstrip_nonempty_last (p : ascii -> bool) (s : string) (c : ascii) :
  last_char (rstrip p s) = Some c -> p c = false.
Proof.
  induction s as [|a s IH]; [discriminate|].
  cbn [rstrip]. destruct (rstrip p s) as [|b r] eqn:E.
  - destruct (p a) eqn:Ea; [discriminate|]. now intros [= <-].
  - intros H. apply IH. exact H.
Qed.

Lemma rstrip_first (p : ascii -> bool) (s : string) (c : ascii) :
  first_char s = Some c -> p c = false -> first_char (rstrip p s) = Some c.
Proof.
  destruct s as [|a s]; [discriminate|]. intros [= ->] Hc.
  cbn [rstrip]. destruct (rstrip p s); [now rewrite Hc|reflexivity].
Qed.

Lemma rstrip_fixed (p : ascii -> bool) (s : string) :
  (forall c, last_char s = Some c -> p c = false) -> rstrip p s = s.
Proof.
  induction s as [|a s IH]; [reflexivity|]. intros H.
  cbn [rstrip]. destruct s as [|b s'].
  - cbn [rstrip]. now rewrite (H a eq_refl).
  - rewrite IH by (intros c Hc; apply H; exact Hc).
    reflexivity.
Qed.

Lemma skip_while_fixed (p : ascii -> bool) (s : string) :
  (forall c, first_char s = Some c -> p c = false) -> skip_while p s = s.
Proof.
  destruct s as [|a s]; [reflexivity|]. intros H.
  cbn [skip_while]. now rewrite (H a eq_refl).
Qed.

Lemma strip_ends (p : ascii -> bool) (s : string) :
  (forall c, first_char (strip p s) = Some c -> p c = false)
  /\ (forall c, last_char (strip p s) = Some c -> p c = false).
Proof.
  unfold strip. split.
  - intros c Hc. destruct (skip_while p s) as [|a r] eqn:E; [discriminate|].
    assert (Ha : p a = false) by (apply (skip_while_first p s); now rewrite E).
    rewrite (rstrip_first p (String a r) a eq_refl Ha) in Hc.
    now injection Hc as <-.
  - intros c. apply rstrip_nonempty_last.
Qed.

Lemma strip_idempotent (p : ascii -> bool) (s : string) :
  strip p (strip p s) = strip p s.
Proof.
  destruct (strip_ends p s) as [Hf Hl].
  unfold strip at 1. rewrite (skip_while_fixed p _ Hf).
  apply rstrip_fixed, Hl.
Qed.

End Trimming.

Lemma no_outer_blanks_trim (s : string) :
  ConfigManager.no_outer_blanks (ConfigManager.trim s) = true.
Proof.
  rewrite trim_strip. unfold ConfigManager.no_outer_blanks.
  destruct (strip_ends ConfigManager.is_blank s) as [Hf Hl].
  destruct (StdString.first_char (strip ConfigManager.is_blank s)) as [a|];
    [|reflexivity].
  destruct (StdString.last_char (strip ConfigManager.is_blank s)) as [b|];
    [|reflexivity].
  now rewrite (Hf a eq_refl), (Hl b eq_refl).
Qed.

(** X1: the trimming of [ParseKeyValue] leaves no space or tab at either
    end of a string, and trimming a second time changes nothing. *)
Theorem trim_no_outer_blanks_idempotent (s : string) :
  ConfigManager.no_outer_blanks (ConfigManager.trim s) = true
  /\ ConfigManager.trim (ConfigManager.trim s) = ConfigManager.trim s.
Proof.
  split; [apply no_outer_blanks_trim|].
  rewrite !trim_strip. apply strip_idempotent.
Qed.

Section ParsedLines.
Import CType StdString Cpp ConfigManager.

Lemma find_char_take (c : ascii) (s : string) (pos : nat) :
  find_char c s = Some pos -> find_char c (take pos s) = None.
Proof.
  revert pos. induction s as [|a s IH]; intros pos; [discriminate|].
  cbn [find_char]. destruct (Ascii.eqb a c) eqn:E.
  - intros [= <-]. reflexivity.
  - destruct (find_char c s) as [i|]; [|discriminate].
    intros [= <-]. cbn [take find_char]. rewrite E.
    now rewrite (IH i eq_refl).
Qed.

Lemma find_char_skip_while (p : ascii -> bool) (c : ascii) (s : string) :
  find_char c s = None -> find_char c (skip_while p s) = None.
Proof.
  induction s as [|a s IH]; [reflexivity|].
  cbn [find_char skip_while]. destruct (Ascii.eqb a c) eqn:E; [discriminate|].
  destruct (find_char c s) eqn:F; [discriminate|]. intros _.
  destruct (p a); [now apply IH|]. cbn [find_char]. now rewrite E, F.
Qed.

Lemma find_char_rstrip (p : ascii -> bool) (c : ascii) (s : string) :
  find_char c s = None -> find_char c (rstrip p s) = None.
Proof.
  induction s as [|a s IH]; [reflexivity|].
  cbn [find_char rstrip]. destruct (Ascii.eqb a c) eqn:E; [discriminate|].
  destruct (find_char c s) eqn:F; [discriminate|]. intros _.
  specialize (IH eq_refl).
  destruct (rstrip p s) as [|b r].
  - destruct (p a); [reflexivity|]. cbn [find_char]. now rewrite E.
  - cbn [find_char] in *. rewrite E.
    destruct (Ascii.eqb b c); [discriminate|].
    now destruct (find_char c r).
Qed.

Lemma find_char_trim (c : ascii) (s : string) :
  find_char c s = None -> find_char c (trim s) = None.
Proof.
  intros H. rewrite trim_strip. unfold strip.
  now apply find_char_rstrip, find_char_skip_while.
Qed.

Lemma is_blank_cases (c : ascii) :
  c <> " "%char -> c <> TAB -> is_blank c = false.
Proof.
  intros H1 H2. unfold is_blank, blanks. cbn [mem_char].
  destruct (Ascii.eqb_spec " " c) as [E|_]; [now elim H1|].
  destruct (Ascii.eqb_spec TAB c) as [E|_]; [now elim H2|].
  reflexivity.
Qed.

Lemma escape_char_first (c : ascii) :
  c <> " "%char ->
  exists a r, escape_char c = String a r /\ is_blank a = false.
Proof.
  intros Hc.
  destruct (escape_char_cases c) as [(x & -> & _ & _)|(-> & _ & Ht)].
  - exists BACKSLASH, (String x ""). split; reflexivity.
  - exists c, "". split; [reflexivity|]. now apply is_blank_cases.
Qed.

Lemma skip_blank_EscapeValue (v : string) :
  skip_while is_blank (EscapeValue v) = EscapeValue (skip_while is_space v).
Proof.
  induction v as [|c v IH]; [reflexivity|].
  cbn [EscapeValue skip_while]. unfold is_space at 1.
  destruct (Ascii.eqb_spec c " ") as [->|Hc].
  - cbn [escape_char append skip_while]. exact IH.
  - destruct (escape_char_first c Hc) as (a & r & E & Ha).
    cbn [EscapeValue]. rewrite E. cbn [append skip_while]. now rewrite Ha.
Qed.

Lemma EscapeValue_nonempty (v : string) :
  v <> "" -> EscapeValue v <> "".
Proof.
  intros Hv E. now apply EscapeValue_empty in E.
Qed.

Lemma rstrip_blank_EscapeValue (w : string) :
  rstrip is_blank (EscapeValue w) = EscapeValue (rstrip is_space w).
Proof.
  induction w as [|c w IH]; [reflexivity|].
  cbn [EscapeValue rstrip].
  destruct (Ascii.eqb_spec c " ") as [->|Hc].
  - change (escape_char " ") with " ". cbn [append rstrip]. rewrite IH.
    change (is_space " ") with true. change (is_blank " ") with true.
    destruct (rstrip is_space w) as [|b r] eqn:R; [reflexivity|].
    destruct (EscapeValue (String b r)) eqn:E.
    + now apply EscapeValue_empty in E.
    + change (EscapeValue (String " " (String b r)))
        with (String " " (EscapeValue (String b r))).
      now rewrite E.
  - assert (Hs : is_space c = false).
    { unfold is_space. now destruct (Ascii.eqb_spec c " "). }
    assert (Hr : (match rstrip is_space w with
                  | "" => if is_space c then "" else String c ""
                  | String a s => String c (String a s)
                  end) = String c (rstrip is_space w)).
    { rewrite Hs. now destruct (rstrip is_space w). }
    rewrite Hr. cbn [EscapeValue]. rewrite <- IH.
    destruct (escape_char_cases c) as [(x & -> & _ & Hx)|(-> & _ & Ht)].
    + cbn [append rstrip].
      destruct (rstrip is_blank (EscapeValue w)); [now rewrite Hx|reflexivity].
    + cbn [append rstrip].
      destruct (rstrip is_blank (EscapeValue w));
        [now rewrite (is_blank_cases c Hc Ht)|reflexivity].
Qed.

Lemma trim_EscapeValue (v : string) :
  trim (EscapeValue v) = EscapeValue (strip_spaces v).
Proof.
  rewrite trim_strip. unfold strip_spaces, strip.
  now rewrite skip_blank_EscapeValue, rstrip_blank_EscapeValue.
Qed.

Lemma drop_succ_app (key rest : string) (c : ascii) :
  drop (S (String.length key)) (key ++ String c rest) = rest.
Proof. induction key as [|a k IH]; simpl; auto. Qed.

(** The line [key=EscapeValue(value)] parses to the key and the value
    without its outer spaces. *)
Lemma ParseKeyValue_saved_line (key value : string) :
  find_char "=" key = None ->
  no_outer_blanks key = true ->
  ParseKeyValue (key ++ "=" ++ EscapeValue value)
  = Some (key, strip_spaces value).
Proof.
  intros Hk Hb. unfold ParseKeyValue.
  change ("=" ++ EscapeValue value) with (String "=" (EscapeValue value)).
  rewrite (find_char_app_fresh _ _ _ Hk), take_app_length.
  replace (String.length key + 1) with (S (String.length key)) by lia.
  rewrite drop_succ_app, (trim_no_outer_blanks _ Hb), trim_EscapeValue.
  now rewrite unescape_EscapeValue.
Qed.

Lemma find_char_app_none (c : ascii) (a b : string) :
  find_char c a = None -> find_char c b = None ->
  find_char c (a ++ b) = None.
Proof.
  intros Ha Hb. induction a as [|x a IH]; [exact Hb|].
  cbn [append find_char] in *. destruct (Ascii.eqb x c); [discriminate|].
  destruct (find_char c a); [discriminate|]. now rewrite IH.
Qed.

Lemma escape_char_no_control (c : ascii) :
  find_char LF (escape_char c) = None
  /\ find_char CR (escape_char c) = None
  /\ find_char TAB (escape_char c) = None.
Proof.
  destruct c as [[] [] [] [] [] [] [] []]; repeat split.
Qed.

End ParsedLines.

(** X2: [ParseKeyValue] fails exactly on the lines that have no '='; a key
    it returns contains no '=' and has no space or tab at either end. *)
Theorem ParseKeyValue_key_shape (line : string) :
  (ConfigManager.ParseKeyValue line = None
   <-> StdString.find_char "=" line = None)
  /\ (forall key value,
        ConfigManager.ParseKeyValue line = Some (key, value) ->
        StdString.find_char "=" key = None
        /\ ConfigManager.no_outer_blanks key = true).
Proof.
  unfold ConfigManager.ParseKeyValue.
  destruct (StdString.find_char "=" line) as [pos|] eqn:E.
  - split; [split; discriminate|].
    intros key value [= <- _]. split.
    + apply find_char_trim, find_char_take, E.
    + apply no_outer_blanks_trim.
  - split; [split; reflexivity|discriminate].
Qed.

Lemma ParseKeyValue_key_shape_witness :
  StdString.find_char "=" "proxy_url" = None
  /\ ConfigManager.no_outer_blanks "proxy_url" = true.
Proof.
  destruct (ParseKeyValue_key_shape "  proxy_url = http://h:1/?a=b ")
    as [_ H].
  apply (H "proxy_url" "http://h:1/?a=b"). reflexivity.
Defined.

(** X3: for every value, with spaces and tabs anywhere, the line
    [key=EscapeValue(value)] parses back to the key and to the value without
    its leading and trailing spaces: tabs, also at the ends, line feeds,
    quotes, backslashes and '=' all survive. *)
Theorem ParseKeyValue_EscapeValue_any_value (key value : string) :
  StdString.find_char "=" key = None ->
  ConfigManager.no_outer_blanks key = true ->
  ConfigManager.ParseKeyValue (key ++ "=" ++ ConfigManager.EscapeValue value)
  = Some (key, strip_spaces value).
Proof. apply ParseKeyValue_saved_line. Qed.

Lemma ParseKeyValue_EscapeValue_any_value_witness :
  ConfigManager.ParseKeyValue
    ("k" ++ "=" ++ ConfigManager.EscapeValue
                      (" " ++ String CType.TAB "a=b" ++ String CType.LF " "))
  = Some ("k", String CType.TAB "a=b" ++ String CType.LF "").
Proof.
  apply (ParseKeyValue_EscapeValue_any_value "k"
           (" " ++ String CType.TAB "a=b" ++ String CType.LF " "));
    reflexivity.
Defined.

Lemma EscapeValue_no_control (value : string) :
  StdString.find_char CType.LF (ConfigManager.EscapeValue value) = None
  /\ StdString.find_char CType.CR (ConfigManager.EscapeValue value) = None
  /\ StdString.find_char CType.TAB (ConfigManager.EscapeValue value) = None.
Proof.
  induction value as [|c v (IH1 & IH2 & IH3)]; [repeat split|].
  cbn [ConfigManager.EscapeValue].
  destruct (escape_char_no_control c) as (H1 & H2 & H3).
  repeat split; now apply find_char_app_none.
Qed.

(** X4: an escaped value holds no raw line feed, carriage return or tab, so
    that a saved value never spills over its line. *)
Theorem EscapeValue_single_line (value : string) :
  StdString.find_char CType.LF (ConfigManager.EscapeValue value) = None
  /\ StdString.find_char CType.CR (ConfigManager.EscapeValue value) = None
  /\ StdString.find_char CType.TAB (ConfigManager.EscapeValue value) = None.
Proof. apply EscapeValue_no_control. Qed.

(* ================================================================= *)
(** ** The configuration store                                        *)
(* ================================================================= *)

Section StoreFacts.
Import CType StdString ConfigManager ConfigStore.

Lemma ascii_compare_refl (a : ascii) : Ascii.compare a a = Eq.
Proof. unfold Ascii.compare. apply N.compare_refl. Qed.

Lemma string_compare_refl (s : string) : String.compare s s = Eq.
Proof.
  induction s as [|a s IH]; [reflexivity|].
  cbn [String.compare]. now rewrite ascii_compare_refl.
Qed.

Lemma string_compare_neq (a b : string) :
  String.compare a b <> Eq -> String.eqb a b = false.
Proof.
  intros H. destruct (String.eqb_spec a b) as [->|]; [|reflexivity].
  now elim H; apply string_compare_refl.
Qed.

Lemma find_assign_same (k v : string) (m : StdMap.t) :
  StdMap.find k (StdMap.assign k v m) = Some v.
Proof.
  induction m as [|[k' v'] m IH].
  - cbn. now rewrite String.eqb_refl.
  - cbn [StdMap.assign]. destruct (String.compare k k') eqn:E.
    + cbn [StdMap.find]. now rewrite String.eqb_refl.
    + cbn [StdMap.find]. now rewrite String.eqb_refl.
    + cbn [StdMap.find]. rewrite string_compare_neq by congruence.
      exact IH.
Qed.

Lemma find_assign_other (k k' v : string) (m : StdMap.t) :
  k <> k' -> StdMap.find k (StdMap.assign k' v m) = StdMap.find k m.
Proof.
  intros Hk. apply String.eqb_neq in Hk.
  induction m as [|[k0 v0] m IH].
  - cbn. now rewrite Hk.
  - cbn [StdMap.assign]. destruct (String.compare k' k0) eqn:E.
    + apply String.compare_eq_iff in E. subst k0.
      cbn [StdMap.find]. now rewrite Hk.
    + cbn [StdMap.find]. now rewrite Hk.
    + cbn [StdMap.find]. now rewrite IH.
Qed.

Lemma find_touch (k k' : string) (m : StdMap.t) :
  StdMap.find k (StdMap.touch k' m)
  = if String.eqb k k' then Some (StdMap.at_ k' m) else StdMap.find k m.
Proof.
  unfold StdMap.touch, StdMap.at_.
  destruct (String.eqb_spec k k') as [->|Hk].
  - destruct (StdMap.find k' m) eqn:E; [exact E|apply find_assign_same].
  - destruct (StdMap.find k' m); [reflexivity|].
    now apply find_assign_other.
Qed.

Lemma at_touch (k k' : string) (m : StdMap.t) :
  StdMap.at_ k (StdMap.touch k' m) = StdMap.at_ k m.
Proof.
  unfold StdMap.at_ at 1. rewrite find_touch.
  destruct (String.eqb_spec k k') as [->|]; reflexivity.
Qed.

Lemma at_assign_same (k v : string) (m : StdMap.t) :
  StdMap.at_ k (StdMap.assign k v m) = v.
Proof. unfold StdMap.at_. now rewrite find_assign_same. Qed.

Lemma at_assign_other (k k' v : string) (m : StdMap.t) :
  k <> k' -> StdMap.at_ k (StdMap.assign k' v m) = StdMap.at_ k m.
Proof. intros H. unfold StdMap.at_. now rewrite find_assign_other. Qed.

End StoreFacts.

(** X5: after [SetConfigValue(key, value)], [GetConfigValue(key, _)] is
    [value] and [HasConfigValue(key)] holds, and every other key reads as
    before. *)
Theorem SetConfigValue_GetConfigValue
    (st : ConfigStore.State) (key value : string) :
  (forall default_value,
     ConfigStore.GetConfigValue (ConfigStore.SetConfigValue key value st)
       key default_value = value)
  /\ ConfigStore.HasConfigValue (ConfigStore.SetConfigValue key value st) key
     = true
  /\ (forall other default_value,
        other <> key ->
        ConfigStore.GetConfigValue (ConfigStore.SetConfigValue key value st)
          other default_value
        = ConfigStore.GetConfigValue st other default_value
        /\ ConfigStore.HasConfigValue
             (ConfigStore.SetConfigValue key value st) other
           = ConfigStore.HasConfigValue st other).
Proof.
  unfold ConfigStore.GetConfigValue, ConfigStore.HasConfigValue,
    ConfigStore.SetConfigValue. cbn [ConfigStore.config_values_].
  split; [|split].
  - intros d. now rewrite find_assign_same.
  - now rewrite find_assign_same.
  - intros other d H. now rewrite (find_assign_other _ _ _ _ H).
Qed.

Lemma SetConfigValue_GetConfigValue_witness :
  ConfigStore.GetConfigValue
    (ConfigStore.SetConfigValue "proxy_url" "http://127.0.0.1:7890"
       (ConfigStore.mkState (ConfigStore.InitDefaultConfig []) "cfg.txt"))
    "wsl_linux_distro" ""
  = "Ubuntu-24.04".
Proof.
  destruct (SetConfigValue_GetConfigValue
              (ConfigStore.mkState (ConfigStore.InitDefaultConfig [])
                 "cfg.txt")
              "proxy_url" "http://127.0.0.1:7890") as (_ & _ & H).
  destruct (H "wsl_linux_distro" "") as [E _]; [discriminate|].
  rewrite E. reflexivity.
Defined.

Section LoadSave.
Import CType StdString ConfigManager ConfigStore.

Lemma string_app_assoc (a b c : string) : (a ++ b) ++ c = a ++ b ++ c.
Proof. induction a as [|x a IH]; simpl; congruence. Qed.

Lemma getlines_line (l rest : string) :
  find_char LF l = None -> find_char SUB l = None ->
  getlines (l ++ String LF rest) = l :: getlines rest.
Proof.
  induction l as [|c l IH]; intros H Hs.
  - cbn [append getlines]. change (Ascii.eqb LF SUB) with false.
    now rewrite Ascii.eqb_refl.
  - cbn [find_char] in H, Hs.
    destruct (Ascii.eqb c LF) eqn:E; [discriminate|].
    destruct (Ascii.eqb c SUB) eqn:E'; [discriminate|].
    destruct (find_char LF l); [discriminate|].
    destruct (find_char SUB l); [discriminate|].
    cbn [append getlines]. rewrite E, E', (IH eq_refl eq_refl). reflexivity.
Qed.

Lemma escape_char_reads_through (c : ascii) :
  Ascii.eqb c SUB = false -> find_char SUB (escape_char c) = None.
Proof.
  destruct c as [[] [] [] [] [] [] [] []]; vm_compute; congruence.
Qed.

Lemma EscapeValue_reads_through (v : string) :
  find_char SUB v = None -> find_char SUB (EscapeValue v) = None.
Proof.
  induction v as [|c v IH]; [reflexivity|].
  cbn [find_char EscapeValue]. intros H.
  destruct (Ascii.eqb c SUB) eqn:E; [discriminate|].
  destruct (find_char SUB v); [discriminate|].
  apply find_char_app_none; [now apply escape_char_reads_through|now apply IH].
Qed.

Lemma concat_cons (x : string) (xs : list string) :
  String.concat "" (x :: xs) = x ++ String.concat "" xs.
Proof.
  destruct xs as [|y ys]; [cbn; now rewrite append_empty_r|reflexivity].
Qed.

Lemma getlines_bindings (m : StdMap.t) :
  Forall (fun kv => find_char LF (fst kv) = None
                    /\ find_char SUB (fst kv) = None
                    /\ find_char SUB (snd kv) = None) m ->
  getlines
    (String.concat ""
       (map (fun kv => fst kv ++ "=" ++ EscapeValue (snd kv) ++ String LF "")
          m))
  = map saved_line m.
Proof.
  induction 1 as [|[k v] m (Hk & Hks & Hvs) _ IH]; [reflexivity|].
  cbn [map]. rewrite concat_cons. cbn [fst snd] in *.
  replace ((k ++ "=" ++ EscapeValue v ++ String LF "") ++
           String.concat ""
             (map (fun kv => fst kv ++ "=" ++ EscapeValue (snd kv)
                               ++ String LF "") m))
    with ((k ++ "=" ++ EscapeValue v) ++
          String LF (String.concat ""
             (map (fun kv => fst kv ++ "=" ++ EscapeValue (snd kv)
                               ++ String LF "") m))).
  2:{ rewrite !string_app_assoc. reflexivity. }
  rewrite getlines_line, IH; [reflexivity| |].
  - apply find_char_app_none; [exact Hk|].
    change ("=" ++ EscapeValue v) with (String "=" (EscapeValue v)).
    cbn [find_char]. change (Ascii.eqb "=" LF) with false.
    now rewrite (proj1 (EscapeValue_no_control v)).
  - apply find_char_app_none; [exact Hks|].
    change ("=" ++ EscapeValue v) with (String "=" (EscapeValue v)).
    cbn [find_char]. change (Ascii.eqb "=" SUB) with false.
    now rewrite (EscapeValue_reads_through v Hvs).
Qed.

Lemma getlines_save_text (m : StdMap.t) :
  Forall (fun kv => find_char LF (fst kv) = None
                    /\ find_char SUB (fst kv) = None
                    /\ find_char SUB (snd kv) = None) m ->
  getlines (save_text m)
  = "# Parallax Configuration File"
    :: "# Generated automatically, do not edit manually"
    :: "" :: map saved_line m.
Proof.
  intros H.
  assert (E : save_text m
              = "# Parallax Configuration File"
                ++ String LF
                     ("# Generated automatically, do not edit manually"
                      ++ String LF
                           ("" ++ String LF
                              (String.concat ""
                                 (map (fun kv => fst kv ++ "="
                                         ++ EscapeValue (snd kv)
                                         ++ String LF "") m)))))
    by reflexivity.
  rewrite E.
  rewrite (getlines_line "# Parallax Configuration File")
    by reflexivity.
  rewrite (getlines_line "# Generated automatically, do not edit manually")
    by reflexivity.
  rewrite (getlines_line "") by reflexivity.
  now rewrite getlines_bindings.
Qed.

End LoadSave.

Section LoadFacts.
Import CType StdString ConfigManager ConfigStore.

Lemma reads_through_spec (s : string) :
  reads_through s = true -> find_char SUB s = None.
Proof. unfold reads_through. now destruct (find_char SUB s). Qed.

Lemma storable_key_facts (k : string) :
  storable_key k = true ->
  find_char "=" k = None /\ find_char LF k = None
  /\ no_outer_blanks k = true
  /\ (forall c r, k = String c r -> c <> "#"%char).
Proof.
  unfold storable_key.
  destruct (find_char "=" k); [discriminate|].
  destruct (find_char LF k); [discriminate|].
  intros H. apply andb_true_iff in H as [H _].
  apply andb_true_iff in H as [H1 H2].
  repeat split; auto.
  intros c r ->. apply negb_true_iff in H2.
  now destruct (Ascii.eqb_spec c "#").
Qed.

Lemma storable_key_reads_through (k : string) :
  storable_key k = true -> find_char SUB k = None.
Proof.
  unfold storable_key.
  destruct (find_char "=" k); [discriminate|].
  destruct (find_char LF k); [discriminate|].
  intros H. apply andb_true_iff in H as [_ H].
  now apply reads_through_spec.
Qed.

Lemma load_line_saved (m : StdMap.t) (k v : string) :
  storable_key k = true -> storable_value v = true ->
  load_line m (saved_line (k, v)) = StdMap.assign k v m.
Proof.
  intros Hk Hv. apply storable_key_facts in Hk as (He & _ & Hb & Hh).
  unfold storable_value in Hv. apply andb_true_iff in Hv as [Hv _].
  apply String.eqb_eq in Hv.
  unfold load_line, saved_line. cbn [fst snd].
  rewrite (ParseKeyValue_saved_line k v He Hb), Hv.
  destruct k as [|c r]; [reflexivity|].
  cbn [append]. specialize (Hh c r eq_refl).
  now destruct (Ascii.eqb_spec c "#").
Qed.

Lemma fold_load_saved (bs : StdMap.t) (m : StdMap.t) :
  Forall (fun kv => storable_key (fst kv) = true
                    /\ storable_value (snd kv) = true) bs ->
  fold_left load_line (map saved_line bs) m
  = fold_left (fun acc kv => StdMap.assign (fst kv) (snd kv) acc) bs m.
Proof.
  intros H. revert m. induction H as [|[k v] bs [Hk Hv] _ IH]; intros m;
    [reflexivity|].
  cbn [map fold_left fst snd] in *. now rewrite load_line_saved, IH.
Qed.

Lemma find_fold_assign (bs : StdMap.t) (m : StdMap.t) (k : string) :
  NoDup (map fst bs) ->
  StdMap.find k
    (fold_left (fun acc kv => StdMap.assign (fst kv) (snd kv) acc) bs m)
  = match StdMap.find k bs with
    | Some v => Some v
    | None => StdMap.find k m
    end.
Proof.
  revert m. induction bs as [|[k1 v1] bs IH]; intros m Hnd; [reflexivity|].
  cbn [map fst] in Hnd. inversion Hnd as [|? ? Hnotin Hnd']. subst.
  cbn [fold_left fst snd StdMap.find]. rewrite (IH _ Hnd').
  destruct (String.eqb_spec k k1) as [->|Hk].
  - assert (Hnone : StdMap.find k1 bs = None).
    { clear -Hnotin. induction bs as [|[a b] bs IH]; [reflexivity|].
      cbn [StdMap.find]. cbn [map fst] in Hnotin.
      destruct (String.eqb_spec k1 a) as [->|_].
      - elim Hnotin. now left.
      - apply IH. intros H. apply Hnotin. now right. }
    rewrite Hnone. apply find_assign_same.
  - rewrite (find_assign_other _ _ _ _ Hk). reflexivity.
Qed.

Lemma at_protect_other (m : StdMap.t) (k k' d : string) :
  k <> k' ->
  StdMap.at_ k (protect_builtin m (k', d)) = StdMap.at_ k m.
Proof.
  intros H. unfold protect_builtin.
  destruct (empty (StdMap.at_ k' m)).
  - now rewrite (at_assign_other _ _ d _ H), at_touch.
  - apply at_touch.
Qed.

Lemma at_protect_same (m : StdMap.t) (k d : string) :
  StdMap.at_ k (protect_builtin m (k, d))
  = if empty (StdMap.at_ k m) then d else StdMap.at_ k m.
Proof.
  unfold protect_builtin. destruct (empty (StdMap.at_ k m)).
  - apply at_assign_same.
  - apply at_touch.
Qed.

Lemma at_fold_protect_other (bs : list (string * string)) (m : StdMap.t)
    (k : string) :
  ~ In k (map fst bs) ->
  StdMap.at_ k (fold_left protect_builtin bs m) = StdMap.at_ k m.
Proof.
  revert m. induction bs as [|[k' d] bs IH]; intros m H; [reflexivity|].
  cbn [fold_left]. cbn [map fst] in H.
  rewrite IH by (intros X; apply H; now right).
  apply at_protect_other. intros ->. apply H. now left.
Qed.

Lemma at_fold_protect_nonempty (bs : list (string * string)) (m : StdMap.t)
    (k d : string) :
  NoDup (map fst bs) ->
  In (k, d) bs -> d <> "" ->
  StdMap.at_ k (fold_left protect_builtin bs m) <> "".
Proof.
  revert m. induction bs as [|[k' d'] bs IH]; intros m Hnd Hin Hd; [easy|].
  cbn [map fst] in Hnd. inversion Hnd as [|? ? Hnotin Hnd']. subst.
  cbn [fold_left]. destruct Hin as [[= -> ->]|Hin].
  - rewrite (at_fold_protect_other _ _ _ Hnotin), at_protect_same.
    destruct (StdMap.at_ k m) eqn:E; [exact Hd|discriminate].
  - now apply IH.
Qed.

Lemma find_fold_protect_kept (bs : list (string * string)) (m : StdMap.t) :
  (forall k d, In (k, d) bs ->
     exists v, StdMap.find k m = Some v /\ v <> "") ->
  fold_left protect_builtin bs m = m.
Proof.
  induction bs as [|[k d] bs IH]; intros H; [reflexivity|].
  cbn [fold_left].
  assert (E : protect_builtin m (k, d) = m).
  { destruct (H k d (or_introl eq_refl)) as (v & Hv & Hne).
    unfold protect_builtin, StdMap.at_, StdMap.touch. rewrite Hv.
    destruct v; [now elim Hne|reflexivity]. }
  rewrite E. apply IH. intros k' d' Hin. apply (H k' d'). now right.
Qed.

Lemma touch_present (k : string) (m : StdMap.t) (v : string) :
  StdMap.find k m = Some v -> StdMap.touch k m = m.
Proof. unfold StdMap.touch. now intros ->. Qed.

Lemma init_touched :
  fold_left (fun m key => StdMap.touch key m)
    [KEY_WSL_LINUX_DISTRO; KEY_WSL_INSTALLER_URL; KEY_WSL_KERNEL_URL;
     KEY_PRAKASA_GIT_REPO_URL] (InitDefaultConfig [])
  = InitDefaultConfig [].
Proof. reflexivity. Qed.

Lemma find_init_builtin (k v : string) :
  StdMap.find k (InitDefaultConfig []) = Some v -> In k builtin_keys.
Proof.
  change (InitDefaultConfig [])
    with [(KEY_PRAKASA_GIT_REPO_URL,
           "https://github.com/hetu-project/prakasa.git");
          (KEY_WSL_INSTALLER_URL,
           "https://github.com/microsoft/WSL/releases/download/2.4.13/wsl.2.4.13.0.x64.msi");
          (KEY_WSL_KERNEL_URL,
           "https://wslstorestorage.blob.core.windows.net/wslblob/wsl_update_x64.msi");
          (KEY_WSL_LINUX_DISTRO, "Ubuntu-24.04")].
  cbn [StdMap.find]. unfold builtin_keys.
  destruct (String.eqb_spec k KEY_PRAKASA_GIT_REPO_URL) as [->|_];
    [intros _; now left|].
  destruct (String.eqb_spec k KEY_WSL_INSTALLER_URL) as [->|_];
    [intros _; right; now left|].
  destruct (String.eqb_spec k KEY_WSL_KERNEL_URL) as [->|_];
    [intros _; right; right; now left|].
  destruct (String.eqb_spec k KEY_WSL_LINUX_DISTRO) as [->|_];
    [intros _; right; right; right; now left|discriminate].
Qed.

(** What a built-in item reads after a file has been loaded over the
    defaults: never the empty string. *)
Lemma load_text_builtin (text : string) (k : string) :
  In k builtin_keys ->
  StdMap.at_ k (load_text text (InitDefaultConfig [])) <> "".
Proof.
  intros Hk. unfold load_text. rewrite init_touched.
  apply at_fold_protect_nonempty
    with (d := StdMap.at_ k (InitDefaultConfig [])).
  - cbn. repeat constructor; cbn; intuition discriminate.
  - apply (in_map (fun key => (key, StdMap.at_ key (InitDefaultConfig []))))
      in Hk. exact Hk.
  - destruct Hk as [<-|[<-|[<-|[<-|[]]]]]; discriminate.
Qed.

(** Loading the text saved for a storable map over the defaults gives the
    map back. *)
Lemma load_save_text (m : StdMap.t) (k : string) :
  storable m ->
  (forall b, In b builtin_keys -> StdMap.at_ b m <> "") ->
  StdMap.find k (load_text (save_text m) (InitDefaultConfig []))
  = StdMap.find k m.
Proof.
  intros [Hnd Hst] Hb. unfold load_text. rewrite init_touched.
  assert (Hlf : Forall (fun kv => find_char LF (fst kv) = None
                                  /\ find_char SUB (fst kv) = None
                                  /\ find_char SUB (snd kv) = None) m).
  { eapply Forall_impl; [|exact Hst]. intros kv [Hk Hv].
    split; [now apply storable_key_facts in Hk|].
    split; [now apply storable_key_reads_through|].
    unfold storable_value in Hv. apply andb_true_iff in Hv as [_ Hv].
    now apply reads_through_spec. }
  rewrite (getlines_save_text m Hlf).
  cbn [fold_left load_line]. change (Ascii.eqb "#" "#") with true. cbv iota.
  rewrite (fold_load_saved m _ Hst).
  assert (Hfind : forall x,
            StdMap.find x
              (fold_left (fun acc kv => StdMap.assign (fst kv) (snd kv) acc)
                 m (InitDefaultConfig []))
            = StdMap.find x m).
  { intros x. rewrite (find_fold_assign m _ x Hnd).
    destruct (StdMap.find x m) as [v|] eqn:E; [reflexivity|].
    destruct (StdMap.find x (InitDefaultConfig [])) as [d|] eqn:D;
      [|reflexivity].
    apply find_init_builtin in D. apply Hb in D.
    unfold StdMap.at_ in D. rewrite E in D. now elim D. }
  rewrite find_fold_protect_kept; [apply Hfind|].
  intros b d Hin. apply in_map_iff in Hin as (b' & [= <- _] & Hin).
  specialize (Hb b' Hin). rewrite Hfind. unfold StdMap.at_ in Hb.
  destruct (StdMap.find b' m) as [v|]; [|now elim Hb].
  now exists v.
Qed.

End LoadFacts.

(** X6: after [LoadConfig], whatever the file holds and whether or not
    it can be opened or created, none of the four built-in items
    (distribution, installer URL, kernel URL, repository URL) reads as the
    empty string. *)
Theorem LoadConfig_builtin_never_empty
    (can_write : string -> bool) (config_path : string)
    (st : ConfigStore.State) (files : ConfigStore.Files) (key : string) :
  In key ConfigStore.builtin_keys ->
  ConfigStore.GetConfigValue
    (snd (fst (ConfigStore.LoadConfig can_write config_path st files)))
    key "" <> "".
Proof.
  intros Hk. unfold ConfigStore.LoadConfig, ConfigStore.LoadConfigInternal.
  set (path := if StdString.empty config_path
               then ConfigStore.config_path_ st else config_path).
  assert (Hdefault : forall p,
            ConfigStore.GetConfigValue
              (ConfigStore.mkState (ConfigStore.InitDefaultConfig []) p)
              key "" <> "").
  { intros p. destruct Hk as [<-|[<-|[<-|[<-|[]]]]]; discriminate. }
  destruct (files path) as [text|].
  - assert (Hload : forall p,
              ConfigStore.GetConfigValue
                (ConfigStore.mkState
                   (ConfigStore.load_text text
                      (ConfigStore.InitDefaultConfig [])) p) key "" <> "").
    { intros p. apply (load_text_builtin text key Hk). }
    cbn [ConfigStore.config_values_ ConfigStore.config_path_].
    destruct (negb (StdString.empty config_path)); cbn [fst snd];
      apply Hload.
  - unfold ConfigStore.SaveConfig.
    cbn [ConfigStore.config_values_ ConfigStore.config_path_].
    destruct (negb (can_write _)); [|destruct (negb (StdString.empty path))];
      destruct (negb (StdString.empty config_path)); cbn [fst snd];
        apply Hdefault.
Qed.

Lemma LoadConfig_builtin_never_empty_witness :
  ConfigStore.GetConfigValue
    (snd (fst (ConfigStore.LoadConfig (fun _ => true) "cfg.txt"
                 (ConfigStore.mkState [] "")
                 (fun _ => Some ("wsl_linux_distro=" ++ String CType.LF
                                   "proxy_url=http://p:1")))))
    "wsl_linux_distro" "" <> "".
Proof.
  apply (LoadConfig_builtin_never_empty (fun _ => true) "cfg.txt").
  right. right. right. now left.
Defined.

Lemma write_file_same (path content : string) (files : ConfigStore.Files) :
  ConfigStore.write_file path content files path = Some content.
Proof. unfold ConfigStore.write_file. now rewrite String.eqb_refl. Qed.

(** X7: a configuration whose keys and values a file can carry, saved with
    [SaveConfig], is what [LoadConfig] on the same path brings back, whatever
    the values were changed to in between: every key reads as it did when
    the configuration was saved.  A file can carry distinct keys without
    '=', line feed, outer blanks and leading '#', and values without outer
    spaces, as long as neither holds the byte 0x1A, at which the reading of
    the file ends. *)
Theorem SaveConfig_LoadConfig_roundtrip
    (can_write : string -> bool) (config_path : string)
    (st st' : ConfigStore.State) (files files' : ConfigStore.Files)
    (changed : StdMap.t) :
  storable (ConfigStore.config_values_ st) ->
  (forall b, In b ConfigStore.builtin_keys ->
     ConfigStore.GetConfigValue st b "" <> "") ->
  ConfigStore.SaveConfig can_write config_path st files = (true, st', files') ->
  let reloaded :=
    ConfigStore.LoadConfig can_write config_path
      (ConfigStore.mkState changed (ConfigStore.config_path_ st')) files' in
  fst (fst reloaded) = true
  /\ forall key default_value,
       ConfigStore.GetConfigValue (snd (fst reloaded)) key default_value
       = ConfigStore.GetConfigValue st key default_value.
Proof.
  intros Hst Hb Hsave reloaded.
  assert (Hfind : forall p key default_value,
            ConfigStore.GetConfigValue
              (ConfigStore.mkState
                 (ConfigStore.load_text
                    (ConfigStore.save_text (ConfigStore.config_values_ st))
                    (ConfigStore.InitDefaultConfig [])) p) key default_value
            = ConfigStore.GetConfigValue st key default_value).
  { intros p key d. unfold ConfigStore.GetConfigValue.
    cbn [ConfigStore.config_values_].
    now rewrite (load_save_text _ key Hst Hb). }
  unfold reloaded, ConfigStore.LoadConfig, ConfigStore.LoadConfigInternal.
  unfold ConfigStore.SaveConfig in Hsave.
  destruct (StdString.empty config_path) eqn:Ee; cbn [negb] in *.
  - destruct (can_write (ConfigStore.config_path_ st)); [|discriminate].
    cbn [negb] in Hsave. injection Hsave as <- <-.
    cbn [ConfigStore.config_path_ ConfigStore.config_values_].
    rewrite !write_file_same.
    cbn [fst snd]. split; [reflexivity|]. intros. apply Hfind.
  - destruct (can_write config_path); [|discriminate].
    cbn [negb] in Hsave. injection Hsave as <- <-.
    cbn [ConfigStore.config_path_ ConfigStore.config_values_].
    rewrite !write_file_same.
    cbn [fst snd]. split; [reflexivity|]. intros. apply Hfind.
Qed.

Lemma SaveConfig_LoadConfig_roundtrip_witness :
  let st :=
    ConfigStore.SetConfigValue "proxy_url" "http://127.0.0.1:7890/?a=b"
      (ConfigStore.mkState (ConfigStore.InitDefaultConfig []) "cfg.txt") in
  let saved := ConfigStore.SaveConfig (fun _ => true) "" st (fun _ => None) in
  ConfigStore.GetConfigValue
    (snd (fst (ConfigStore.LoadConfig (fun _ => true) ""
                 (ConfigStore.mkState []
                    (ConfigStore.config_path_ (snd (fst saved))))
                 (snd saved))))
    "proxy_url" ""
  = "http://127.0.0.1:7890/?a=b".
Proof.
  intros st saved.
  assert (Hst : storable (ConfigStore.config_values_ st)).
  { split.
    - cbn. repeat constructor; cbn; intuition discriminate.
    - repeat constructor. }
  assert (Hb : forall b, In b ConfigStore.builtin_keys ->
                 ConfigStore.GetConfigValue st b "" <> "").
  { intros b [<-|[<-|[<-|[<-|[]]]]]; discriminate. }
  destruct (SaveConfig_LoadConfig_roundtrip (fun _ => true) "" st
              (snd (fst saved)) (fun _ => None) (snd saved) [] Hst Hb
              eq_refl) as [_ H].
  rewrite H. reflexivity.
Defined.

(** The byte 0x1A in a saved value ends the reading of the file: the value
    comes back cut, and the keys saved after it come back with their
    defaults or not at all. *)
Lemma LoadConfig_stops_at_SUB :
  let st :=
    ConfigStore.SetConfigValue "proxy_url"
      ("http://h" ++ String CType.SUB ":1")
      (ConfigStore.SetConfigValue "wsl_linux_distro" "Debian"
         (ConfigStore.mkState (ConfigStore.InitDefaultConfig []) "cfg.txt")) in
  let saved := ConfigStore.SaveConfig (fun _ => true) "" st (fun _ => None) in
  let reloaded :=
    snd (fst (ConfigStore.LoadConfig (fun _ => true) "" (snd (fst saved))
                (snd saved))) in
  ConfigStore.GetConfigValue reloaded "proxy_url" "" = "http://h"
  /\ ConfigStore.GetConfigValue reloaded "wsl_linux_distro" ""
     = "Ubuntu-24.04".
Proof. cbv zeta. split; reflexivity. Qed.

(* ================================================================= *)
(** ** Arguments handed to the shell                                  *)
(* ================================================================= *)

Section ShellWords.
Import CType StdString WSLCommand.

Lemma existsb_false {A} (f : A -> bool) (l : list A) :
  existsb f l = false -> forall x, In x l -> f x = false.
Proof.
  induction l as [|a l IH]; intros H x; [easy|].
  cbn [existsb] in H. apply orb_false_iff in H as [Ha Hl].
  intros [<-|Hin]; [exact Ha|now apply IH].
Qed.

Lemma forall_existsb_false {A} (f : A -> bool) (l : list A) :
  (forall x, In x l -> f x = false) -> existsb f l = false.
Proof.
  induction l as [|a l IH]; intros H; [reflexivity|].
  cbn [existsb]. rewrite (H a (or_introl eq_refl)), IH; [reflexivity|].
  intros x Hx. apply H. now right.
Qed.

Lemma needs_quoting_cons (c : ascii) (a : string) :
  needs_quoting (String c a) = false ->
  is_special c = false /\ needs_quoting a = false.
Proof.
  unfold needs_quoting, is_special. intros H.
  pose proof (existsb_false _ _ H) as Hall. split.
  - apply forall_existsb_false. intros sc Hin.
    specialize (Hall sc Hin). cbn [find_char] in Hall.
    now destruct (Ascii.eqb c sc).
  - apply forall_existsb_false. intros sc Hin.
    specialize (Hall sc Hin). cbn [find_char] in Hall.
    destruct (Ascii.eqb c sc); [discriminate|].
    now destruct (find_char sc a).
Qed.

Lemma classify_unspecial (c : ascii) :
  is_special c = false -> Ascii.eqb c BACKSLASH = false ->
  sh_classify c = ShPlain \/ sh_classify c = ShLeading.
Proof.
  destruct c as [[] [] [] [] [] [] [] []]; vm_compute; intros; auto;
    discriminate.
Qed.

Lemma classify_leading (c : ascii) :
  sh_classify c = ShLeading ->
  Ascii.eqb c "#" || Ascii.eqb c "~" = true.
Proof.
  destruct c as [[] [] [] [] [] [] [] []]; vm_compute; intros; auto;
    discriminate.
Qed.

Lemma classify_single (c : ascii) :
  Ascii.eqb c SQUOTE = false -> sh_classify c <> ShSingle.
Proof.
  destruct c as [[] [] [] [] [] [] [] []]; vm_compute; intros; discriminate.
Qed.

(** Inside single quotes, the quoted form of [a] is read as [a]. *)
Lemma scan_escape_body (a rest : string) (ws : list string) :
  sh_scan Unquoted true rest = Some ("" :: ws) ->
  sh_scan SingleQuoted true (escape_body a ++ rest) = Some (a :: ws).
Proof.
  intros Hrest. induction a as [|c a IH].
  - cbn [escape_body append sh_scan].
    change (sh_classify SQUOTE) with ShSingle. exact Hrest.
  - cbn [escape_body]. destruct (Ascii.eqb_spec c SQUOTE) as [->|Hc].
    + unfold quoted_quote. cbn [append sh_scan].
      change (sh_classify SQUOTE) with ShSingle.
      change (sh_classify DQUOTE) with ShDouble.
      cbn iota. change (Ascii.eqb SQUOTE "$" || Ascii.eqb SQUOTE "`")
        with false. cbn iota. now rewrite IH.
    + cbn [append sh_scan].
      assert (Hn : sh_classify c <> ShSingle).
      { apply classify_single. now destruct (Ascii.eqb_spec c SQUOTE). }
      rewrite IH.
      destruct (sh_classify c); try reflexivity. now elim Hn.
Qed.

(** Outside quotes, a run of plain characters is read as itself. *)
Lemma scan_plain (a rest : string) (ws : list string) :
  needs_quoting a = false -> find_char BACKSLASH a = None ->
  sh_scan Unquoted true rest = Some ("" :: ws) ->
  sh_scan Unquoted true (a ++ rest) = Some (a :: ws).
Proof.
  intros Hq Hb Hrest. induction a as [|c a IH]; [exact Hrest|].
  apply needs_quoting_cons in Hq as [Hc Hq].
  cbn [find_char] in Hb. destruct (Ascii.eqb c BACKSLASH) eqn:Eb;
    [discriminate|].
  assert (Hb' : find_char BACKSLASH a = None)
    by (now destruct (find_char BACKSLASH a)).
  cbn [append sh_scan]. rewrite (IH Hq Hb').
  destruct (classify_unspecial c Hc Eb) as [-> | ->]; reflexivity.
Qed.

Lemma scan_word (a rest : string) (ws : list string) :
  passable a = true ->
  sh_scan Unquoted true rest = Some ("" :: ws) ->
  sh_scan Unquoted false (EscapeForShell a ++ rest) = Some (a :: ws).
Proof.
  unfold passable, EscapeForShell. intros Hp Hrest.
  destruct (needs_quoting a) eqn:Hq.
  - cbn [append sh_scan]. change (sh_classify SQUOTE) with ShSingle.
    now apply scan_escape_body.
  - cbn [orb] in Hp. unfold plain_word in Hp.
    destruct a as [|c a]; [discriminate|].
    apply andb_true_iff in Hp as [Hlead Hb].
    apply andb_true_iff in Hlead as [Hh Ht].
    apply negb_true_iff in Hh, Ht.
    destruct (find_char BACKSLASH (String c a)) eqn:Eb; [discriminate|].
    pose proof (needs_quoting_cons c a Hq) as [Hc Hq'].
    cbn [find_char] in Eb. destruct (Ascii.eqb c BACKSLASH) eqn:Ec;
      [discriminate|].
    assert (Hb' : find_char BACKSLASH a = None)
      by (now destruct (find_char BACKSLASH a)).
    cbn [append sh_scan]. rewrite (scan_plain a rest ws Hq' Hb' Hrest).
    destruct (classify_unspecial c Hc Ec) as [E|E].
    + rewrite E. reflexivity.
    + apply classify_leading in E. rewrite Hh, Ht in E. discriminate.
Qed.



End ShellWords.

(** X8: the shell reads [EscapeForShell(arg)] as the one word [arg], for
    every argument that is quoted (it holds a blank, a quote or another of
    the listed characters) and for every argument without these that is not
    empty, holds no backslash and does not start with '#' or '~'. *)
Theorem EscapeForShell_one_word (arg : string) :
  passable arg = true ->
  sh_words (WSLCommand.EscapeForShell arg) = Some [arg].
Proof.
  intros H. unfold sh_words.
  rewrite <- (append_empty_r (WSLCommand.EscapeForShell arg)).
  now apply scan_word.
Qed.

Lemma EscapeForShell_one_word_witness :
  sh_words (WSLCommand.EscapeForShell "it's a $HOME; path") =
  Some ["it's a $HOME; path"].
Proof.
  apply (EscapeForShell_one_word "it's a $HOME; path"). reflexivity.
Defined.


Section TildeFree.
Import CType StdString WSLCommand.








End TildeFree.



(* ================================================================= *)
(** ** The command line parser                                        *)
(* ================================================================= *)

Section ParserFacts.
Import CommandParser.

Lemma FindCommand_app (x : string) (cs : list Command) (c : Command) :
  FindCommand x (cs ++ [c])
  = match FindCommand x cs with
    | Some found => Some found
    | None => if String.eqb (name c) x then Some c else None
    end.
Proof.
  induction cs as [|a cs IH]; [reflexivity|].
  cbn [app FindCommand]. now destruct (String.eqb (name a) x).
Qed.

Lemma Parse_shadowed (cs : list Command) (n d : string)
    (h : CommandHandler) (argv : list string) :
  FindCommand n cs <> None \/ In n builtin_options ->
  Parse (RegisterCommand n d h cs) argv = Parse cs argv.
Proof.
  intros Hn. unfold Parse, RegisterCommand.
  destruct argv as [|prog [|x args]]; try reflexivity.
  destruct (String.eqb_spec x "--help") as [->|H1]; [reflexivity|].
  destruct (String.eqb_spec x "-h") as [->|H2]; [reflexivity|].
  destruct (String.eqb_spec x "--version") as [->|H3]; [reflexivity|].
  destruct (String.eqb_spec x "-v") as [->|H4]; [reflexivity|].
  cbn [orb]. rewrite FindCommand_app. cbn [name].
  destruct (FindCommand x cs) as [found|] eqn:E; [reflexivity|].
  destruct (String.eqb_spec n x) as [->|_]; [|reflexivity].
  exfalso. destruct Hn as [Hn|Hn]; [now apply Hn|].
  destruct Hn as [<-|[<-|[<-|[<-|[]]]]]; congruence.
Qed.

End ParserFacts.

(** X10: a command registered under a name that is already registered, or
    under the name of one of the built-in options (--help, -h, --version,
    -v), is never reached: [Parse] returns on every command line what it
    returned before the registration. *)
Theorem Parse_registration_shadowed (commands_ : list CommandParser.Command)
    (name description : string) (handler : CommandParser.CommandHandler) :
  CommandParser.FindCommand name commands_ <> None
  \/ In name builtin_options ->
  forall argv : list string,
    CommandParser.Parse
      (CommandParser.RegisterCommand name description handler commands_) argv
    = CommandParser.Parse commands_ argv.
Proof.
  intros H argv. now apply Parse_shadowed.
Qed.

Lemma Parse_registration_shadowed_witness :
  CommandParser.Parse
    (CommandParser.RegisterCommand "check" "second" (fun _ => Cpp.Returns 7%Z)
       [CommandParser.mkCommand "check" "first" (fun _ => Cpp.Returns 0%Z)])
    ["prakasa"; "check"]
  = CommandParser.Parse
      [CommandParser.mkCommand "check" "first" (fun _ => Cpp.Returns 0%Z)]
      ["prakasa"; "check"].
Proof.
  apply (Parse_registration_shadowed
           [CommandParser.mkCommand "check" "first" (fun _ => Cpp.Returns 0%Z)]
           "check" "second" (fun _ => Cpp.Returns 7%Z)).
  left. vm_compute. discriminate.
Defined.

(* ================================================================= *)
(** ** The template of a command                                      *)
(* ================================================================= *)

Section TemplateFacts.
Import BaseCommand.

Variable ConvertPowerShellOutputToUtf8 : string -> string.
Variable requirements : EnvironmentRequirements.
Variable machine : Machine.

Lemma PrepareEnvironment_Success (context context' : CommandContext) :
  PrepareEnvironment ConvertPowerShellOutputToUtf8 requirements machine context
  = (Success, context') ->
  args context' = args context
  /\ ubuntu_version context' = configured_distro machine
  /\ proxy_url context' = system_proxy_url machine
  /\ is_admin context' = running_as_admin machine
  /\ (need_admin requirements = true -> running_as_admin machine = true)
  /\ (need_wsl requirements = true ->
      wsl_available context' = true
      /\ fst (wsl_list machine) = 0%Z
      /\ StdString.contains (configured_distro machine)
           (ConvertPowerShellOutputToUtf8 (snd (wsl_list machine))) = true).
Proof.
  unfold PrepareEnvironment, CheckWSLEnvironment. cbn [args ubuntu_version
    proxy_url is_admin wsl_available].
  destruct (need_admin requirements), (running_as_admin machine);
    cbn [andb negb]; try discriminate;
    (destruct (need_wsl requirements);
     [ destruct (wsl_list machine) as [exit_code stdout_output];
       cbn [fst snd];
       destruct (Z.eqb_spec exit_code 0) as [->|Hne]; cbn [negb];
       [ destruct (StdString.contains _ _) eqn:Hc; cbn [negb];
         [ intros [= <-]; cbn; repeat split; auto | discriminate ]
       | discriminate ]
     | intros [= <-]; cbn; repeat split; auto; discriminate ]).
Qed.

Lemma Execute_Run (ValidateArgsImpl : CommandContext ->
                                      CommandResult * CommandContext)
    (arguments : list string) (context : CommandContext) :
  Execute ConvertPowerShellOutputToUtf8 ValidateArgsImpl requirements machine
    arguments = Run context ->
  ShouldShowHelp arguments = false
  /\ exists validated,
       ValidateArgsImpl (mkCommandContext arguments "" "" false false)
       = (Success, validated)
       /\ PrepareEnvironment ConvertPowerShellOutputToUtf8 requirements
            machine validated = (Success, context).
Proof.
  unfold Execute. cbn [args].
  destruct (ShouldShowHelp arguments); [discriminate|].
  destruct (ValidateArgsImpl _) as [r validated].
  destruct r; cbn [is_success negb]; try discriminate.
  destruct (PrepareEnvironment _ _ _ validated) as [r context'] eqn:E.
  destruct r; cbn [is_success negb]; try discriminate.
  intros [= <-]. split; [reflexivity|]. exists validated. now split.
Qed.

Lemma ValidateArgsImpl_loop_rejects (arguments : list string) :
  arguments <> [] -> ShouldShowHelp arguments = false ->
  EnvironmentCommands.ValidateArgsImpl_loop arguments = InvalidArgs.
Proof.
  destruct arguments as [|a rest]; [congruence|]. intros _.
  unfold ShouldShowHelp. cbn [existsb EnvironmentCommands.ValidateArgsImpl_loop].
  unfold is_help.
  destruct (String.eqb a "--help"), (String.eqb a "-h"); cbn; congruence.
Qed.

Lemma environment_command_arguments (arguments : list string) :
  arguments <> [] ->
  Execute ConvertPowerShellOutputToUtf8 EnvironmentCommands.ValidateArgsImpl
    requirements machine arguments
  = Done (if ShouldShowHelp arguments then Success else InvalidArgs).
Proof.
  intros Hne. unfold Execute. cbn [args].
  destruct (ShouldShowHelp arguments) eqn:Hh; [reflexivity|].
  unfold EnvironmentCommands.ValidateArgsImpl. cbn [args].
  rewrite (ValidateArgsImpl_loop_rejects _ Hne Hh). reflexivity.
Qed.

End TemplateFacts.

(** X11: [BaseCommand::Execute] hands over to [ExecuteImpl] only when no
    argument is a help flag, the arguments were validated, the command's
    need of administrator rights is met, and, when the command needs WSL,
    [wsl --list --quiet] succeeded and lists the configured distribution;
    the context then carries the configured distribution, the system proxy
    and the administrator flag. *)
Theorem Execute_reaches_ExecuteImpl
    (ConvertPowerShellOutputToUtf8 : string -> string)
    (ValidateArgsImpl : BaseCommand.CommandContext ->
                        BaseCommand.CommandResult * BaseCommand.CommandContext)
    (requirements : BaseCommand.EnvironmentRequirements)
    (machine : BaseCommand.Machine)
    (arguments : list string) (context : BaseCommand.CommandContext) :
  BaseCommand.Execute ConvertPowerShellOutputToUtf8 ValidateArgsImpl
    requirements machine arguments = BaseCommand.Run context ->
  BaseCommand.ShouldShowHelp arguments = false
  /\ (exists validated,
        ValidateArgsImpl
          (BaseCommand.mkCommandContext arguments "" "" false false)
        = (BaseCommand.Success, validated)
        /\ BaseCommand.args context = BaseCommand.args validated)
  /\ BaseCommand.ubuntu_version context = BaseCommand.configured_distro machine
  /\ BaseCommand.proxy_url context = BaseCommand.system_proxy_url machine
  /\ BaseCommand.is_admin context = BaseCommand.running_as_admin machine
  /\ (BaseCommand.need_admin requirements = true ->
      BaseCommand.running_as_admin machine = true)
  /\ (BaseCommand.need_wsl requirements = true ->
      BaseCommand.wsl_available context = true
      /\ fst (BaseCommand.wsl_list machine) = 0%Z
      /\ StdString.contains (BaseCommand.configured_distro machine)
           (ConvertPowerShellOutputToUtf8
              (snd (BaseCommand.wsl_list machine))) = true).
Proof.
  intros H. apply Execute_Run in H. destruct H as [Hh [validated [Hv Hp]]].
  apply PrepareEnvironment_Success in Hp.
  destruct Hp as [Ha [Hu [Hx [Hi [Hadm Hwsl]]]]].
  split; [exact Hh|]. split; [now exists validated|].
  repeat (split; [assumption|]). exact Hwsl.
Qed.

Lemma Execute_reaches_ExecuteImpl_witness :
  BaseCommand.ShouldShowHelp ["-m"; "Qwen/Qwen3-0.6B"] = false
  /\ BaseCommand.ubuntu_version
       (BaseCommand.mkCommandContext ["-m"; "Qwen/Qwen3-0.6B"] "Ubuntu-24.04"
          "http://127.0.0.1:7890" false true)
     = "Ubuntu-24.04".
Proof.
  pose proof (Execute_reaches_ExecuteImpl (fun s => s) WSLCommand.ValidateArgsImpl
                WSLCommand.Join_requirements
                (BaseCommand.mkMachine "Ubuntu-24.04" "http://127.0.0.1:7890"
                   false (0%Z, "docker-desktop
Ubuntu-24.04
"))
                ["-m"; "Qwen/Qwen3-0.6B"]
                (BaseCommand.mkCommandContext ["-m"; "Qwen/Qwen3-0.6B"]
                   "Ubuntu-24.04" "http://127.0.0.1:7890" false true)
                eq_refl) as H.
  split; [exact (proj1 H) | exact (proj1 (proj2 (proj2 H)))].
Defined.

(** X12: the check and install commands accept no argument.  With any
    argument at all, [Execute] ends before the environment is looked at and
    before [ExecuteImpl]: with Success (the help text) if some argument is
    --help or -h, and with InvalidArgs otherwise. *)
Theorem environment_commands_accept_no_argument
    (ConvertPowerShellOutputToUtf8 : string -> string)
    (requirements : BaseCommand.EnvironmentRequirements)
    (machine : BaseCommand.Machine) (arguments : list string) :
  arguments <> [] ->
  BaseCommand.Execute ConvertPowerShellOutputToUtf8
    EnvironmentCommands.ValidateArgsImpl requirements machine arguments
  = BaseCommand.Done
      (if BaseCommand.ShouldShowHelp arguments
       then BaseCommand.Success else BaseCommand.InvalidArgs).
Proof.
  intros H. now apply environment_command_arguments.
Qed.

Lemma environment_commands_accept_no_argument_witness :
  BaseCommand.Execute (fun s => s) EnvironmentCommands.ValidateArgsImpl
    BaseCommand.AdminCommand_requirements
    (BaseCommand.mkMachine "Ubuntu-24.04" "" true (0%Z, "Ubuntu-24.04"))
    ["--verbose"]
  = BaseCommand.Done BaseCommand.InvalidArgs.
Proof.
  apply (environment_commands_accept_no_argument (fun s => s)
           BaseCommand.AdminCommand_requirements
           (BaseCommand.mkMachine "Ubuntu-24.04" "" true (0%Z, "Ubuntu-24.04"))
           ["--verbose"]).
  discriminate.
Defined.

Section EnvironmentCommandResults.
Import Environment BaseCommand EnvironmentCommands.

Lemma all_success_loop_has_status (results : list ComponentResult) :
  all_success_loop results = negb (has_status kFailed results).
Proof.
  induction results as [|r rest IH]; [reflexivity|].
  cbn [all_success_loop has_status existsb]. fold (has_status kFailed rest).
  destruct (status r); cbn [status_eqb orb negb]; auto.
Qed.

Lemma Check_ExecuteImpl_by_status (result : EnvironmentResult) :
  Check_ExecuteImpl result =
    if reboot_required result then EnvironmentError
    else if has_status kFailed (component_results result)
         then EnvironmentError
    else Success.
Proof.
  unfold Check_ExecuteImpl. rewrite CheckAllComponents_by_status.
  destruct (reboot_required result); [reflexivity|].
  destruct (has_status kFailed _); [reflexivity|].
  destruct (has_status kWarning _); reflexivity.
Qed.

Lemma Install_ExecuteImpl_by_status (result : EnvironmentResult) :
  Install_ExecuteImpl result =
    if reboot_required result then Success
    else if has_status kFailed (component_results result)
         then ExecutionError
    else Success.
Proof.
  unfold Install_ExecuteImpl, InstallAllComponents.
  rewrite all_success_loop_has_status.
  destruct (reboot_required result); [reflexivity|].
  destruct (has_status kFailed _); reflexivity.
Qed.

End EnvironmentCommandResults.

(** X13: the check command ends with Success exactly when the run asks
    for no reboot and no component failed (warnings do not count);
    otherwise it ends with EnvironmentError, exit code 2, also when the
    only reason is a failed component, for which [CheckAllComponents]
    itself returns 1. *)
Theorem Check_ExecuteImpl_result (result : Environment.EnvironmentResult) :
  (EnvironmentCommands.Check_ExecuteImpl result = BaseCommand.Success <->
   Environment.reboot_required result = false
   /\ has_status Environment.kFailed
        (Environment.component_results result) = false)
  /\ (EnvironmentCommands.Check_ExecuteImpl result = BaseCommand.Success
      \/ BaseCommand.to_int (EnvironmentCommands.Check_ExecuteImpl result)
         = 2%Z).
Proof.
  rewrite Check_ExecuteImpl_by_status.
  destruct (Environment.reboot_required result);
    destruct (has_status Environment.kFailed _); cbn;
    (split; [split; [try discriminate; auto | intros [? ?]; congruence]
            | auto]).
Qed.

(** X14: the install command ends with Success exactly when the run asks
    for a reboot or no component failed: a required reboot hides failed
    components.  Otherwise it ends with ExecutionError, exit code 3. *)
Theorem Install_ExecuteImpl_result (result : Environment.EnvironmentResult) :
  (EnvironmentCommands.Install_ExecuteImpl result = BaseCommand.Success <->
   Environment.reboot_required result = true
   \/ has_status Environment.kFailed
        (Environment.component_results result) = false)
  /\ (EnvironmentCommands.Install_ExecuteImpl result = BaseCommand.Success
      \/ BaseCommand.to_int (EnvironmentCommands.Install_ExecuteImpl result)
         = 3%Z).
Proof.
  rewrite Install_ExecuteImpl_by_status.
  destruct (Environment.reboot_required result);
    destruct (has_status Environment.kFailed _); cbn;
    (split; [split; [try discriminate; auto | intros [?|?]; congruence]
            | auto]).
Qed.

(* ================================================================= *)
(** ** The run, join and chat commands                                *)
(* ================================================================= *)

Section ModelCommands.
Import Host BaseCommand WSLCommand.

Variable host : Responder.
Variable BuildWSLCommand : string -> string -> string.
Variable ConvertPowerShellOutputToUtf8 : string -> string.
Variable configured_distro system_proxy_url : string.
Variable running_as_admin : bool.

Lemma PrepareEnvironment_WSL (requirements : EnvironmentRequirements)
    (context : CommandContext) (t : Trace) :
  need_wsl requirements = true -> need_admin requirements = false ->
  let listed :=
    distro_listed ConvertPowerShellOutputToUtf8 configured_distro
      (host t wsl_list_call) in
  WSLCommand.PrepareEnvironment host ConvertPowerShellOutputToUtf8
    requirements configured_distro system_proxy_url running_as_admin
    context t
  = ((if listed then Success else EnvironmentError,
      mkCommandContext (args context) configured_distro system_proxy_url
        running_as_admin listed),
     (t ++ [wsl_list_call])%list).
Proof.
  intros Hw Ha listed. subst listed.
  unfold WSLCommand.PrepareEnvironment, WSLCommand.CheckWSLEnvironment,
    distro_listed.
  cbn [args ubuntu_version proxy_url is_admin wsl_available].
  rewrite Hw, Ha. cbn [andb]. unfold bind at 1. rewrite bind_call.
  destruct (host t wsl_list_call) as [exit_code stdout_output].
  cbn [fst snd].
  destruct (exit_code =? 0)%Z; cbn [negb andb ret]; [|reflexivity].
  destruct (StdString.contains _ _); reflexivity.
Qed.

Lemma relay_Execute (requirements : EnvironmentRequirements)
    (command_of : CommandContext -> string) (arguments : list string)
    (t : Trace) :
  need_wsl requirements = true -> need_admin requirements = false ->
  let context :=
    mkCommandContext arguments configured_distro system_proxy_url
      running_as_admin true in
  let launch :=
    WSLRealtime (BuildWSLCommand configured_distro
                   (full_command context (command_of context))) in
  Execute_with host ConvertPowerShellOutputToUtf8 requirements
    configured_distro system_proxy_url running_as_admin
    (fun context => relay host BuildWSLCommand context (command_of context))
    arguments t
  = if ShouldShowHelp arguments then (Success, t)
    else if distro_listed ConvertPowerShellOutputToUtf8 configured_distro
              (host t wsl_list_call)
    then (if (fst (host (t ++ [wsl_list_call])%list launch) =? 0)%Z
          then Success else ExecutionError,
          (t ++ [wsl_list_call; launch])%list)
    else (EnvironmentError, (t ++ [wsl_list_call])%list).
Proof.
  intros Hw Ha context launch. subst launch context.
  unfold Execute_with. cbn [args].
  destruct (ShouldShowHelp arguments); [reflexivity|].
  unfold WSLCommand.ValidateArgsImpl. cbn [is_success negb].
  unfold bind at 1. rewrite (PrepareEnvironment_WSL _ _ _ Hw Ha).
  cbn [args].
  destruct (distro_listed _ _ _); cbn [is_success negb]; [|reflexivity].
  unfold relay. cbn [ubuntu_version]. rewrite bind_call.
  unfold ret. rewrite <- app_assoc. reflexivity.
Qed.

(** The template with its process agrees with the template as a function of
    the machine's answers, the answer to [wsl --list --quiet] being the one
    the host gives at that point. *)
Lemma Execute_with_template (requirements : EnvironmentRequirements)
    (ExecuteImpl : CommandContext -> M CommandResult)
    (arguments : list string) (t : Trace) :
  let machine :=
    mkMachine configured_distro system_proxy_url running_as_admin
      (host t wsl_list_call) in
  exists t',
    (t' = t \/ t' = (t ++ [wsl_list_call])%list)
    /\ Execute_with host ConvertPowerShellOutputToUtf8 requirements
         configured_distro system_proxy_url running_as_admin ExecuteImpl
         arguments t
       = match BaseCommand.Execute ConvertPowerShellOutputToUtf8
                 WSLCommand.ValidateArgsImpl requirements machine arguments
         with
         | Done r => (r, t')
         | Run context => ExecuteImpl context t'
         end.
Proof.
  intros machine. subst machine.
  unfold Execute_with, BaseCommand.Execute. cbn [args].
  destruct (ShouldShowHelp arguments).
  { exists t. split; [now left|reflexivity]. }
  unfold WSLCommand.ValidateArgsImpl. cbn [is_success negb].
  unfold bind at 1.
  unfold WSLCommand.PrepareEnvironment, BaseCommand.PrepareEnvironment,
    WSLCommand.CheckWSLEnvironment, BaseCommand.CheckWSLEnvironment.
  cbn [args ubuntu_version proxy_url is_admin wsl_available
       BaseCommand.configured_distro BaseCommand.system_proxy_url
       BaseCommand.running_as_admin BaseCommand.wsl_list].
  destruct (need_admin requirements && negb running_as_admin).
  { exists t. split; [now left|reflexivity]. }
  destruct (need_wsl requirements).
  - exists (t ++ [wsl_list_call])%list. split; [now right|].
    unfold bind at 1. rewrite bind_call.
    destruct (host t wsl_list_call) as [exit_code stdout_output].
    destruct (exit_code =? 0)%Z; cbn [negb ret]; [|reflexivity].
    destruct (StdString.contains _ _); reflexivity.
  - exists t. split; [now left|reflexivity].
Qed.

End ModelCommands.

(** X15: the run, join and chat commands make at most two of the calls
    [ExecCommandEx] and [WSLProcess::Execute].  With a help flag among the
    arguments they make none and the result is Success.  Otherwise they
    first run [powershell.exe] on [wsl --list --quiet]; when that fails or
    does not list the configured distribution nothing else is started and
    the result is EnvironmentError; otherwise exactly one real-time WSL
    process is started after it, on the command line built from the
    arguments for the configured distribution, and the result is Success if
    that process exits with 0 and ExecutionError if not. *)
Theorem model_command_Execute (host : Host.Responder)
    (BuildWSLCommand : string -> string -> string)
    (ConvertPowerShellOutputToUtf8 : string -> string)
    (configured_distro system_proxy_url : string) (running_as_admin : bool)
    (requirements : BaseCommand.EnvironmentRequirements)
    (ExecuteImpl : BaseCommand.CommandContext ->
                   Host.M BaseCommand.CommandResult)
    (command_of : BaseCommand.CommandContext -> string)
    (arguments : list string) (t : Host.Trace) :
  In requirements [WSLCommand.Run_requirements; WSLCommand.Join_requirements] ->
  In (ExecuteImpl, command_of) (model_commands host BuildWSLCommand) ->
  let listing := WSLCommand.wsl_list_call in
  let context :=
    BaseCommand.mkCommandContext arguments configured_distro system_proxy_url
      running_as_admin true in
  let launch :=
    Host.WSLRealtime
      (BuildWSLCommand configured_distro
         (WSLCommand.full_command context (command_of context))) in
  WSLCommand.Execute_with host ConvertPowerShellOutputToUtf8 requirements
    configured_distro system_proxy_url running_as_admin ExecuteImpl
    arguments t
  = if BaseCommand.ShouldShowHelp arguments then (BaseCommand.Success, t)
    else if distro_listed ConvertPowerShellOutputToUtf8 configured_distro
              (host t listing)
    then (if (fst (host (t ++ [listing])%list launch) =? 0)%Z
          then BaseCommand.Success else BaseCommand.ExecutionError,
          (t ++ [listing; launch])%list)
    else (BaseCommand.EnvironmentError, (t ++ [listing])%list).
Proof.
  intros Hr Hc.
  assert (Hw : BaseCommand.need_wsl requirements = true
               /\ BaseCommand.need_admin requirements = false).
  { destruct Hr as [<-|[<-|[]]]; now split. }
  destruct Hw as [Hw Ha].
  destruct Hc as [Hc|[Hc|[Hc|[]]]]; injection Hc as <- <-;
    exact (relay_Execute host BuildWSLCommand ConvertPowerShellOutputToUtf8
             configured_distro system_proxy_url running_as_admin
             requirements _ arguments t Hw Ha).
Qed.

Lemma model_command_Execute_witness :
  WSLCommand.Execute_with
    (Host.scripted
       [(Host.command_text WSLCommand.wsl_list_call,
         (0%Z, "docker-desktop Ubuntu-24.04"))])
    (fun s => s) WSLCommand.Join_requirements "Ubuntu-24.04" "" false
    (WSLCommand.Join_ExecuteImpl
       (Host.scripted
          [(Host.command_text WSLCommand.wsl_list_call,
            (0%Z, "docker-desktop Ubuntu-24.04"))])
       (fun distro command => command))
    ["-m"; "Qwen/Qwen3-0.6B"] []
  = (BaseCommand.ExecutionError,
     [WSLCommand.wsl_list_call;
      Host.WSLRealtime
        (WSLCommand.BuildVenvActivationCommand
         ++ " && prakasa join -m Qwen/Qwen3-0.6B")]).
Proof.
  apply (model_command_Execute
           (Host.scripted
              [(Host.command_text WSLCommand.wsl_list_call,
                (0%Z, "docker-desktop Ubuntu-24.04"))])
           (fun distro command => command) (fun s => s)
           "Ubuntu-24.04" "" false
           WSLCommand.Join_requirements
           (WSLCommand.Join_ExecuteImpl
              (Host.scripted
                 [(Host.command_text WSLCommand.wsl_list_call,
                   (0%Z, "docker-desktop Ubuntu-24.04"))])
              (fun distro command => command))
           WSLCommand.BuildJoinCommand
           ["-m"; "Qwen/Qwen3-0.6B"] []).
  - right. left. reflexivity.
  - right. left. reflexivity.
Defined.

(* ================================================================= *)
(** ** The queries of the virtualization check                        *)
(* ================================================================= *)

Section VirtualizationQueries.
Import Environment Host BIOSVirtualizationChecker.

Variable host : Responder.



End VirtualizationQueries.


(* ================================================================= *)
(** ** Installation of pip and of the project                         *)
(* ================================================================= *)

Section Installers.
Import CType StdString Cpp Environment Host SoftwareInstaller.

Variable host : Responder.
Variable context_ : ExecutionContext.
Variable default_timeout : Z.
Variable BuildWSLCommand : string -> string -> string.
Variable repo_url : string.

Local Abbreviation call_of := (call_of_step context_ BuildWSLCommand).
Local Abbreviation probe := (WSL installed_probe_cmd default_timeout).

Lemma Pip_upgrade_spec (t : Trace) :
  let upgrade := WSL (upgrade_cmd context_) 300 in
  trace (Pip_upgrade host context_ t) = (t ++ [upgrade])%list
  /\ status (result (Pip_upgrade host context_ t))
     = if (fst (host t upgrade) =? 0)%Z then kSuccess else kFailed.
Proof.
  intros upgrade. unfold Pip_upgrade, ExecuteWSL. rewrite bind_call.
  fold upgrade. destruct (host t upgrade) as [c o]. cbn [fst].
  unfold ret, trace, result. cbn [fst snd]. split; [reflexivity|].
  now destruct (c =? 0)%Z.
Qed.

Lemma Pip_Install_unfold (t : Trace) :
  let version_query := WSL pip_version_cmd default_timeout in
  let install := WSL (install_pip_cmd context_) 300 in
  Pip_Install host context_ default_timeout t
  = if importable (host t version_query)
    then Pip_upgrade host context_ (t ++ [version_query])%list
    else if (fst (host (t ++ [version_query])%list install) =? 0)%Z
    then Pip_upgrade host context_ (t ++ [version_query; install])%list
    else (CreateFailureResult kPipUpgrade
            ("Failed to install python3-pip: "
               ++ snd (host (t ++ [version_query])%list install)) 24,
          (t ++ [version_query; install])%list).
Proof.
  intros version_query install.
  unfold Pip_Install, bind at 1.
  rewrite IsPipUpToDate_spec. fold version_query.
  destruct (importable (host t version_query)); cbn [negb]; [reflexivity|].
  unfold ExecuteWSL. rewrite bind_call. fold install.
  destruct (host (t ++ [version_query])%list install) as [c o].
  cbn [fst snd]. rewrite <- app_assoc. cbn [app].
  destruct (c =? 0)%Z; reflexivity.
Qed.

Lemma Pip_Install_spec (t : Trace) :
  let version_query := WSL pip_version_cmd default_timeout in
  let install := WSL (install_pip_cmd context_) 300 in
  let upgrade := WSL (upgrade_cmd context_) 300 in
  let available := importable (host t version_query) in
  let installed :=
    (fst (host (t ++ [version_query])%list install) =? 0)%Z in
  let before_upgrade :=
    (t ++ version_query :: (if available then [] else [install]))%list in
  trace (Pip_Install host context_ default_timeout t)
    = (before_upgrade
       ++ (if available || installed then [upgrade] else []))%list
  /\ status (result (Pip_Install host context_ default_timeout t))
     = if (available || installed)
          && (fst (host before_upgrade upgrade) =? 0)%Z
       then kSuccess else kFailed.
Proof.
  intros version_query install upgrade available installed before_upgrade.
  subst before_upgrade installed available.
  rewrite Pip_Install_unfold. fold version_query install.
  destruct (importable (host t version_query)); cbn [negb orb andb].
  - destruct (Pip_upgrade_spec (t ++ [version_query])%list) as [Ht Hs].
    fold upgrade in Ht, Hs. rewrite Ht, Hs. split; reflexivity.
  - destruct (fst (host (t ++ [version_query])%list install) =? 0)%Z.
    + destruct (Pip_upgrade_spec (t ++ [version_query; install])%list)
        as [Ht Hs].
      fold upgrade in Ht, Hs. rewrite Ht, Hs. split; reflexivity.
    + unfold trace, result. cbn [fst snd]. rewrite app_nil_r.
      split; reflexivity.
Qed.

End Installers.

(** X17: [Install] of the pip-upgrade component always asks [pip --version]
    first.  When pip is missing it then runs [apt-get install python3-pip],
    and a failure of that command ends the installation with Failed: the
    upgrade is not attempted.  In every other case the upgrade command is
    the last call, and the result is Success exactly when it exits with
    zero. *)
Theorem Pip_Install_calls
    (host : Host.Responder) (context_ : SoftwareInstaller.ExecutionContext)
    (default_timeout : Z) (t : Host.Trace) :
  let version_query :=
    Host.WSL SoftwareInstaller.pip_version_cmd default_timeout in
  let install :=
    Host.WSL (SoftwareInstaller.install_pip_cmd context_) 300 in
  let upgrade := Host.WSL (SoftwareInstaller.upgrade_cmd context_) 300 in
  let available := importable (host t version_query) in
  let installed :=
    (fst (host (t ++ [version_query])%list install) =? 0)%Z in
  let before_upgrade :=
    (t ++ version_query :: (if available then [] else [install]))%list in
  Host.trace (SoftwareInstaller.Pip_Install host context_ default_timeout t)
    = (before_upgrade
       ++ (if available || installed then [upgrade] else []))%list
  /\ Environment.status
       (Host.result
          (SoftwareInstaller.Pip_Install host context_ default_timeout t))
     = if (available || installed)
          && (fst (host before_upgrade upgrade) =? 0)%Z
       then Environment.kSuccess else Environment.kFailed.
Proof.
  apply Pip_Install_spec.
Qed.

Section ProjectInstall.
Import CType StdString Cpp Environment Host SoftwareInstaller.

Variable host : Responder.
Variable context_ : ExecutionContext.
Variable default_timeout : Z.
Variable BuildWSLCommand : string -> string -> string.
Variable repo_url : string.

Local Abbreviation call_of := (call_of_step context_ BuildWSLCommand).
Local Abbreviation probe := (WSL installed_probe_cmd default_timeout).
Local Abbreviation run_sequence :=
  (ExecuteCommandSequence host context_ BuildWSLCommand).

Lemma ExecuteCommandSequence_calls (commands : list Step) (op : string)
    (t : Trace) :
  exists n,
    trace (run_sequence commands op t)
    = (t ++ map call_of (firstn n commands))%list.
Proof.
  revert t. induction commands as [|s rest IH]; intros t.
  - exists 0%nat. cbn. now rewrite app_nil_r.
  - cbn [ExecuteCommandSequence]. unfold bind at 1.
    rewrite run_step_spec.
    destruct (negb (step_exit_code host context_ BuildWSLCommand t s =? 0)%Z).
    + exists 1%nat. reflexivity.
    + destruct (IH (t ++ [call_of s])%list) as [n Hn].
      exists (S n). rewrite Hn. cbn [firstn map].
      now rewrite <- app_assoc.
Qed.

Lemma fresh_source_steps_spec (t : Trace) :
  fresh_source_steps host context_ repo_url t
  = if lists_directory (host t dir_probe) then
      (if is_repository (host (t ++ [dir_probe])%list git_probe)
       then [("update_parallax", pull_cmd context_, 300%Z, false)]
       else [("remove_old_prakasa", "rm -rf ~/prakasa", 60%Z, false);
             ("clone_prakasa", clone_cmd context_ repo_url, 600%Z, false)],
       (t ++ [dir_probe; git_probe])%list)
    else ([("clone_prakasa", clone_cmd context_ repo_url, 600%Z, false)],
          (t ++ [dir_probe])%list).
Proof.
  unfold fresh_source_steps, ExecuteWSL, lists_directory, is_repository.
  rewrite bind_call. fold dir_probe.
  destruct (host t dir_probe) as [c1 o1]. cbn [fst snd].
  destruct ((c1 =? 0)%Z && negb (contains "not found" o1)); [|reflexivity].
  rewrite bind_call. fold git_probe.
  destruct (host (t ++ [dir_probe])%list git_probe) as [c2 o2].
  cbn [fst snd]. rewrite <- app_assoc. cbn [app].
  destruct ((c2 =? 0)%Z && negb (contains "not git" o2)); reflexivity.
Qed.

(** The steps of an installation, from the steps that bring the sources. *)
Lemma Project_do_install_unfold (is_installed : bool) (t : Trace) :
  let plan :=
    if is_installed
    then ([("update_parallax", pull_cmd context_, 300%Z, false)], t)
    else fresh_source_steps host context_ repo_url t in
  let commands :=
    if is_installed
    then (fst plan
          ++ [("install_prakasa_base", install_base_cmd context_, 1800%Z,
               true)])%list
    else (fst plan
          ++ [("install_python3_venv", install_venv_cmd context_, 300%Z,
               false);
              ("install_prakasa_base", install_base_cmd context_, 1800%Z,
               true);
              ("add_cuda_env", add_cuda_env_cmd, 30%Z, false)])%list in
  let run := run_sequence commands "Prakasa project installation" (snd plan) in
  Project_do_install host context_ default_timeout BuildWSLCommand repo_url
    is_installed t
  = if negb (status_eqb (status (fst run)) kSuccess) then run
    else
      (if importable (host (snd run) probe)
       then (if is_installed
             then CreateSuccessResult kParallaxProject
                    "Prakasa project updated successfully"
             else CreateSuccessResult kParallaxProject
                    "Prakasa project installed successfully")
       else CreateFailureResult kParallaxProject
              (if is_installed
               then "Parallax project update completed but verification failed"
               else "Parallax project installation completed but verification failed")
              25,
       (snd run ++ [probe])%list).
Proof.
  intros plan commands run. subst run commands plan.
  unfold Project_do_install, bind at 1.
  destruct is_installed; cbn [negb].
  - unfold ret at 1. cbn [fst snd]. unfold bind at 1.
    destruct (run_sequence _ _ t) as [r t2]. cbn [fst snd].
    destruct (negb (status_eqb (status r) kSuccess)); [reflexivity|].
    unfold bind. rewrite IsParallaxProjectInstalled_spec. reflexivity.
  - destruct (fresh_source_steps host context_ repo_url t) as [src t1].
    cbn [fst snd]. rewrite <- !app_assoc. cbn [app]. unfold bind at 1.
    destruct (run_sequence _ _ t1) as [r t2]. cbn [fst snd].
    destruct (negb (status_eqb (status r) kSuccess)); [reflexivity|].
    unfold bind. rewrite IsParallaxProjectInstalled_spec. reflexivity.
Qed.

Lemma status_eqb_eq (a b : InstallationStatus) :
  status_eqb a b = true <-> a = b.
Proof. destruct a, b; cbn; split; congruence. Qed.

Lemma Project_do_install_Success (is_installed : bool) (t : Trace) :
  status (result (Project_do_install host context_ default_timeout
                    BuildWSLCommand repo_url is_installed t)) = kSuccess ->
  exists before,
    trace (Project_do_install host context_ default_timeout BuildWSLCommand
             repo_url is_installed t) = (before ++ [probe])%list
    /\ importable (host before probe) = true.
Proof.
  rewrite Project_do_install_unfold.
  set (run := run_sequence _ _ _).
  destruct (status_eqb (status (fst run)) kSuccess) eqn:E; cbn [negb].
  - unfold result, trace. cbn [fst snd].
    destruct (importable (host (snd run) probe)) eqn:Hi.
    + intros _. now exists (snd run).
    + cbn. discriminate.
  - unfold result. intros H. apply status_eqb_eq in H. congruence.
Qed.

Lemma Project_Install_unfold (t : Trace) :
  Project_Install host context_ default_timeout BuildWSLCommand repo_url t
  = if importable (host t probe) then
      if result (HasParallaxProjectGitUpdates host context_
                   (t ++ [probe])%list)
      then Project_do_install host context_ default_timeout BuildWSLCommand
             repo_url true
             (trace (HasParallaxProjectGitUpdates host context_
                       (t ++ [probe])%list))
      else (CreateSkippedResult kParallaxProject up_to_date_message,
            trace (HasParallaxProjectGitUpdates host context_
                     (t ++ [probe])%list))
    else Project_do_install host context_ default_timeout BuildWSLCommand
           repo_url false (t ++ [probe])%list.
Proof.
  unfold Project_Install, bind at 1.
  rewrite IsParallaxProjectInstalled_spec.
  destruct (importable (host t probe)); [|reflexivity].
  unfold bind, result, trace.
  destruct (HasParallaxProjectGitUpdates host context_ (t ++ [probe])%list)
    as [[|] t']; reflexivity.
Qed.

Lemma Project_Install_Success (t : Trace) :
  status (result (Project_Install host context_ default_timeout
                    BuildWSLCommand repo_url t)) = kSuccess ->
  exists before,
    trace (Project_Install host context_ default_timeout BuildWSLCommand
             repo_url t) = (before ++ [probe])%list
    /\ importable (host before probe) = true.
Proof.
  rewrite Project_Install_unfold.
  destruct (importable (host t probe)).
  - destruct (result (HasParallaxProjectGitUpdates _ _ _)).
    + apply Project_do_install_Success.
    + cbn. discriminate.
  - apply Project_do_install_Success.
Qed.

End ProjectInstall.

(** X18: [Install] of the project-deployment component reports Success
    only after a last look: its final call is the probe that lists the
    package inside the virtual environment, and that probe exited with
    zero and printed something.  Steps that all exit with zero are not
    enough. *)
Theorem Project_Install_Success_is_verified
    (host : Host.Responder) (context_ : SoftwareInstaller.ExecutionContext)
    (default_timeout : Z) (BuildWSLCommand : string -> string -> string)
    (repo_url : string) (t : Host.Trace) :
  Environment.status
    (Host.result
       (SoftwareInstaller.Project_Install host context_ default_timeout
          BuildWSLCommand repo_url t)) = Environment.kSuccess ->
  exists before,
    Host.trace
      (SoftwareInstaller.Project_Install host context_ default_timeout
         BuildWSLCommand repo_url t)
    = (before
       ++ [Host.WSL SoftwareInstaller.installed_probe_cmd default_timeout])%list
    /\ importable
         (host before
            (Host.WSL SoftwareInstaller.installed_probe_cmd default_timeout))
       = true.
Proof.
  apply Project_Install_Success.
Qed.

Lemma Project_Install_Success_is_verified_witness :
  exists before,
    Host.trace
      (SoftwareInstaller.Project_Install
         (Host.scripted
            [(SoftwareInstaller.installed_probe_cmd, (0%Z, "prakasa 0.1"));
             (SoftwareInstaller.rev_parse_cmd, (0%Z, "true"));
             ("cd ~/prakasa && git fetch origin", (0%Z, ""));
             (SoftwareInstaller.rev_list_cmd, (0%Z, "3"));
             ("cd ~/prakasa && git pull", (0%Z, "Updating"));
             (SoftwareInstaller.install_base_cmd
                (SoftwareInstaller.mkExecutionContext "" "Ubuntu-24.04"),
              (0%Z, ""))])
         (SoftwareInstaller.mkExecutionContext "" "Ubuntu-24.04")
         30%Z (fun distro command => command)
         "https://github.com/hetu-project/prakasa.git" [])
    = (before ++ [Host.WSL SoftwareInstaller.installed_probe_cmd 30%Z])%list
    /\ importable
         (Host.scripted
            [(SoftwareInstaller.installed_probe_cmd, (0%Z, "prakasa 0.1"));
             (SoftwareInstaller.rev_parse_cmd, (0%Z, "true"));
             ("cd ~/prakasa && git fetch origin", (0%Z, ""));
             (SoftwareInstaller.rev_list_cmd, (0%Z, "3"));
             ("cd ~/prakasa && git pull", (0%Z, "Updating"));
             (SoftwareInstaller.install_base_cmd
                (SoftwareInstaller.mkExecutionContext "" "Ubuntu-24.04"),
              (0%Z, ""))]
            before (Host.WSL SoftwareInstaller.installed_probe_cmd 30%Z))
       = true.
Proof.
  apply (Project_Install_Success_is_verified
           (Host.scripted
              [(SoftwareInstaller.installed_probe_cmd, (0%Z, "prakasa 0.1"));
               (SoftwareInstaller.rev_parse_cmd, (0%Z, "true"));
               ("cd ~/prakasa && git fetch origin", (0%Z, ""));
               (SoftwareInstaller.rev_list_cmd, (0%Z, "3"));
               ("cd ~/prakasa && git pull", (0%Z, "Updating"));
               (SoftwareInstaller.install_base_cmd
                  (SoftwareInstaller.mkExecutionContext "" "Ubuntu-24.04"),
                (0%Z, ""))])
           (SoftwareInstaller.mkExecutionContext "" "Ubuntu-24.04")
           30%Z (fun distro command => command)
           "https://github.com/hetu-project/prakasa.git" []).
  vm_compute. reflexivity.
Defined.

Section ProjectRemoval.
Import CType StdString Cpp Environment Host SoftwareInstaller.

Variable host : Responder.
Variable context_ : ExecutionContext.
Variable default_timeout : Z.
Variable BuildWSLCommand : string -> string -> string.
Variable repo_url : string.

Local Abbreviation call_of := (call_of_step context_ BuildWSLCommand).
Local Abbreviation probe := (WSL installed_probe_cmd default_timeout).
Local Abbreviation run_sequence :=
  (ExecuteCommandSequence host context_ BuildWSLCommand).

Lemma ExecuteCommandSequence_first_call (s : Step) (rest : list Step)
    (op : string) (t : Trace) :
  exists calls,
    trace (run_sequence (s :: rest) op t)
    = (t ++ call_of s :: calls)%list
    /\ forall c, In c calls -> In c (map call_of rest).
Proof.
  cbn [ExecuteCommandSequence]. unfold bind at 1. rewrite run_step_spec.
  destruct (negb (step_exit_code host context_ BuildWSLCommand t s =? 0)%Z).
  - exists []. split; [reflexivity|]. intros c [].
  - destruct (ExecuteCommandSequence_calls host context_ BuildWSLCommand
                rest op (t ++ [call_of s])%list) as [n Hn].
    exists (map call_of (firstn n rest)). split.
    + rewrite Hn. now rewrite <- app_assoc.
    + intros c Hc. apply in_map_iff in Hc. destruct Hc as [x [<- Hx]].
      apply in_map. revert Hx. clear. revert rest.
      induction n as [|n IH]; intros [|a l]; cbn; try tauto.
      intros [->|H]; [now left|right; now apply IH].
Qed.

Lemma probe_not_removal : probe <> removal.
Proof. unfold removal. discriminate. Qed.

Lemma Project_do_install_calls (is_installed : bool) (t : Trace) :
  exists calls,
    trace (Project_do_install host context_ default_timeout BuildWSLCommand
             repo_url is_installed t) = (t ++ calls)%list
    /\ (In removal calls <->
        is_installed = false
        /\ lists_directory (host t dir_probe) = true
        /\ is_repository (host (t ++ [dir_probe])%list git_probe) = false).
Proof.
  rewrite Project_do_install_unfold.
  assert (Tail : forall (run : ComponentResult * Trace) (P : Prop),
            (exists calls, snd run = (t ++ calls)%list
                           /\ (In removal calls <-> P)) ->
            exists calls,
              trace (if negb (status_eqb (status (fst run)) kSuccess)
                     then run
                     else (if importable (host (snd run) probe)
                           then (if is_installed
                                 then CreateSuccessResult kParallaxProject
                                        "Prakasa project updated successfully"
                                 else CreateSuccessResult kParallaxProject
                                        "Prakasa project installed successfully")
                           else CreateFailureResult kParallaxProject
                                  (if is_installed
                                   then "Parallax project update completed but verification failed"
                                   else "Parallax project installation completed but verification failed")
                                  25,
                           (snd run ++ [probe])%list))
              = (t ++ calls)%list
              /\ (In removal calls <-> P)).
  { intros run P [calls [Ht HP]].
    destruct (negb (status_eqb (status (fst run)) kSuccess)).
    - exists calls. now split.
    - exists (calls ++ [probe])%list. unfold trace. cbn [snd].
      rewrite Ht, <- app_assoc. split; [reflexivity|].
      rewrite in_app_iff. cbn [In]. rewrite HP.
      pose proof probe_not_removal. tauto. }
  apply Tail. clear Tail.
  destruct is_installed.
  - cbn [fst snd app].
    destruct (ExecuteCommandSequence_first_call
                ("update_parallax", pull_cmd context_, 300%Z, false)
                [("install_prakasa_base", install_base_cmd context_,
                  1800%Z, true)]
                "Prakasa project installation" t) as [calls [Hc Hin]].
    unfold trace in Hc. eexists. split; [exact Hc|].
    split; [|intros [? _]; discriminate].
    intros [H|H]; [discriminate H|].
    apply Hin in H. destruct H as [H|[]]. discriminate H.
  - rewrite fresh_source_steps_spec.
    destruct (lists_directory (host t dir_probe)).
    + destruct (is_repository (host (t ++ [dir_probe])%list git_probe));
        cbn [fst snd app].
      * match goal with
        | |- context [run_sequence (?s :: ?rest) ?op ?t0] =>
            destruct (ExecuteCommandSequence_first_call s rest op t0)
              as [calls [Hc Hin]]
        end.
        unfold trace in Hc.
        rewrite <- app_assoc in Hc.
        eexists. split; [exact Hc|].
        split; [|intros [_ [_ ?]]; discriminate].
        cbn [app In]. intros [H|[H|[H|H]]]; try discriminate H.
        apply Hin in H. cbn in H.
        destruct H as [H|[H|[H|[]]]]; discriminate H.
      * match goal with
        | |- context [run_sequence (?s :: ?rest) ?op ?t0] =>
            destruct (ExecuteCommandSequence_first_call s rest op t0)
              as [calls [Hc Hin]]
        end.
        unfold trace in Hc.
        rewrite <- app_assoc in Hc.
        eexists. split; [exact Hc|].
        split; [auto|]. intros _. cbn [app In].
        right. right. left. reflexivity.
    + cbn [fst snd app].
      match goal with
      | |- context [run_sequence (?s :: ?rest) ?op ?t0] =>
          destruct (ExecuteCommandSequence_first_call s rest op t0)
            as [calls [Hc Hin]]
      end.
      unfold trace in Hc.
      rewrite <- app_assoc in Hc.
        eexists. split; [exact Hc|].
      split; [|intros [_ [? _]]; discriminate].
      cbn [app In]. intros [H|[H|H]]; try discriminate H.
      apply Hin in H. cbn in H.
      destruct H as [H|[H|[H|[]]]]; discriminate H.
Qed.

Lemma update_queries_not_removal (calls : list Call) :
  incl calls [WSL rev_parse_cmd 30; WSL (fetch_cmd context_) 60;
              WSL rev_list_cmd 30] ->
  ~ In removal calls.
Proof.
  intros Hincl H. apply Hincl in H.
  destruct H as [H|[H|[H|[]]]]; try discriminate H.
  unfold fetch_cmd, removal in H.
  destruct (negb (empty (proxy_url context_))); discriminate H.
Qed.

Lemma Project_Install_calls (t : Trace) :
  exists calls,
    trace (Project_Install host context_ default_timeout BuildWSLCommand
             repo_url t) = (t ++ calls)%list
    /\ (In removal calls <->
        importable (host t probe) = false
        /\ lists_directory (host (t ++ [probe])%list dir_probe) = true
        /\ is_repository (host (t ++ [probe; dir_probe])%list git_probe)
           = false).
Proof.
  rewrite Project_Install_unfold.
  destruct (importable (host t probe)).
  - destruct (HasParallaxProjectGitUpdates_trace host context_
                (t ++ [probe])%list) as [queries [Hq Hincl]].
    pose proof (update_queries_not_removal _ Hincl) as Hno.
    rewrite Hq.
    destruct (result (HasParallaxProjectGitUpdates _ _ _)).
    + destruct (Project_do_install_calls true
                  ((t ++ [probe]) ++ queries)%list) as [calls [Hc Hin]].
      exists (probe :: queries ++ calls)%list. split.
      * rewrite Hc, <- !app_assoc. reflexivity.
      * split; [|intros [? _]; discriminate].
        intros [H|H]; [now apply probe_not_removal in H|].
        apply in_app_or in H. destruct H as [H|H]; [contradiction|].
        apply Hin in H. destruct H as [? _]. discriminate.
    + exists (probe :: queries)%list. split.
      * unfold trace. cbn [snd]. now rewrite <- app_assoc.
      * split; [|intros [? _]; discriminate].
        intros [H|H]; [now apply probe_not_removal in H|contradiction].
  - destruct (Project_do_install_calls false (t ++ [probe])%list)
      as [calls [Hc Hin]].
    exists (probe :: calls). split.
    + rewrite Hc, <- app_assoc. reflexivity.
    + rewrite <- app_assoc in Hin. cbn [app] in Hin.
      cbn [In]. rewrite Hin.
      pose proof probe_not_removal. tauto.
Qed.

End ProjectRemoval.

(** X19: [Install] of the project-deployment component runs
    [rm -rf ~/prakasa] in exactly one situation: the package is not
    importable, the listing of the checkout's [.git] succeeds without
    "not found", and the [git branch] probe fails or prints "not git".  In
    particular an installed project that is being updated is never
    removed. *)
Theorem Project_Install_removes_only_broken_checkout
    (host : Host.Responder) (context_ : SoftwareInstaller.ExecutionContext)
    (default_timeout : Z) (BuildWSLCommand : string -> string -> string)
    (repo_url : string) (t : Host.Trace) :
  let probe :=
    Host.WSL SoftwareInstaller.installed_probe_cmd default_timeout in
  exists calls,
    Host.trace
      (SoftwareInstaller.Project_Install host context_ default_timeout
         BuildWSLCommand repo_url t) = (t ++ calls)%list
    /\ (In removal calls <->
        importable (host t probe) = false
        /\ lists_directory (host (t ++ [probe])%list dir_probe) = true
        /\ is_repository (host (t ++ [probe; dir_probe])%list git_probe)
           = false).
Proof.
  apply Project_Install_calls.
Qed.

(* ================================================================= *)
(** ** The proxy in the commands that reach the network               *)
(* ================================================================= *)

Section ProxyFacts.
Import CType StdString.

Lemma starts_with_app (p rest : string) : starts_with p (p ++ rest) = true.
Proof.
  induction p as [|c p IH]; [reflexivity|].
  cbn [append starts_with]. now rewrite Ascii.eqb_refl, IH.
Qed.

Lemma contains_prefix (p rest : string) : contains p (p ++ rest) = true.
Proof.
  destruct p as [|c p]; [now destruct rest|].
  cbn [append contains]. fold (append p rest).
  change (String c (p ++ rest)) with (String c p ++ rest).
  now rewrite starts_with_app.
Qed.

Lemma contains_String (p s : string) (c : ascii) :
  contains p s = true -> contains p (String c s) = true.
Proof.
  intros H. cbn [contains]. now destruct (starts_with p (String c s)).
Qed.

Lemma contains_app_r (p a s : string) :
  contains p s = true -> contains p (a ++ s) = true.
Proof.
  intros H. induction a as [|c a IH]; [exact H|].
  cbn [append]. now apply contains_String.
Qed.

End ProxyFacts.

Ltac names_proxy :=
  cbn [append];
  repeat (apply contains_String);
  rewrite ?string_app_assoc;
  apply contains_prefix.

(** X20: when a proxy is configured, every command that reaches the
    network names it: the installation and the upgrade of pip, the git
    fetch, pull and clone, the installation of python3-venv and of the
    project, and the command line relayed by run, join and chat. *)
Theorem network_commands_name_proxy
    (proxy distro repo_url command : string) (arguments : list string)
    (admin wsl : bool) :
  proxy <> "" ->
  let context_ := SoftwareInstaller.mkExecutionContext proxy distro in
  Forall (fun line => StdString.contains proxy line = true)
    [SoftwareInstaller.install_pip_cmd context_;
     SoftwareInstaller.upgrade_cmd context_;
     SoftwareInstaller.fetch_cmd context_;
     SoftwareInstaller.pull_cmd context_;
     SoftwareInstaller.clone_cmd context_ repo_url;
     SoftwareInstaller.install_venv_cmd context_;
     SoftwareInstaller.install_base_cmd context_;
     WSLCommand.full_command
       (BaseCommand.mkCommandContext arguments distro proxy admin wsl)
       command].
Proof.
  intros Hp context_. subst context_.
  assert (He : StdString.empty proxy = false)
    by (destruct proxy; [congruence|reflexivity]).
  unfold SoftwareInstaller.install_pip_cmd, SoftwareInstaller.upgrade_cmd,
    SoftwareInstaller.fetch_cmd, SoftwareInstaller.pull_cmd,
    SoftwareInstaller.clone_cmd, SoftwareInstaller.install_venv_cmd,
    SoftwareInstaller.install_base_cmd, WSLCommand.full_command,
    SoftwareInstaller.proxy_url.
  cbn [SoftwareInstaller.GetProxyUrl BaseCommand.proxy_url].
  rewrite He. cbn [negb].
  repeat constructor.
  - names_proxy.
  - names_proxy.
  - names_proxy.
  - names_proxy.
  - names_proxy.
  - names_proxy.
  - names_proxy.
  - apply contains_app_r. names_proxy.
Qed.

Lemma network_commands_name_proxy_witness :
  StdString.contains "http://127.0.0.1:7890"
    (SoftwareInstaller.pull_cmd
       (SoftwareInstaller.mkExecutionContext "http://127.0.0.1:7890"
          "Ubuntu-24.04")) = true.
Proof.
  pose proof (network_commands_name_proxy "http://127.0.0.1:7890"
                "Ubuntu-24.04" "https://github.com/hetu-project/prakasa.git"
                "prakasa run" [] false true) as H.
  cbv zeta in H.
  assert (Hp : "http://127.0.0.1:7890" <> "") by discriminate.
  specialize (H Hp).
  apply Forall_inv_tail in H. apply Forall_inv_tail in H.
  apply Forall_inv_tail in H. apply Forall_inv in H. exact H.
Defined.

(* ================================================================= *)
(** ** Letter case of the GPU name                                    *)
(* ================================================================= *)

Section LetterCase.
Import CType StdString.

Lemma toupper_toupper (c : ascii) : toupper (toupper c) = toupper c.
Proof. destruct c as [[] [] [] [] [] [] [] []]; vm_compute; reflexivity. Qed.

Lemma toupper_of_tolower (c : ascii) : toupper (tolower c) = toupper c.
Proof. destruct c as [[] [] [] [] [] [] [] []]; vm_compute; reflexivity. Qed.

Lemma transform_transform (f g : ascii -> ascii) (s : string) :
  (forall c, f (g c) = f c) ->
  transform f (transform g s) = transform f s.
Proof.
  intros H. induction s as [|c s IH]; [reflexivity|].
  cbn [transform]. now rewrite H, IH.
Qed.

End LetterCase.

(** X21: the verdict on a GPU name does not depend on letter case: the
    name written in capitals, or in small letters, gets the verdict of the
    name as it was given. *)
Theorem IsGPUMeetsMinimumRequirement_ignores_case (gpu_name : string) :
  NvidiaGPUChecker.IsGPUMeetsMinimumRequirement
    (StdString.transform CType.toupper gpu_name)
  = NvidiaGPUChecker.IsGPUMeetsMinimumRequirement gpu_name
  /\ NvidiaGPUChecker.IsGPUMeetsMinimumRequirement
       (StdString.transform CType.tolower gpu_name)
     = NvidiaGPUChecker.IsGPUMeetsMinimumRequirement gpu_name.
Proof.
  unfold NvidiaGPUChecker.IsGPUMeetsMinimumRequirement.
  rewrite (transform_transform CType.toupper CType.toupper gpu_name
             toupper_toupper).
  rewrite (transform_transform CType.toupper CType.tolower gpu_name
             toupper_of_tolower).
  split; reflexivity.
Qed.

(* ================================================================= *)
(** ** The first load of the configuration                            *)
(* ================================================================= *)

Section FirstLoad.
Import ConfigStore.

Lemma defaults_storable : storable (InitDefaultConfig []).
Proof.
  split.
  - cbn. repeat constructor; cbn; intuition discriminate.
  - repeat constructor.
Qed.

Lemma defaults_builtin (b : string) :
  In b builtin_keys -> StdMap.at_ b (InitDefaultConfig []) <> "".
Proof. intros [<-|[<-|[<-|[<-|[]]]]]; discriminate. Qed.

Variable can_write : string -> bool.

Lemma LoadConfig_missing_file (config_path : string) (st : State)
    (files : Files) :
  let path := if StdString.empty config_path then config_path_ st
              else config_path in
  files path = None -> can_write path = true ->
  LoadConfig can_write config_path st files
  = (true, mkState (InitDefaultConfig []) path,
     write_file path (save_text (InitDefaultConfig [])) files).
Proof.
  intros path Hf Hw. subst path.
  unfold LoadConfig, LoadConfigInternal, SaveConfig.
  destruct (StdString.empty config_path) eqn:Ee;
    cbn [config_path_ config_values_ negb].
  - rewrite Hf.
    destruct (StdString.empty (config_path_ st)) eqn:E2;
      cbn [config_path_ negb]; rewrite Hw; reflexivity.
  - rewrite Hf, Ee, Hw. reflexivity.
Qed.

Lemma LoadConfig_existing_file (config_path text : string) (st : State)
    (files : Files) :
  let path := if StdString.empty config_path then config_path_ st
              else config_path in
  files path = Some text ->
  LoadConfig can_write config_path st files
  = (true, mkState (load_text text (InitDefaultConfig [])) path, files).
Proof.
  intros path Hf. subst path.
  unfold LoadConfig, LoadConfigInternal.
  destruct (StdString.empty config_path) eqn:Ee;
    cbn [config_path_ config_values_ negb]; rewrite Hf; [|reflexivity].
  now destruct st.
Qed.

End FirstLoad.

(** X22: the first [LoadConfig], on a path where no file exists yet and
    one can be written, succeeds, leaves the default values in the manager
    and writes them to the file; the next [LoadConfig] succeeds too, reads
    every key as the first one left it and leaves the files alone. *)
Theorem LoadConfig_first_run
    (can_write : string -> bool) (config_path : string)
    (st : ConfigStore.State) (files : ConfigStore.Files) :
  let path := if StdString.empty config_path then ConfigStore.config_path_ st
              else config_path in
  files path = None -> can_write path = true ->
  let first := ConfigStore.LoadConfig can_write config_path st files in
  let second :=
    ConfigStore.LoadConfig can_write config_path (snd (fst first))
      (snd first) in
  fst (fst first) = true
  /\ ConfigStore.config_values_ (snd (fst first))
     = ConfigStore.InitDefaultConfig []
  /\ snd first path
     = Some (ConfigStore.save_text (ConfigStore.InitDefaultConfig []))
  /\ fst (fst second) = true
  /\ snd second = snd first
  /\ forall key default_value,
       ConfigStore.GetConfigValue (snd (fst second)) key default_value
       = ConfigStore.GetConfigValue (snd (fst first)) key default_value.
Proof.
  intros path Hf Hw first second. subst second first.
  rewrite (LoadConfig_missing_file can_write config_path st files Hf Hw).
  fold path. cbn [fst snd ConfigStore.config_values_].
  assert (Hp : (if StdString.empty config_path
                then ConfigStore.config_path_
                       (ConfigStore.mkState (ConfigStore.InitDefaultConfig [])
                          path)
                else config_path) = path).
  { cbn [ConfigStore.config_path_]. unfold path.
    now destruct (StdString.empty config_path). }
  rewrite (LoadConfig_existing_file can_write config_path
             (ConfigStore.save_text (ConfigStore.InitDefaultConfig []))).
  2: { rewrite Hp. apply write_file_same. }
  cbn [fst snd]. rewrite write_file_same.
  repeat (split; [reflexivity|]).
  intros key d. unfold ConfigStore.GetConfigValue.
  cbn [ConfigStore.config_values_].
  now rewrite (load_save_text _ key defaults_storable defaults_builtin).
Qed.

Lemma LoadConfig_first_run_witness :
  ConfigStore.GetConfigValue
    (snd (fst (ConfigStore.LoadConfig (fun _ => true) "cfg.txt"
                 (snd (fst (ConfigStore.LoadConfig (fun _ => true) "cfg.txt"
                              (ConfigStore.mkState [] "") (fun _ => None))))
                 (snd (ConfigStore.LoadConfig (fun _ => true) "cfg.txt"
                         (ConfigStore.mkState [] "") (fun _ => None))))))
    "wsl_linux_distro" ""
  = "Ubuntu-24.04".
Proof.
  destruct (LoadConfig_first_run (fun _ => true) "cfg.txt"
              (ConfigStore.mkState [] "") (fun _ => None) eq_refl eq_refl)
    as (_ & _ & _ & _ & _ & H).
  rewrite H. reflexivity.
Defined.

(* ================================================================= *)
(** ** Names without RTX                                              *)
(* ================================================================= *)

Section NamesWithoutRTX.
Import CType StdString Cpp Regex NvidiaGPUChecker.

Lemma rtx_block_without_RTX (gpu_name : string) :
  contains "RTX" (upper gpu_name) = false ->
  rtx_block (upper gpu_name) = Returns None.
Proof.
  intros H. unfold rtx_block.
  destruct (contains "GEFORCE" (upper gpu_name)
            || contains "RTX" (upper gpu_name)); [|reflexivity].
  destruct (regex_search rtx_pattern (upper gpu_name)) as [m|] eqn:E;
    [|reflexivity].
  unfold rtx_pattern in E.
  apply regex_search_RTX_contains in E; [congruence|apply no_lower_upper].
Qed.

End NamesWithoutRTX.

(** X23: a GPU name that carries none of the professional and data-centre
    markers and in which the letters RTX do not occur, in any letter case,
    is always rejected, and no exception is raised: whatever digits or
    words it holds, a GTX card, a card of another maker or an empty name
    does not pass. *)
Theorem IsGPUMeetsMinimumRequirement_needs_RTX (gpu_name : string) :
  on_allowlist gpu_name = false ->
  StdString.contains "RTX" (upper gpu_name) = false ->
  NvidiaGPUChecker.IsGPUMeetsMinimumRequirement gpu_name = Cpp.Returns false.
Proof.
  intros Ha Hr. unfold NvidiaGPUChecker.IsGPUMeetsMinimumRequirement.
  unfold on_allowlist in Ha. fold (upper gpu_name). rewrite Ha.
  rewrite (rtx_block_without_RTX gpu_name Hr). cbn [Cpp.bind].
  now destruct (StdString.contains "GTX" (upper gpu_name)).
Qed.

Lemma IsGPUMeetsMinimumRequirement_needs_RTX_witness :
  NvidiaGPUChecker.IsGPUMeetsMinimumRequirement "NVIDIA GeForce GTX 1080 Ti"
  = Cpp.Returns false.
Proof.
  apply (IsGPUMeetsMinimumRequirement_needs_RTX "NVIDIA GeForce GTX 1080 Ti");
    reflexivity.
Defined.
